(** * Mirror selection and configuration: a model of archinstall's mirror code

    The development follows two source files:
    - [archinstall/lib/models/mirrors.py]: the mirror entry with its lazy
      speed probe, the status list validator, the reflector configuration
      and the configuration aggregate with [json] and [parse_args];
    - [archinstall/lib/mirrors.py]: [MirrorListHandler], the loader with its
      remote and local parsers and the per-region sorted view.

    Python text is modelled by [string], read as a sequence of code points
    below 256.  Python floats are modelled by rationals ([Q]); integers by
    [Z].  A dict is an association list in insertion order.  Code that can
    raise returns a [result]; code that talks to the network or the file
    system threads an explicit state and reads its answers from an oracle. *)

From Stdlib Require Import List String Ascii Bool ZArith NArith QArith Lia.
From Stdlib Require Import Permutation Sorted DecimalString Qround Lqa.
From Stdlib Require OrderedTypeEx.
Import ListNotations.
Open Scope string_scope.
Open Scope list_scope.
Open Scope Z_scope.

Set Implicit Arguments.
Set Warnings "-register-all".

(* ================================================================== *)
(** * Part I: definitions *)

(** ** Exceptions and results *)

(** The exception classes met in the modelled code.  [OutOfModel] is not a
    Python exception: the dataclasses store what they are given unchecked,
    while the records below carry the declared field types; a parse that
    would store a value outside the declared type of a field has no image
    in the model and answers [OutOfModel]. *)
Inductive exn : Type :=
| TypeError
| KeyError
| ValueError
| AttributeError
| AssertionError
| OSError
| OutOfModel.

Inductive result (A : Type) : Type :=
| Ok (a : A)
| Raise (e : exn).
Arguments Ok {A} a.
Arguments Raise {A} e.

Definition bind {A B : Type} (m : result A) (f : A -> result B) : result B :=
  match m with
  | Ok a => f a
  | Raise e => Raise e
  end.

Notation "'let*' x ':=' m 'in' k" := (bind m (fun x => k))
  (at level 10, x name, m at level 100, k at level 200).

Fixpoint mapM {A B : Type} (f : A -> result B) (l : list A) : result (list B) :=
  match l with
  | [] => Ok []
  | x :: xs =>
      let* y := f x in
      let* ys := mapM f xs in
      Ok (y :: ys)
  end.

Definition raises {A : Type} (r : result A) : Prop :=
  exists e, r = Raise e.

(** ** Python text primitives *)

(** [str(n)] for an integer. *)
Definition py_str (z : Z) : string := NilEmpty.string_of_int (Z.to_int z).

(** [sep.join(parts)]. *)
Definition join (sep : string) (parts : list string) : string :=
  String.concat sep parts.

(** The line feed, as a text. *)
Definition LF : string := String (ascii_of_nat 10) EmptyString.

(** [s.startswith(p)]. *)
Definition startswith (s p : string) : bool := String.prefix p s.

(** [c.isspace()] on the code points below 256: tab to carriage return,
    the four separators 28..31, space, NEL (133) and the no-break space (160). *)
Definition is_space (c : ascii) : bool :=
  let n := N_of_ascii c in
  (((9 <=? n) && (n <=? 13)) || ((28 <=? n) && (n <=? 32))
   || (n =? 133) || (n =? 160))%N.

(** Line boundaries of [str.splitlines] below 256, carriage return apart:
    line feed, vertical tab, form feed, the separators 28..30 and NEL. *)
Definition is_linebreak (c : ascii) : bool :=
  let n := N_of_ascii c in
  (((10 <=? n) && (n <=? 12)) || ((28 <=? n) && (n <=? 30)) || (n =? 133))%N.

Definition is_cr (c : ascii) : bool := (N_of_ascii c =? 13)%N.
Definition is_lf (c : ascii) : bool := (N_of_ascii c =? 10)%N.

Fixpoint lstrip (s : string) : string :=
  match s with
  | EmptyString => EmptyString
  | String c rest => if is_space c then lstrip rest else s
  end.

Fixpoint rstrip (s : string) : string :=
  match s with
  | EmptyString => EmptyString
  | String c rest =>
      match rstrip rest with
      | EmptyString => if is_space c then EmptyString else String c EmptyString
      | String _ _ as r => String c r
      end
  end.

(** [s.strip()]. *)
Definition strip (s : string) : string := lstrip (rstrip s).

(** [s.splitlines()]: the lines without their terminators; a carriage
    return directly followed by a line feed is one boundary; no empty last
    line after a final terminator. *)
Fixpoint splitlines (s : string) : list string :=
  match s with
  | EmptyString => []
  | String c rest =>
      if is_cr c then
        match rest with
        | String c2 rest2 =>
            if is_lf c2 then EmptyString :: splitlines rest2
            else EmptyString :: splitlines rest
        | EmptyString => [EmptyString]
        end
      else if is_linebreak c then EmptyString :: splitlines rest
      else
        match splitlines rest with
        | [] => [String c EmptyString]
        | l :: ls => String c l :: ls
        end
  end.

(** [s.replace(old, new)] for a non-empty [old]: the occurrences are found
    from the left and do not overlap.  [skip] counts the characters of the
    occurrence just matched that are still to be passed over. *)
Fixpoint replace_from (old new : string) (skip : nat) (s : string) : string :=
  match s with
  | EmptyString => EmptyString
  | String c rest =>
      match skip with
      | S k => replace_from old new k rest
      | O =>
          if String.prefix old s
          then String.append new (replace_from old new (Nat.pred (String.length old)) rest)
          else String c (replace_from old new 0%nat rest)
      end
  end.

Definition replace (s old new : string) : string := replace_from old new 0%nat s.

Fixpoint drop (n : nat) (s : string) : string :=
  match n, s with
  | O, _ => s
  | S _, EmptyString => EmptyString
  | S k, String _ rest => drop k rest
  end.

(** [s.removeprefix(p)]. *)
Definition removeprefix (s p : string) : string :=
  if String.prefix p s then drop (String.length p) s else s.

(** [s.removesuffix(x)]: the one place where what is left of [s] equals
    [x] is the end of [s]. *)
Fixpoint removesuffix (s x : string) : string :=
  match s with
  | EmptyString => EmptyString
  | String c rest =>
      if String.eqb s x then EmptyString else String c (removesuffix rest x)
  end.

(** [s.split(sep, 1)] unpacked as [head, *tail]. *)
Fixpoint split_once (s : string) (sep : ascii) : string * option string :=
  match s with
  | EmptyString => (EmptyString, None)
  | String c rest =>
      if Ascii.eqb c sep then (EmptyString, Some rest)
      else let '(h, t) := split_once rest sep in (String c h, t)
  end.

(** ** Dicts *)

Definition dict (V : Type) : Type := list (string * V).

Fixpoint dict_get {V : Type} (d : dict V) (k : string) : option V :=
  match d with
  | [] => None
  | (k', v) :: rest => if String.eqb k' k then Some v else dict_get rest k
  end.

Definition dict_mem {V : Type} (d : dict V) (k : string) : bool :=
  match dict_get d k with Some _ => true | None => false end.

(** [d[k] = v]: an existing key keeps its place. *)
Fixpoint dict_set {V : Type} (d : dict V) (k : string) (v : V) : dict V :=
  match d with
  | [] => [(k, v)]
  | (k', v') :: rest =>
      if String.eqb k' k then (k', v) :: rest else (k', v') :: dict_set rest k v
  end.

(** [d.update(other)]. *)
Definition dict_update {V : Type} (d other : dict V) : dict V :=
  fold_left (fun acc kv => dict_set acc (fst kv) (snd kv)) other d.

(** [d.setdefault(k, v)], for its effect on [d]. *)
Definition dict_setdefault {V : Type} (d : dict V) (k : string) (v : V) : dict V :=
  if dict_mem d k then d else d ++ [(k, v)].

(** [d[k]], which raises [KeyError] on a missing key. *)
Definition dict_item {V : Type} (d : dict V) (k : string) : result V :=
  match dict_get d k with
  | Some v => Ok v
  | None => Raise KeyError
  end.

(** ** [sorted]

    [sorted(xs, key=...)] computes every key first and then orders the
    decorated list, comparing keys with [<] only and keeping the input
    order of elements that compare equal.  A comparison may raise.  The
    order is produced here by insertion from the right, which fixes the
    same list as any other stable comparison sort whenever no comparison
    raises. *)
Section SortedBy.
Variables K A : Type.
Variable lt : K -> K -> result bool.

Fixpoint insert_by (x : K * A) (l : list (K * A)) : result (list (K * A)) :=
  match l with
  | [] => Ok [x]
  | y :: ys =>
      let* b := lt (fst y) (fst x) in
      if b then
        let* r := insert_by x ys in
        Ok (y :: r)
      else Ok (x :: y :: ys)
  end.

Fixpoint sort_by (l : list (K * A)) : result (list (K * A)) :=
  match l with
  | [] => Ok []
  | x :: xs =>
      let* s := sort_by xs in
      insert_by x s
  end.
End SortedBy.

(** ** Python values

    What [json()] returns and [parse_args] reads: JSON data, plus instances
    of [CustomServer], which [MirrorConfiguration.json] hands over as they
    are (only the url of such an instance is kept). *)
Inductive value : Type :=
| VNone
| VBool (b : bool)
| VInt (z : Z)
| VFloat (q : Q)
| VStr (s : string)
| VList (l : list value)
| VDict (d : list (string * value))
| VCustomServer (url : string).

(** Truth value of an object in a condition. *)
Definition truthy (v : value) : bool :=
  match v with
  | VNone => false
  | VBool b => b
  | VInt z => negb (z =? 0)
  | VFloat q => negb (Qeq_bool q 0)
  | VStr s => negb (String.eqb s "")
  | VList l => match l with [] => false | _ :: _ => true end
  | VDict d => match d with [] => false | _ :: _ => true end
  | VCustomServer _ => true
  end.

(** [d.get(k, default)]. *)
Definition get (d : dict value) (k : string) (default : value) : value :=
  match dict_get d k with
  | Some v => v
  | None => default
  end.

(** [v[k]] for a string [k]: only a dict can be indexed by a string. *)
Definition subscript (v : value) (k : string) : result value :=
  match v with
  | VDict d => dict_item d k
  | _ => Raise TypeError
  end.

(** [for x in v]: a list yields its elements, a dict its keys, a string its
    characters; nothing else met here can be iterated. *)
Definition py_iter (v : value) : result (list value) :=
  match v with
  | VList l => Ok l
  | VDict d => Ok (map (fun kv => VStr (fst kv)) d)
  | VStr s => Ok (map (fun c => VStr (String c EmptyString)) (list_ascii_of_string s))
  | _ => Raise TypeError
  end.

(** [v.items()]. *)
Definition py_items (v : value) : result (list (string * value)) :=
  match v with
  | VDict d => Ok d
  | _ => Raise AttributeError
  end.

(** [v == n] for an integer [n]. *)
Definition eq_int (v : value) (n : Z) : bool :=
  match v with
  | VInt z => z =? n
  | VFloat q => Qeq_bool q (inject_Z n)
  | VBool b => (if b then 1 else 0) =? n
  | _ => false
  end.

(** Readers at the border of the typed records. *)
Definition as_bool (v : value) : result bool :=
  match v with VBool b => Ok b | _ => Raise OutOfModel end.

Definition as_int (v : value) : result Z :=
  match v with VInt z => Ok z | _ => Raise OutOfModel end.

Definition as_str (v : value) : result string :=
  match v with VStr s => Ok s | _ => Raise OutOfModel end.

Definition as_str_list (v : value) : result (list string) :=
  match v with VList l => mapM as_str l | _ => Raise OutOfModel end.

(** ** Enumerations of [models/mirrors.py] *)

Inductive SignCheck : Type := Never | Optional | Required.
Inductive SignOption : Type := TrustedOnly | TrustAll.
Inductive ReflectorSortOrder : Type := Age | Rate | Country | Score | Delay.
Inductive ReflectorProtocol : Type := HTTP | HTTPS | FTP | RSYNC.

Definition SignCheck_value (s : SignCheck) : string :=
  match s with
  | Never => "Never"
  | Optional => "Optional"
  | Required => "Required"
  end.

Definition SignOption_value (s : SignOption) : string :=
  match s with
  | TrustedOnly => "TrustedOnly"
  | TrustAll => "TrustAll"
  end.

Definition ReflectorSortOrder_value (s : ReflectorSortOrder) : string :=
  match s with
  | Age => "age"
  | Rate => "rate"
  | Country => "country"
  | Score => "score"
  | Delay => "delay"
  end.

Definition ReflectorProtocol_value (p : ReflectorProtocol) : string :=
  match p with
  | HTTP => "http"
  | HTTPS => "https"
  | FTP => "ftp"
  | RSYNC => "rsync"
  end.

(** An enum class called on a value answers the member with that value and
    raises [ValueError] when there is none. *)
Definition by_value {E : Type} (members : list E) (val : E -> string)
    (v : value) : result E :=
  match v with
  | VStr s =>
      match find (fun m => String.eqb (val m) s) members with
      | Some m => Ok m
      | None => Raise ValueError
      end
  | _ => Raise ValueError
  end.

Definition SignCheck_of : value -> result SignCheck :=
  by_value [Never; Optional; Required] SignCheck_value.

Definition SignOption_of : value -> result SignOption :=
  by_value [TrustedOnly; TrustAll] SignOption_value.

Definition ReflectorSortOrder_of : value -> result ReflectorSortOrder :=
  by_value [Age; Rate; Country; Score; Delay] ReflectorSortOrder_value.

Definition ReflectorProtocol_of : value -> result ReflectorProtocol :=
  by_value [HTTP; HTTPS; FTP; RSYNC] ReflectorProtocol_value.

(** Modelled from the spec: the enum [Repository] of [models/packages.py],
    which is not among the modelled files.  The spec calls its members
    optional repository identifiers and persists them as identifier
    strings.  As for every Python enum, members are compared by identity
    and the class called on the value of a member answers that member. *)
Class RepositoryEnum : Type := {
  Repository : Type;
  Repository_eqb : Repository -> Repository -> bool;
  Repository_eqb_eq : forall a b, Repository_eqb a b = true <-> a = b;
  Repository_value : Repository -> string;
  Repository_of : value -> result Repository;
  Repository_of_value : forall r, Repository_of (VStr (Repository_value r)) = Ok r
}.

(** ** MirrorRegion *)
Module MirrorRegion.
Record t : Type := mk { name : string; urls : list string }.

Definition json (r : t) : dict value :=
  [(name r, VList (map VStr (urls r)))].

(** [__eq__]: regions are compared by name. *)
Definition eq (a b : t) : bool := String.eqb (name a) (name b).
End MirrorRegion.

(** ** ReflectorConfiguration *)
Module ReflectorConfiguration.
Record t : Type := mk {
  enabled : bool;
  countries : list string;
  protocols : list ReflectorProtocol;
  age : Z;
  latest : Z;
  sort_order : ReflectorSortOrder;
  verbose : bool
}.

(** The dataclass defaults. *)
Definition default : t := mk false [] [HTTPS] 12 20 Rate true.

(** [to_command_args]: the list grows by [append] and [extend] in the
    order of the source. *)
Definition to_command_args (c : t) : list string :=
  let args := ["reflector"] in
  let args := if verbose c then args ++ ["--verbose"] else args in
  let args :=
    match countries c with
    | [] => args
    | _ :: _ => args ++ ["--country"; join "," (countries c)]
    end in
  let args :=
    match protocols c with
    | [] => args
    | _ :: _ =>
        let protocol_names := map ReflectorProtocol_value (protocols c) in
        args ++ ["--protocol"; join "," protocol_names]
    end in
  args ++ ["--age"; py_str (age c);
           "--latest"; py_str (latest c);
           "--sort"; ReflectorSortOrder_value (sort_order c)].

Definition json (c : t) : value :=
  VDict [("enabled", VBool (enabled c));
         ("countries", VList (map VStr (countries c)));
         ("protocols",
           VList (map (fun p => VStr (ReflectorProtocol_value p)) (protocols c)));
         ("age", VInt (age c));
         ("latest", VInt (latest c));
         ("sort_order", VStr (ReflectorSortOrder_value (sort_order c)));
         ("verbose", VBool (verbose c))].

(** [parse_args] reads each key with its default, in the order of the
    source. *)
Definition parse_args (args : value) : result t :=
  match args with
  | VDict d =>
      let* enabled := as_bool (get d "enabled" (VBool false)) in
      let* countries := as_str_list (get d "countries" (VList [])) in
      let* ps := py_iter (get d "protocols" (VList [VStr "https"])) in
      let* protocols := mapM ReflectorProtocol_of ps in
      let* age := as_int (get d "age" (VInt 12)) in
      let* latest := as_int (get d "latest" (VInt 20)) in
      let* sort_order :=
        ReflectorSortOrder_of (get d "sort_order" (VStr "rate")) in
      let* verbose := as_bool (get d "verbose" (VBool true)) in
      Ok (mk enabled countries protocols age latest sort_order verbose)
  | _ => Raise AttributeError
  end.

(** [to_command_string]: the arguments with the save target, joined by
    spaces after [sudo]. *)
Definition to_command_string (c : t) : string :=
  let args := to_command_args c in
  let args := args ++ ["--save"; "/etc/pacman.d/mirrorlist"] in
  String.append "sudo " (join " " args).
End ReflectorConfiguration.

(** ** CustomRepository *)
Module CustomRepository.
Record t : Type := mk {
  name : string;
  url : string;
  sign_check : SignCheck;
  sign_option : SignOption
}.

Definition json (c : t) : value :=
  VDict [("name", VStr (name c));
         ("url", VStr (url c));
         ("sign_check", VStr (SignCheck_value (sign_check c)));
         ("sign_option", VStr (SignOption_value (sign_option c)))].

(** One turn of the loop: the four arguments are evaluated from left to
    right, then the record is built. *)
Definition parse_one (arg : value) : result t :=
  let* n := subscript arg "name" in
  let* u := subscript arg "url" in
  let* sc := subscript arg "sign_check" in
  let* sign_check := SignCheck_of sc in
  let* so := subscript arg "sign_option" in
  let* sign_option := SignOption_of so in
  let* name := as_str n in
  let* url := as_str u in
  Ok (mk name url sign_check sign_option).

Definition parse_args (args : value) : result (list t) :=
  let* items := py_iter args in
  mapM parse_one items.

Definition SignCheck_eqb (a b : SignCheck) : bool :=
  match a, b with
  | Never, Never | Optional, Optional | Required, Required => true
  | _, _ => false
  end.

Definition SignOption_eqb (a b : SignOption) : bool :=
  match a, b with
  | TrustedOnly, TrustedOnly | TrustAll, TrustAll => true
  | _, _ => false
  end.

(** [==] as the dataclass generates it: field by field. *)
Definition eqb (a b : t) : bool :=
  String.eqb (name a) (name b) && String.eqb (url a) (url b)
  && SignCheck_eqb (sign_check a) (sign_check b)
  && SignOption_eqb (sign_option a) (sign_option b).
End CustomRepository.

(** ** CustomServer *)
Module CustomServer.
Record t : Type := mk { url : string }.

Definition json (c : t) : value := VDict [("url", VStr (url c))].

Definition parse_one (arg : value) : result t :=
  let* u := subscript arg "url" in
  let* url := as_str u in
  Ok (mk url).

Definition parse_args (args : value) : result (list t) :=
  let* items := py_iter args in
  mapM parse_one items.

(** [==] as the dataclass generates it. *)
Definition eqb (a b : t) : bool := String.eqb (url a) (url b).
End CustomServer.

(** ** MirrorConfiguration *)
Module MirrorConfiguration.
Section WithRepository.
Context {R : RepositoryEnum}.

Record t : Type := mk {
  mirror_regions : list MirrorRegion.t;
  custom_servers : list CustomServer.t;
  optional_repositories : list Repository;
  custom_repositories : list CustomRepository.t;
  reflector : ReflectorConfiguration.t
}.

Definition default : t := mk [] [] [] [] ReflectorConfiguration.default.

(** [json]: the regions are gathered into one dict by [update]; the custom
    servers are passed on as the objects they are. *)
Definition json (c : t) : dict value :=
  let regions :=
    fold_left (fun regions m => dict_update regions (MirrorRegion.json m))
              (mirror_regions c) [] in
  [("mirror_regions", VDict regions);
   ("custom_servers",
     VList (map (fun s => VCustomServer (CustomServer.url s)) (custom_servers c)));
   ("optional_repositories",
     VList (map (fun r => VStr (Repository_value r)) (optional_repositories c)));
   ("custom_repositories",
     VList (map CustomRepository.json (custom_repositories c)));
   ("reflector", ReflectorConfiguration.json (reflector c))].

(** [r not in repositories]. *)
Definition not_in (r : Repository) (l : list Repository) : bool :=
  negb (existsb (Repository_eqb r) l).

(** The loop over [backwards_compatible_repo]. *)
Definition merge_backwards_compatible
    (optional : list Repository) (backwards_compatible_repo : list Repository)
  : list Repository :=
  fold_left (fun acc r => if not_in r acc then acc ++ [r] else acc)
            backwards_compatible_repo optional.

(** One turn of the loop over [mirror_regions.items()]. *)
Definition parse_region (kv : string * value) : result MirrorRegion.t :=
  let* urls := as_str_list (snd kv) in
  Ok (MirrorRegion.mk (fst kv) urls).

(** [parse_args]: the fields of the new configuration are settled one
    after the other, in the order of the source. *)
Definition parse_args (args : dict value)
    (backwards_compatible_repo : list Repository) : result t :=
  let mirror_regions := get args "mirror_regions" (VList []) in
  let* regions :=
    if truthy mirror_regions then
      let* items := py_items mirror_regions in
      let* rs := mapM parse_region items in
      Ok ([] ++ rs)
    else Ok [] in
  let* servers :=
    if truthy (get args "custom_servers" VNone) then
      let* v := dict_item args "custom_servers" in
      CustomServer.parse_args v
    else Ok [] in
  let* repositories :=
    if dict_mem args "custom_mirrors" then
      let* v := dict_item args "custom_mirrors" in
      CustomRepository.parse_args v
    else Ok [] in
  let* repositories :=
    if dict_mem args "custom_repositories" then
      let* v := dict_item args "custom_repositories" in
      CustomRepository.parse_args v
    else Ok repositories in
  let* optional :=
    if dict_mem args "optional_repositories" then
      let* v := dict_item args "optional_repositories" in
      let* items := py_iter v in
      mapM Repository_of items
    else Ok [] in
  let optional :=
    match backwards_compatible_repo with
    | [] => optional
    | _ :: _ => merge_backwards_compatible optional backwards_compatible_repo
    end in
  let* reflector :=
    if dict_mem args "reflector" then
      let* v := dict_item args "reflector" in
      ReflectorConfiguration.parse_args v
    else Ok ReflectorConfiguration.default in
  Ok (mk regions servers optional repositories reflector).

(** [custom_servers_config]: the text grows by [+=] and is stripped at the
    end. *)
Definition custom_servers_config (c : t) : string :=
  let config := EmptyString in
  let config :=
    match custom_servers c with
    | [] => config
    | _ :: _ =>
        let config := String.append config (String.append "## Custom Servers" LF) in
        fold_left
          (fun config server =>
             String.append config
               (String.append "Server = " (String.append (CustomServer.url server) LF)))
          (custom_servers c) config
    end in
  strip config.
End WithRepository.
End MirrorConfiguration.

(** ** Library functions taken as parameters

    [urllib.parse.urlparse], [urllib.request.Request] and [int] belong to
    Python, not to the modelled files.  [urlparse] is kept by the two
    components read here, the scheme and the network location.  [Request]
    is kept by whether the request object can be built: the constructor
    raises [ValueError] on a url in which it finds no type.  [urlparse] and
    [int] can raise [ValueError] too. *)
Class UrlLibrary : Type := {
  urlparse : string -> result (string * string);
  Request : string -> result unit;
  py_int : string -> result Z
}.

(** ** MirrorStatusEntryV3 *)
Module MirrorStatusEntryV3.
Record t : Type := mk {
  url : string;
  protocol : string;
  active : bool;
  country : string;
  country_code : string;
  isos : bool;
  ipv4 : bool;
  ipv6 : bool;
  details : string;
  delay : option Z;
  last_sync : option string;
  duration_avg : option Q;
  duration_stddev : option Q;
  completion_pct : option Q;
  score : option Q;
  _latency : option Q;
  _speed : option Q;
  _hostname : option string;
  _port : option Z;
  _speedtest_retries : option Z
}.

(** Assignments to single attributes. *)
Definition with_country (e : t) (c : string) : t :=
  mk (url e) (protocol e) (active e) c (country_code e) (isos e) (ipv4 e)
     (ipv6 e) (details e) (delay e) (last_sync e) (duration_avg e)
     (duration_stddev e) (completion_pct e) (score e) (_latency e) (_speed e)
     (_hostname e) (_port e) (_speedtest_retries e).

Definition with_speed (e : t) (s : option Q) : t :=
  mk (url e) (protocol e) (active e) (country e) (country_code e) (isos e)
     (ipv4 e) (ipv6 e) (details e) (delay e) (last_sync e) (duration_avg e)
     (duration_stddev e) (completion_pct e) (score e) (_latency e) s
     (_hostname e) (_port e) (_speedtest_retries e).

Definition with_speedtest_retries (e : t) (r : option Z) : t :=
  mk (url e) (protocol e) (active e) (country e) (country_code e) (isos e)
     (ipv4 e) (ipv6 e) (details e) (delay e) (last_sync e) (duration_avg e)
     (duration_stddev e) (completion_pct e) (score e) (_latency e) (_speed e)
     (_hostname e) (_port e) r.

Definition with_hostname (e : t) (h : option string) : t :=
  mk (url e) (protocol e) (active e) (country e) (country_code e) (isos e)
     (ipv4 e) (ipv6 e) (details e) (delay e) (last_sync e) (duration_avg e)
     (duration_stddev e) (completion_pct e) (score e) (_latency e) (_speed e)
     h (_port e) (_speedtest_retries e).

Definition with_port (e : t) (p : option Z) : t :=
  mk (url e) (protocol e) (active e) (country e) (country_code e) (isos e)
     (ipv4 e) (ipv6 e) (details e) (delay e) (last_sync e) (duration_avg e)
     (duration_stddev e) (completion_pct e) (score e) (_latency e) (_speed e)
     (_hostname e) p (_speedtest_retries e).

Definition server_url (e : t) : string :=
  String.append (url e) "$repo/os/$arch".

(** *** The speed probe *)

(** What one pass through the [try] block meets: the body runs to its end
    with [size] bytes read and the timer's [time], or one of the exceptions
    the handlers tell apart, in the order of the handlers. *)
Inductive download : Type :=
| Completed (size : Z) (time : option Q)
| URLError
| IncompleteRead
| ConnectionResetError
| OtherError.

(** One turn of the loop body on the outcome [d].  A missing timer value
    fails the assertion and a zero time the division; both happen inside
    the [try] and reach the catch-all handler. *)
Definition attempt (d : download) (e : t) : t :=
  match d with
  | Completed size time =>
      match time with
      | None => with_speed e (Some 0%Q)
      | Some tm =>
          if Qeq_bool tm 0 then with_speed e (Some 0%Q)
          else with_speed e (Some (inject_Z size / tm)%Q)
      end
  | URLError => with_speed e (Some 0%Q)
  | IncompleteRead => e
  | ConnectionResetError => e
  | OtherError => with_speed e (Some 0%Q)
  end.

(** The retry budget after the first two branches of the property. *)
Definition retry_budget (r : option Z) : Z :=
  match r with
  | None => 3
  | Some r => if r =? 0 then 3 else if r <? 1 then 1 else r
  end.

(** The url the probe fetches. *)
Definition probe_url (e : t) : string :=
  String.append (url e) "core/os/x86_64/core.db".

Section WithLibrary.
Context {U : UrlLibrary}.

(** The [while] loop, with [remaining] standing for
    [_speedtest_retries - retry].  The request is built before the [try]
    block, so what building it raises leaves the loop and the property.
    [net] answers the [n]-th download of the run; the counter of downloads
    is threaded through. *)
Fixpoint speed_loop (net : nat -> download) (remaining : nat) (e : t) (n : nat)
  : result unit * t * nat :=
  match remaining with
  | O => (Ok tt, e, n)
  | S k =>
      match _speed e with
      | Some _ => (Ok tt, e, n)
      | None =>
          match Request (probe_url e) with
          | Raise err => (Raise err, e, n)
          | Ok _ => speed_loop net k (attempt (net n) e) (S n)
          end
      end
  end.

(** The property [speed]: the value or the exception, the entry after the
    read and the download counter. *)
Definition speed (net : nat -> download) (e : t) (n : nat)
  : result Q * t * nat :=
  match _speed e with
  | Some v => (Ok v, e, n)
  | None =>
      let retries := retry_budget (_speedtest_retries e) in
      let e := with_speedtest_retries e (Some retries) in
      let '(r, e, n) := speed_loop net (Z.to_nat retries) e n in
      match r with
      | Raise err => (Raise err, e, n)
      | Ok _ =>
          match _speed e with
          | Some v => (Ok v, e, n)
          | None => (Ok 0%Q, with_speed e (Some 0%Q), n)
          end
      end
  end.

(** *** The latency probe and the score validator *)

Definition with_latency (e : t) (l : option Q) : t :=
  mk (url e) (protocol e) (active e) (country e) (country_code e) (isos e)
     (ipv4 e) (ipv6 e) (details e) (delay e) (last_sync e) (duration_avg e)
     (duration_stddev e) (completion_pct e) (score e) l (_speed e)
     (_hostname e) (_port e) (_speedtest_retries e).

(** The property [latency].  [ping] belongs to [networking.py], which is
    not among the modelled files: it is taken as a parameter that answers
    the [n]-th ping of the run, for a host name, with what the call
    returns or raises. *)
Definition latency (ping : nat -> string -> result (option Q)) (e : t) (n : nat)
  : result (option Q) * t * nat :=
  match _latency e with
  | Some v => (Ok (Some v), e, n)
  | None =>
      match _hostname e with
      | None => (Raise AssertionError, e, n)
      | Some hostname =>
          match ping n hostname with
          | Raise err => (Raise err, e, S n)
          | Ok v => (Ok v, with_latency e v, S n)
          end
      end
  end.

(** [round(x)] on a number: the nearest integer, the even one of the two
    when [x] lies halfway. *)
Definition py_round (x : Q) : Z :=
  let f := Qfloor x in
  let d := (x - inject_Z f)%Q in
  match (d ?= 1 # 2)%Q with
  | Lt => f
  | Gt => f + 1
  | Eq => if Z.even f then f else f + 1
  end.

(** [validate_score]. *)
Definition validate_score (value : option Q) : option Z :=
  match value with
  | Some value => Some (py_round value)
  | None => None
  end.

(** *** Construction *)

(** The model validator [debug_output], run after the fields are set. *)
Definition debug_output (e : t) : result t :=
  let* parsed := urlparse (url e) in
  let '(hostname, port) := split_once (snd parsed) ":" in
  let e := with_hostname e (Some hostname) in
  let* p :=
    match port with
    | Some p => let* z := py_int p in Ok (Some z)
    | None => Ok None
    end in
  Ok (with_port e p).

(** The constructor called with the nine required fields, as the local
    parser calls it: the optional fields keep their defaults. *)
Definition new (url protocol : string) (active : bool)
    (country country_code : string) (isos ipv4 ipv6 : bool)
    (details : string) : result t :=
  debug_output
    (mk url protocol active country country_code isos ipv4 ipv6 details
        None None None None None None None None None None None).
End WithLibrary.
End MirrorStatusEntryV3.

(** ** MirrorStatusListV3 *)
Module MirrorStatusListV3.
Record t : Type := mk {
  cutoff : Z;
  last_check : string;
  num_checks : Z;
  urls : list MirrorStatusEntryV3.t;
  version : Z
}.

(** The validation library, taken as a parameter: decoding the JSON text
    and validating the declared fields of the list and of its entries
    (entry validators apart from [debug_output] included). *)
Class Validation : Type := {
  json_loads : string -> result value;
  validate_fields : value -> result t
}.

(** The model validator run before the fields are looked at. *)
Definition check_model (data : value) : result value :=
  match data with
  | VDict d =>
      if eq_int (get d "version" VNone) 3 then Ok data
      else Raise ValueError
  | _ => Raise AttributeError
  end.

Section WithLibrary.
Context {U : UrlLibrary} {V : Validation}.

Definition model_validate (data : value) : result t :=
  let* data := check_model data in
  let* m := validate_fields data in
  let* entries := mapM MirrorStatusEntryV3.debug_output (urls m) in
  Ok (mk (cutoff m) (last_check m) (num_checks m) entries (version m)).

Definition model_validate_json (text : string) : result t :=
  let* data := json_loads text in
  model_validate data.
End WithLibrary.
End MirrorStatusListV3.

(** ** MirrorListHandler *)
Module MirrorListHandler.
Import MirrorStatusEntryV3.

Definition entry : Type := MirrorStatusEntryV3.t.
Definition mappings : Type := dict (list entry).

(** What the handler does to the outside, in order. *)
Inductive event : Type :=
| Fetched (url : string)
| Debugged (message : string)
| Slept (seconds : Z)
| OpenedLocal.

(** The outside: what the [n]-th call of [fetch_data_from_url] answers,
    what opening and reading the local mirror list answers, the offline
    flag of the installer's arguments, and what the [n]-th download of a
    speed probe meets. *)
Record world : Type := mkWorld {
  fetch_data_from_url : nat -> result string;
  local_mirrorlist : result string;
  offline : bool;
  network : nat -> download
}.

(** The handler's attribute [_status_mappings], with the history of its
    dealings with the outside. *)
Record t : Type := mk {
  _status_mappings : option mappings;
  fetches : nat;
  downloads : nat;
  trace : list event
}.

(** [__init__]. *)
Definition init : t := mk None 0 0 [].

Definition log (ev : event) (h : t) : t :=
  mk (_status_mappings h) (fetches h) (downloads h) (trace h ++ [ev]).

Definition set_mappings (m : mappings) (h : t) : t :=
  mk (Some m) (fetches h) (downloads h) (trace h).

(** [d[k].append(x)]. *)
Fixpoint dict_append (d : mappings) (k : string) (x : entry) : mappings :=
  match d with
  | [] => []
  | (k', v) :: rest =>
      if String.eqb k' k then (k', v ++ [x]) :: rest
      else (k', v) :: dict_append rest k x
  end.

(** *** The remote feed *)

(** The three criteria handed to [any]. *)
Definition bad_criteria (mirror : entry) : bool :=
  existsb (fun b => b)
    [negb (active mirror);
     match last_sync mirror with None => true | Some _ => false end;
     match score mirror with None => true | Some s => Qle_bool 100 s end].

(** One turn of the loop over [mirror_status.urls]. *)
Definition remote_step (sorting_placeholder : mappings) (mirror : entry) : mappings :=
  if bad_criteria mirror then sorting_placeholder
  else
    let mirror :=
      if String.eqb (country mirror) "" then with_country mirror "Worldwide"
      else mirror in
    if startswith (url mirror) "http" then
      dict_append (dict_setdefault sorting_placeholder (country mirror) [])
                  (country mirror) mirror
    else sorting_placeholder.

Definition str_lt (a b : string) : result bool := Ok (String.ltb a b).

(** The regions ordered by name and gathered into a fresh dict. *)
Definition sort_regions (sorting_placeholder : mappings) : result mappings :=
  let* items := sort_by str_lt (map (fun kv => (fst kv, kv)) sorting_placeholder) in
  Ok (fold_left (fun d kv => dict_set d (fst kv) (snd kv)) (map snd items) []).

(** What [_parse_remote_mirror_list] does with the validated document. *)
Definition remote_regions (mirror_status : MirrorStatusListV3.t) : result mappings :=
  let sorting_placeholder :=
    fold_left remote_step (MirrorStatusListV3.urls mirror_status) [] in
  sort_regions sorting_placeholder.

Section WithLibrary.
Context {U : UrlLibrary} {V : MirrorStatusListV3.Validation}.

Definition _parse_remote_mirror_list (mirrorlist : string) : result mappings :=
  let* mirror_status := MirrorStatusListV3.model_validate_json mirrorlist in
  remote_regions mirror_status.

(** *** The local mirror list *)

(** One turn of the loop over the lines, on the pair of [mirror_list] and
    [current_region]. *)
Definition locale_step (st : mappings * string) (line : string)
  : result (mappings * string) :=
  let '(mirror_list, current_region) := st in
  let line := strip line in
  let '(mirror_list, current_region) :=
    if startswith line "## " then
      let current_region := strip (replace line "## " "") in
      (dict_setdefault mirror_list current_region [], current_region)
    else (mirror_list, current_region) in
  if startswith line "Server = " then
    let '(mirror_list, current_region) :=
      if String.eqb current_region "" then
        (dict_setdefault mirror_list "Local" [], "Local")
      else (mirror_list, current_region) in
    let url := removeprefix line "Server = " in
    let* parsed := urlparse url in
    let* mirror_entry :=
      MirrorStatusEntryV3.new
        (removesuffix url "$repo/os/$arch") (fst parsed) true
        (if String.eqb current_region "" then "Worldwide" else current_region)
        "WW" true true true "Locally defined mirror" in
    let* _ := dict_item mirror_list current_region in
    Ok (dict_append mirror_list current_region mirror_entry, current_region)
  else Ok (mirror_list, current_region).

Fixpoint locale_loop (st : mappings * string) (lines : list string)
  : result (mappings * string) :=
  match lines with
  | [] => Ok st
  | line :: rest =>
      let* st := locale_step st line in
      locale_loop st rest
  end.

Definition _parse_locale_mirrors (mirrorlist : string) : result mappings :=
  let lines := splitlines mirrorlist in
  let* st := locale_loop ([], "") lines in
  Ok (fst st).

(** *** Loading *)

Definition load_local_mirrors (w : world) (h : t) : result unit * t :=
  let h := log OpenedLocal h in
  match (let* mirrorlist := local_mirrorlist w in
         _parse_locale_mirrors mirrorlist) with
  | Ok m => (Ok tt, set_mappings m h)
  | Raise e => (Raise e, h)
  end.

Definition status_url : string := "https://archlinux.org/mirrors/status/json/".

(** The loop of [load_remote_mirrors] over the attempt numbers left, with
    what follows the loop. *)
Fixpoint remote_attempts (w : world) (attempt_nrs : list Z) (h : t)
  : result bool * t :=
  match attempt_nrs with
  | [] =>
      (Ok false,
       log (Debugged "Unable to fetch mirror list remotely, falling back to local mirror list") h)
  | attempt_nr :: rest =>
      let answer := fetch_data_from_url w (fetches h) in
      let h := log (Fetched status_url)
                 (mk (_status_mappings h) (S (fetches h)) (downloads h) (trace h)) in
      match (let* mirrorlist := answer in
             _parse_remote_mirror_list mirrorlist) with
      | Ok m => (Ok true, set_mappings m h)
      | Raise _ =>
          let h := log (Debugged "Error while fetching mirror list") h in
          let h := log (Slept (attempt_nr + 1)) h in
          remote_attempts w rest h
      end
  end.

Definition attempts : Z := 3.

(** [range(n)]. *)
Definition range (n : Z) : list Z := map Z.of_nat (seq 0 (Z.to_nat n)).

Definition load_remote_mirrors (w : world) (h : t) : result bool * t :=
  remote_attempts w (range attempts) h.

Definition load_mirrors (w : world) (h : t) : result unit * t :=
  if offline w then load_local_mirrors w h
  else
    match load_remote_mirrors w h with
    | (Ok true, h) => (Ok tt, h)
    | (Ok false, h) => load_local_mirrors w h
    | (Raise e, h) => (Raise e, h)
    end.

Definition _mappings (w : world) (h : t) : result mappings * t :=
  let '(r, h) :=
    match _status_mappings h with
    | None => load_mirrors w h
    | Some _ => (Ok tt, h)
    end in
  match r with
  | Raise e => (Raise e, h)
  | Ok _ =>
      match _status_mappings h with
      | Some m => (Ok m, h)
      | None => (Raise AssertionError, h)
      end
  end.

(** *** The sorted view of a region *)

(** [a < b] on the key tuples [(score, speed)]: the first components are
    compared by [==], and [<] is asked of the first pair that differs;
    [None] is equal to [None] and cannot be ordered against a number. *)
Definition key_lt (a b : option Q * Q) : result bool :=
  match fst a, fst b with
  | None, None => Ok (negb (Qle_bool (snd b) (snd a)))
  | Some x, Some y =>
      if Qeq_bool x y then Ok (negb (Qle_bool (snd b) (snd a)))
      else Ok (negb (Qle_bool y x))
  | _, _ => Raise TypeError
  end.

(** The key function applied to every element in turn: reading
    [mirror.speed] probes the mirror and leaves the value on it.  The
    answer is the decorated list, or the exception a read raised, with the
    mirrors of the list as the reads left them. *)
Fixpoint keys (net : nat -> download) (l : list entry) (n : nat)
  : result (list ((option Q * Q) * entry)) * list entry * nat :=
  match l with
  | [] => (Ok [], [], n)
  | mirror :: rest =>
      let '(r, mirror, n) := speed net mirror n in
      match r with
      | Raise e => (Raise e, mirror :: rest, n)
      | Ok v =>
          let '(rs, rest, n) := keys net rest n in
          (let* ks := rs in Ok (((score mirror, v), mirror) :: ks),
           mirror :: rest, n)
      end
  end.

(** [get_status_by_region]: the probed mirrors are the objects of the
    mapping, so the mapping holds them as probed afterwards. *)
Definition get_status_by_region (w : world) (region : string)
    (speed_sort : bool) (h : t) : result (list entry) * t :=
  let '(r, h) := _mappings w h in
  match r with
  | Raise e => (Raise e, h)
  | Ok mappings =>
      match dict_item mappings region with
      | Raise e => (Raise e, h)
      | Ok region_list =>
          let '(r, region_list, n) :=
            keys (network w) region_list (downloads h) in
          let h := mk (Some (dict_set mappings region region_list))
                      (fetches h) n (trace h) in
          match r with
          | Raise e => (Raise e, h)
          | Ok decorated =>
              match sort_by key_lt decorated with
              | Ok s => (Ok (map snd s), h)
              | Raise e => (Raise e, h)
              end
          end
      end
  end.

(** *** The regions on offer *)

(** [get_mirror_regions]: one region per item of the mapping, with the
    server urls of its mirrors. *)
Definition get_mirror_regions (w : world) (h : t)
  : result (list MirrorRegion.t) * t :=
  let '(r, h) := _mappings w h in
  match r with
  | Raise e => (Raise e, h)
  | Ok mappings =>
      (Ok (map (fun item =>
                  MirrorRegion.mk (fst item) (map server_url (snd item)))
               mappings),
       h)
  end.
End WithLibrary.
End MirrorListHandler.

(** ** Running reflector

    [SysCommand] belongs to [general.py], which is not among the modelled
    files.  It is taken as a parameter: given the commands run so far and
    the arguments of the next one, it answers the exit code the command
    object holds, or the exception its construction raises.  The functions
    below thread the list of the commands run. *)
Module Reflector.
Definition commands : Type := list (list string).
Definition SysCommand : Type := commands -> list string -> result (option Z).

(** [_ensure_reflector_installed]. *)
Definition _ensure_reflector_installed (sys : SysCommand) (ran : commands)
  : bool * commands :=
  let which := ["which"; "reflector"] in
  match sys ran which with
  | Ok _ => (true, ran ++ [which])
  | Raise _ =>
      let ran := ran ++ [which] in
      let install := ["pacman"; "-Sy"; "--noconfirm"; "reflector"] in
      match sys ran install with
      | Ok _ => (true, ran ++ [install])
      | Raise _ => (false, ran ++ [install])
      end
  end.

(** [run_reflector].  [local_mirrorlist] is the handler's attribute
    [_local_mirrorlist] and [target_path] the argument, both as the text
    [str] gives for the path. *)
Definition run_reflector (sys : SysCommand) (local_mirrorlist : string)
    (reflector_config : ReflectorConfiguration.t) (target_path : option string)
    (ran : commands) : bool * commands :=
  if negb (ReflectorConfiguration.enabled reflector_config) then (false, ran)
  else
    let target_path :=
      match target_path with
      | None => local_mirrorlist
      | Some p => p
      end in
    let '(installed, ran) := _ensure_reflector_installed sys ran in
    if negb installed then (false, ran)
    else
      let cmd_args := ReflectorConfiguration.to_command_args reflector_config in
      let cmd_args := cmd_args ++ ["--save"; target_path] in
      match sys ran cmd_args with
      | Ok exit_code =>
          (match exit_code with
           | Some code => code =? 0
           | None => false
           end,
           ran ++ [cmd_args])
      | Raise _ => (false, ran ++ [cmd_args])
      end.
End Reflector.

(** ** The methods of [MirrorConfiguration] that go through the handler

    [regions_config] and [apply_reflector_config] import the global
    [mirror_list_handler] when they are called; here the handler is passed
    in and its state is passed out. *)
Module MirrorConfigurationOutput.
Import MirrorListHandler.
Section WithLibrary.
Context {R : RepositoryEnum} {U : UrlLibrary} {V : MirrorStatusListV3.Validation}.

(** The inner loop of [regions_config]: one line per mirror. *)
Definition server_lines (sorted_stati : list entry) (config : string) : string :=
  fold_left
    (fun config status =>
       String.append config
         (String.append "Server = "
            (String.append (MirrorStatusEntryV3.server_url status) LF)))
    sorted_stati config.

(** The outer loop of [regions_config]. *)
Fixpoint regions_loop (w : world) (speed_sort : bool)
    (regions : list MirrorRegion.t) (config : string) (h : t)
  : result string * t :=
  match regions with
  | [] => (Ok config, h)
  | mirror_region :: rest =>
      let '(r, h) :=
        get_status_by_region w (MirrorRegion.name mirror_region) speed_sort h in
      match r with
      | Raise e => (Raise e, h)
      | Ok sorted_stati =>
          let config :=
            String.append config
              (String.append LF (String.append LF
                (String.append "## "
                   (String.append (MirrorRegion.name mirror_region) LF)))) in
          let config := server_lines sorted_stati config in
          regions_loop w speed_sort rest config h
      end
  end.

Definition regions_config (w : world) (c : MirrorConfiguration.t)
    (speed_sort : bool) (h : t) : result string * t :=
  regions_loop w speed_sort (MirrorConfiguration.mirror_regions c) EmptyString h.

(** [apply_reflector_config]. *)
Definition apply_reflector_config (sys : Reflector.SysCommand)
    (local_mirrorlist : string) (c : MirrorConfiguration.t)
    (target_path : option string) (ran : Reflector.commands)
  : bool * Reflector.commands :=
  if ReflectorConfiguration.enabled (MirrorConfiguration.reflector c) then
    Reflector.run_reflector sys local_mirrorlist
      (MirrorConfiguration.reflector c) target_path ran
  else (false, ran).
End WithLibrary.
End MirrorConfigurationOutput.

(** ** The menus of [lib/mirrors.py]

    The terminal interface ([archinstall.tui]) and the translations ([tr])
    are not among the modelled files.  Of the enum [ResultType] the code
    names three members, which are taken as parameters with the equality
    every enum has.  What a menu or an edit field answers is a result
    object, kept by its [type_] and by the item that [text()],
    [get_value()] or [get_values()] reads from it; which answer is given
    is the user's choice, so the answers are arguments of the functions
    below. *)
Class TuiLibrary : Type := {
  ResultType : Type;
  Skip : ResultType;
  Selection : ResultType;
  Reset : ResultType;
  ResultType_eqb : ResultType -> ResultType -> bool;
  ResultType_eqb_eq : forall a b, ResultType_eqb a b = true <-> a = b;
  Skip_Selection : Skip <> Selection;
  Skip_Reset : Skip <> Reset;
  Selection_Reset : Selection <> Reset
}.

Module Tui.
Section WithLibrary.
Context {T : TuiLibrary}.

Record menu_result (A : Type) : Type := answer {
  type_ : ResultType;
  item : A
}.

(** The three translated action texts of a list manager, in the order of
    [_actions]. *)
Record actions : Type := mk_actions {
  add_action : string;
  change_action : string;
  delete_action : string
}.
End WithLibrary.
Arguments answer {T A} type_ item.
Arguments type_ {T A} m.
Arguments item {T A} m.
End Tui.

(** *** CustomMirrorRepositoriesList *)
Module CustomMirrorRepositoriesList.
Import Tui.
Section WithLibrary.
Context {T : TuiLibrary}.

(** What the four prompts of [_add_custom_repository] answer. *)
Record dialog : Type := mk_dialog {
  name_result : menu_result string;
  url_result : menu_result string;
  sign_check_result : menu_result string;
  sign_option_result : menu_result string
}.

Definition _add_custom_repository (ui : dialog)
    (preset : option CustomRepository.t) : result (option CustomRepository.t) :=
  let edit_result := name_result ui in
  if ResultType_eqb (type_ edit_result) Selection then
    let name := item edit_result in
    let edit_result := url_result ui in
    if ResultType_eqb (type_ edit_result) Selection then
      let url := item edit_result in
      let result := sign_check_result ui in
      if ResultType_eqb (type_ result) Selection then
        let* sign_check := SignCheck_of (VStr (item result)) in
        let result := sign_option_result ui in
        if ResultType_eqb (type_ result) Selection then
          let* sign_opt := SignOption_of (VStr (item result)) in
          Ok (Some (CustomRepository.mk name url sign_check sign_opt))
        else Raise ValueError
      else Raise ValueError
    else if ResultType_eqb (type_ edit_result) Skip then Ok preset
    else Raise ValueError
  else if ResultType_eqb (type_ edit_result) Skip then Ok preset
  else Raise ValueError.

(** [handle_action].  The second and the third branch are taken only with
    an entry ([... and entry]). *)
Definition handle_action (_actions : actions) (ui : dialog) (action : string)
    (entry : option CustomRepository.t) (data : list CustomRepository.t)
  : result (list CustomRepository.t) :=
  if String.eqb action (add_action _actions) then
    let* new_repo := _add_custom_repository ui None in
    match new_repo with
    | Some new_repo =>
        let data :=
          filter (fun d => negb (String.eqb (CustomRepository.name d)
                                            (CustomRepository.name new_repo)))
                 data in
        Ok (data ++ [new_repo])
    | None => Ok data
    end
  else
    match entry with
    | Some entry =>
        if String.eqb action (change_action _actions) then
          let* new_repo := _add_custom_repository ui (Some entry) in
          match new_repo with
          | Some new_repo =>
              let data :=
                filter (fun d => negb (String.eqb (CustomRepository.name d)
                                                  (CustomRepository.name entry)))
                       data in
              Ok (data ++ [new_repo])
          | None => Ok data
          end
        else if String.eqb action (delete_action _actions) then
          Ok (filter (fun d => negb (CustomRepository.eqb d entry)) data)
        else Ok data
    | None => Ok data
    end.
End WithLibrary.
End CustomMirrorRepositoriesList.

(** *** CustomMirrorServersList *)
Module CustomMirrorServersList.
Import Tui.
Section WithLibrary.
Context {T : TuiLibrary}.

Definition _add_custom_server (ui : menu_result string)
    (preset : option CustomServer.t) : option CustomServer.t :=
  if ResultType_eqb (type_ ui) Selection then
    let uri := item ui in
    Some (CustomServer.mk uri)
  else if ResultType_eqb (type_ ui) Skip then preset
  else None.

(** [handle_action], with the same reading of [... and entry]. *)
Definition handle_action (_actions : actions) (ui : menu_result string)
    (action : string) (entry : option CustomServer.t)
    (data : list CustomServer.t) : list CustomServer.t :=
  if String.eqb action (add_action _actions) then
    match _add_custom_server ui None with
    | Some new_server =>
        let data :=
          filter (fun d => negb (String.eqb (CustomServer.url d)
                                            (CustomServer.url new_server)))
                 data in
        data ++ [new_server]
    | None => data
    end
  else
    match entry with
    | Some entry =>
        if String.eqb action (change_action _actions) then
          match _add_custom_server ui (Some entry) with
          | Some new_server =>
              let data :=
                filter (fun d => negb (String.eqb (CustomServer.url d)
                                                  (CustomServer.url entry)))
                       data in
              data ++ [new_server]
          | None => data
          end
        else if String.eqb action (delete_action _actions) then
          filter (fun d => negb (CustomServer.eqb d entry)) data
        else data
    | None => data
    end.
End WithLibrary.
End CustomMirrorServersList.

(** *** The module-level menu functions *)
Module Menus.
Import Tui.
Section WithLibrary.
Context {T : TuiLibrary} {U : UrlLibrary} {V : MirrorStatusListV3.Validation}.

(** [region in preset]: membership goes by [__eq__]. *)
Definition region_in (region : MirrorRegion.t) (preset : list MirrorRegion.t)
  : bool :=
  existsb (fun p => MirrorRegion.eq p region) preset.

(** [select_mirror_regions].  [menu] is what the user answers to the
    regions on offer with the preselected ones.  A result of a type the
    [match] does not name leaves the function without a [return]; the
    [None] this gives is outside the declared result type. *)
Definition select_mirror_regions (w : MirrorListHandler.world)
    (menu : list MirrorRegion.t -> list MirrorRegion.t ->
            menu_result (list MirrorRegion.t))
    (preset : list MirrorRegion.t) (h : MirrorListHandler.t)
  : result (list MirrorRegion.t) * MirrorListHandler.t :=
  let '(r, h) := MirrorListHandler.load_mirrors w h in
  match r with
  | Raise e => (Raise e, h)
  | Ok _ =>
      let '(r, h) := MirrorListHandler.get_mirror_regions w h in
      match r with
      | Raise e => (Raise e, h)
      | Ok available_regions =>
          match available_regions with
          | [] => (Ok [], h)
          | _ :: _ =>
              let preset_regions :=
                filter (fun region => region_in region preset) available_regions in
              let result := menu available_regions preset_regions in
              if ResultType_eqb (type_ result) Skip then (Ok preset_regions, h)
              else if ResultType_eqb (type_ result) Reset then (Ok [], h)
              else if ResultType_eqb (type_ result) Selection then
                (Ok (item result), h)
              else (Raise OutOfModel, h)
          end
      end
  end.

(** Assignments to single attributes of the preset. *)
Definition with_enabled (c : ReflectorConfiguration.t) (v : bool) :=
  ReflectorConfiguration.mk v (ReflectorConfiguration.countries c)
    (ReflectorConfiguration.protocols c) (ReflectorConfiguration.age c)
    (ReflectorConfiguration.latest c) (ReflectorConfiguration.sort_order c)
    (ReflectorConfiguration.verbose c).

Definition with_countries (c : ReflectorConfiguration.t) (v : list string) :=
  ReflectorConfiguration.mk (ReflectorConfiguration.enabled c) v
    (ReflectorConfiguration.protocols c) (ReflectorConfiguration.age c)
    (ReflectorConfiguration.latest c) (ReflectorConfiguration.sort_order c)
    (ReflectorConfiguration.verbose c).

Definition with_protocols (c : ReflectorConfiguration.t)
    (v : list ReflectorProtocol) :=
  ReflectorConfiguration.mk (ReflectorConfiguration.enabled c)
    (ReflectorConfiguration.countries c) v (ReflectorConfiguration.age c)
    (ReflectorConfiguration.latest c) (ReflectorConfiguration.sort_order c)
    (ReflectorConfiguration.verbose c).

Definition with_age (c : ReflectorConfiguration.t) (v : Z) :=
  ReflectorConfiguration.mk (ReflectorConfiguration.enabled c)
    (ReflectorConfiguration.countries c) (ReflectorConfiguration.protocols c) v
    (ReflectorConfiguration.latest c) (ReflectorConfiguration.sort_order c)
    (ReflectorConfiguration.verbose c).

Definition with_latest (c : ReflectorConfiguration.t) (v : Z) :=
  ReflectorConfiguration.mk (ReflectorConfiguration.enabled c)
    (ReflectorConfiguration.countries c) (ReflectorConfiguration.protocols c)
    (ReflectorConfiguration.age c) v (ReflectorConfiguration.sort_order c)
    (ReflectorConfiguration.verbose c).

Definition with_sort_order (c : ReflectorConfiguration.t)
    (v : ReflectorSortOrder) :=
  ReflectorConfiguration.mk (ReflectorConfiguration.enabled c)
    (ReflectorConfiguration.countries c) (ReflectorConfiguration.protocols c)
    (ReflectorConfiguration.age c) (ReflectorConfiguration.latest c) v
    (ReflectorConfiguration.verbose c).

(** What the six prompts of [configure_reflector] answer. *)
Record reflector_dialog : Type := mk_reflector_dialog {
  enabled_result : menu_result bool;
  countries_result : menu_result (list string);
  protocols_result : menu_result (list ReflectorProtocol);
  age_result : menu_result string;
  latest_result : menu_result string;
  sort_result : menu_result ReflectorSortOrder
}.

(** [try: field = int(text)] with [except ValueError: pass]. *)
Definition int_or_keep (text : string) (old : Z) : result Z :=
  match py_int text with
  | Ok z => Ok z
  | Raise ValueError => Ok old
  | Raise e => Raise e
  end.

(** The part of [configure_reflector] after the mirrors are loaded. *)
Definition reflector_prompts (ui : reflector_dialog)
    (available_regions : list MirrorRegion.t)
    (preset : ReflectorConfiguration.t) : result ReflectorConfiguration.t :=
  let available_countries :=
    filter (fun name => negb (String.eqb name "Worldwide"))
           (map MirrorRegion.name available_regions) in
  let preset :=
    match available_countries with
    | [] => preset
    | _ :: _ =>
        let result := countries_result ui in
        if ResultType_eqb (type_ result) Skip then preset
        else if ResultType_eqb (type_ result) Reset then with_countries preset []
        else if ResultType_eqb (type_ result) Selection then
          with_countries preset (item result)
        else preset
    end in
  let result := protocols_result ui in
  let preset :=
    if ResultType_eqb (type_ result) Skip then preset
    else if ResultType_eqb (type_ result) Selection then
      with_protocols preset (item result)
    else preset in
  let age_result := age_result ui in
  let* preset :=
    if ResultType_eqb (type_ age_result) Selection then
      let* age := int_or_keep (item age_result) (ReflectorConfiguration.age preset) in
      Ok (with_age preset age)
    else Ok preset in
  let latest_result := latest_result ui in
  let* preset :=
    if ResultType_eqb (type_ latest_result) Selection then
      let* latest :=
        int_or_keep (item latest_result) (ReflectorConfiguration.latest preset) in
      Ok (with_latest preset latest)
    else Ok preset in
  let result := sort_result ui in
  let preset :=
    if ResultType_eqb (type_ result) Skip then preset
    else if ResultType_eqb (type_ result) Selection then
      with_sort_order preset (item result)
    else preset in
  Ok preset.

Definition configure_reflector (w : MirrorListHandler.world)
    (ui : reflector_dialog) (preset : option ReflectorConfiguration.t)
    (h : MirrorListHandler.t)
  : result ReflectorConfiguration.t * MirrorListHandler.t :=
  let preset :=
    match preset with
    | None => ReflectorConfiguration.default
    | Some preset => preset
    end in
  let result := enabled_result ui in
  if ResultType_eqb (type_ result) Skip then (Ok preset, h)
  else
    let preset :=
      if ResultType_eqb (type_ result) Selection then
        with_enabled preset (item result)
      else preset in
    if negb (ReflectorConfiguration.enabled preset) then (Ok preset, h)
    else
      let '(r, h) := MirrorListHandler.load_mirrors w h in
      match r with
      | Raise e => (Raise e, h)
      | Ok _ =>
          let '(r, h) := MirrorListHandler.get_mirror_regions w h in
          match r with
          | Raise e => (Raise e, h)
          | Ok available_regions =>
              (reflector_prompts ui available_regions preset, h)
          end
      end.
End WithLibrary.
End Menus.

(** ** Stand-ins for the parameters

    Concrete libraries and inputs on which the model can be run: the
    examples and the instances of the theorems below use them; the theorems
    themselves hold for every library. *)
Module Sample.
(** An enum of four optional repositories. *)
Inductive repository : Type := Core | Extra | Multilib | Testing.

Definition repository_value (r : repository) : string :=
  match r with
  | Core => "core"
  | Extra => "extra"
  | Multilib => "multilib"
  | Testing => "testing"
  end.

Definition repository_eqb (a b : repository) : bool :=
  match a, b with
  | Core, Core | Extra, Extra | Multilib, Multilib | Testing, Testing => true
  | _, _ => false
  end.

Lemma repository_eqb_eq (a b : repository) : repository_eqb a b = true <-> a = b.
Proof. destruct a, b; simpl; split; congruence. Qed.

Lemma repository_of_value (r : repository) :
  by_value [Core; Extra; Multilib; Testing] repository_value
           (VStr (repository_value r)) = Ok r.
Proof. destruct r; reflexivity. Qed.

#[export] Instance repositories : RepositoryEnum := {
  Repository := repository;
  Repository_eqb := repository_eqb;
  Repository_eqb_eq := repository_eqb_eq;
  Repository_value := repository_value;
  Repository_of := by_value [Core; Extra; Multilib; Testing] repository_value;
  Repository_of_value := repository_of_value
}.

(** A plain reading of [urlsplit]: the scheme is what stands before the
    first colon when that is a letter followed by letters, digits, [+],
    [-] or [.], in lower case; the network location is what follows a
    leading [//] up to the next [/], [?] or [#]. *)
Definition between (lo hi : N) (c : ascii) : bool :=
  let n := N_of_ascii c in ((lo <=? n) && (n <=? hi))%N.

Definition is_alpha (c : ascii) : bool := between 65 90 c || between 97 122 c.

Definition is_scheme_char (c : ascii) : bool :=
  is_alpha c || between 48 57 c
  || Ascii.eqb c "+" || Ascii.eqb c "-" || Ascii.eqb c ".".

Definition lower (c : ascii) : ascii :=
  if between 65 90 c then ascii_of_N (N_of_ascii c + 32) else c.

Fixpoint string_forall (p : ascii -> bool) (s : string) : bool :=
  match s with
  | EmptyString => true
  | String c rest => p c && string_forall p rest
  end.

Fixpoint string_map (f : ascii -> ascii) (s : string) : string :=
  match s with
  | EmptyString => EmptyString
  | String c rest => String (f c) (string_map f rest)
  end.

Fixpoint take_netloc (s : string) : string :=
  match s with
  | EmptyString => EmptyString
  | String c rest =>
      if Ascii.eqb c "/" || Ascii.eqb c "?" || Ascii.eqb c "#" then EmptyString
      else String c (take_netloc rest)
  end.

Definition sample_urlparse (url : string) : result (string * string) :=
  let '(scheme, rest) :=
    match split_once url ":" with
    | (String c h, Some t) =>
        if is_alpha c && string_forall is_scheme_char h
        then (string_map lower (String c h), t)
        else (EmptyString, url)
    | _ => (EmptyString, url)
    end in
  let netloc :=
    if String.prefix "//" rest then take_netloc (drop 2 rest) else EmptyString in
  Ok (scheme, netloc).

(** [int] on a run of decimal digits. *)
Fixpoint digits (acc : Z) (s : string) : result Z :=
  match s with
  | EmptyString => Ok acc
  | String c rest =>
      if between 48 57 c
      then digits (10 * acc + Z.of_N (N_of_ascii c - 48)) rest
      else Raise ValueError
  end.

Definition sample_int (s : string) : result Z :=
  match s with
  | EmptyString => Raise ValueError
  | String _ _ => digits 0 s
  end.

(** A plain reading of the [Request] constructor: the url has a type when
    a colon stands in it after at least one character and before any
    slash. *)
Definition sample_request (url : string) : result unit :=
  match split_once url ":" with
  | (String c h, Some _) =>
      if string_forall (fun x => negb (Ascii.eqb x "/")) (String c h)
      then Ok tt else Raise ValueError
  | _ => Raise ValueError
  end.

#[export] Instance urllib : UrlLibrary := {
  urlparse := sample_urlparse;
  Request := sample_request;
  py_int := sample_int
}.

(** A mirror as the loader first holds it: nothing probed yet. *)
Definition mirror : MirrorStatusEntryV3.t :=
  MirrorStatusEntryV3.mk
    "https://mirror.example/" "https" true "Brazil" "BR" true true true ""
    (Some 0) (Some "2025-01-01T00:00:00Z") None None None (Some 1%Q)
    None None (Some "mirror.example") None None.

(** A validation library that decodes every text to [data] and reads the
    fields [status] out of it. *)
Definition validation (data : value) (status : MirrorStatusListV3.t)
  : MirrorStatusListV3.Validation :=
  {| MirrorStatusListV3.json_loads := fun _ => Ok data;
     MirrorStatusListV3.validate_fields := fun _ => Ok status |}.

(** Configurations: one that round-trips, one with a custom server, one
    with two regions of the same name. *)
Definition config : MirrorConfiguration.t :=
  MirrorConfiguration.mk
    [MirrorRegion.mk "Brazil" ["https://br.example/$repo/os/$arch"];
     MirrorRegion.mk "Chile" []]
    [] [Multilib]
    [CustomRepository.mk "extra" "https://x/" Required TrustAll]
    (ReflectorConfiguration.mk true ["Brazil"] [HTTPS; HTTP] 6 10 Score false).

Definition config_with_server : MirrorConfiguration.t :=
  MirrorConfiguration.mk
    [] [CustomServer.mk "https://mirror.example/"] [] []
    ReflectorConfiguration.default.

Definition config_twin_regions : MirrorConfiguration.t :=
  MirrorConfiguration.mk
    [MirrorRegion.mk "A" ["u1"]; MirrorRegion.mk "A" ["u2"]] [] [] []
    ReflectorConfiguration.default.

Definition config_one_region : MirrorConfiguration.t :=
  MirrorConfiguration.mk
    [MirrorRegion.mk "A" ["u2"]] [] [] [] ReflectorConfiguration.default.

(** Reflector configurations whose only country bears the name of a flag. *)
Definition country_verbose : ReflectorConfiguration.t :=
  ReflectorConfiguration.mk false ["--verbose"] [] 12 20 Rate false.

Definition country_protocol : ReflectorConfiguration.t :=
  ReflectorConfiguration.mk false ["--protocol"] [] 12 20 Rate false.
End Sample.

(** Persisted documents that carry the repositories under both spellings
    of the key: one whose legacy value is a list of repositories, and one
    whose legacy value holds an item without a name. *)
Module SampleDocument.
Definition old_repository : CustomRepository.t :=
  CustomRepository.mk "old" "https://old.example/" Never TrustedOnly.

Definition new_repository : CustomRepository.t :=
  CustomRepository.mk "new" "https://new.example/" Required TrustAll.

Definition both_keys : dict value :=
  [("custom_mirrors", VList [CustomRepository.json old_repository]);
   ("custom_repositories", VList [CustomRepository.json new_repository]);
   ("optional_repositories", VList [VStr "multilib"])].

Definition parsed : MirrorConfiguration.t (R := Sample.repositories) :=
  MirrorConfiguration.mk (R := Sample.repositories)
    [] [] [Sample.Multilib] [new_repository] ReflectorConfiguration.default.

Definition canonical_only : dict value :=
  [("custom_repositories", VList [CustomRepository.json new_repository])].

Definition nameless_legacy : dict value :=
  [("custom_mirrors", VList [VDict [("url", VStr "https://old.example/")]]);
   ("custom_repositories", VList [CustomRepository.json new_repository])].
End SampleDocument.

(** ** Notions used in the statements *)

(** What a run of the loader leaves in the trace. *)
Module Observe.
Import MirrorListHandler.

(** Whether the attempt that makes the [i]-th fetch succeeds: the fetch
    answers a text and the text parses. *)
Definition attempt_ok {U : UrlLibrary} {V : MirrorStatusListV3.Validation}
    (w : world) (i : nat) : bool :=
  match (let* mirrorlist := fetch_data_from_url w i in
         _parse_remote_mirror_list mirrorlist) with
  | Ok _ => true
  | Raise _ => false
  end.

(** What a failed attempt with number [attempt_nr] leaves in the trace. *)
Definition failure_events (attempt_nr : Z) : list event :=
  [Fetched status_url;
   Debugged "Error while fetching mirror list";
   Slept (attempt_nr + 1)].

Definition fallback_event : event :=
  Debugged "Unable to fetch mirror list remotely, falling back to local mirror list".

(** The seconds slept, in order. *)
Definition sleeps (tr : list event) : list Z :=
  flat_map (fun ev => match ev with Slept s => [s] | _ => [] end) tr.

(** How often the remote feed was asked for. *)
Definition fetched (tr : list event) : nat :=
  List.length
    (filter (fun ev => match ev with Fetched _ => true | _ => false end) tr).

(** How often the local mirror list was opened. *)
Definition opened_local (tr : list event) : nat :=
  List.length
    (filter (fun ev => match ev with OpenedLocal => true | _ => false end) tr).
End Observe.

(** A world without network or mirror list, and a handler loaded with one
    region. *)
Module SampleWorld.
Definition dead : MirrorListHandler.world :=
  MirrorListHandler.mkWorld
    (fun _ => Raise OSError) (Raise OSError) false
    (fun _ => MirrorStatusEntryV3.ConnectionResetError).

Definition loaded : MirrorListHandler.t :=
  MirrorListHandler.mk (Some [("Brazil", [Sample.mirror])]) 0 0 [].

Definition no_validation : MirrorStatusListV3.Validation :=
  Sample.validation VNone (MirrorStatusListV3.mk 0 "" 0 [] 0).
End SampleWorld.

(** The remote feed, entry by entry, in the words of the specification:
    the mirrors to keep, the mirror as it is stored, and the kept mirrors
    of one region in the order of the feed. *)
Module Feed.
Import MirrorStatusEntryV3 MirrorListHandler.

(** A mirror to keep: active, with a [last_sync], with a score below 100,
    and with a url that begins with [http].  The test is written out here
    on its own; that the loop applies it is a lemma about the loop. *)
Definition accepted (mirror : entry) : bool :=
  active mirror
  && match last_sync mirror with Some _ => true | None => false end
  && match score mirror with
     | Some s => match (s ?= 100)%Q with Lt => true | _ => false end
     | None => false
     end
  && startswith (url mirror) "http".

Definition placed (mirror : entry) : entry :=
  if String.eqb (country mirror) "" then with_country mirror "Worldwide"
  else mirror.

Definition region_entries (urls : list entry) (region : string) : list entry :=
  filter (fun e => String.eqb (country e) region) (map placed (filter accepted urls)).

End Feed.

(** The order of the sorted view. *)
Module Order.
Import MirrorStatusEntryV3 MirrorListHandler.

(** The key of a probed mirror: its score and the speed it holds. *)
Definition key_of (e : entry) : option Q * Q :=
  (score e, match _speed e with Some v => v | None => 0%Q end).

(** Ascending order on keys: by score first, by speed among equal scores. *)
Definition key_le (a b : option Q * Q) : Prop :=
  match fst a, fst b with
  | Some x, Some y => (x < y)%Q \/ (x == y /\ snd a <= snd b)%Q
  | None, None => (snd a <= snd b)%Q
  | _, _ => False
  end.

(** Keys that compare equal. *)
Definition key_eqb (a b : option Q * Q) : bool :=
  match fst a, fst b with
  | Some x, Some y => Qeq_bool x y && Qeq_bool (snd a) (snd b)
  | None, None => Qeq_bool (snd a) (snd b)
  | _, _ => false
  end.

(** The mirrors of a list whose key compares equal to [k], in order. *)
Definition with_key (k : option Q * Q) (l : list entry) : list entry :=
  filter (fun e => key_eqb (key_of e) k) l.

(** The same mirror, whatever has been probed of it. *)
Definition same_mirror (a b : entry) : Prop :=
  with_speedtest_retries (with_speed a None) None
  = with_speedtest_retries (with_speed b None) None.

(** Scores all present or all absent. *)
Definition uniform_scores (l : list entry) : Prop :=
  (forall e, In e l -> score e = None)
  \/ (forall e, In e l -> score e <> None).

(** Every mirror of the dict has no score. *)
Definition unscored (m : mappings) : Prop :=
  Forall (fun kv => Forall (fun e => score e = None) (snd kv)) m.

(** A decorated list whose keys are the keys of its mirrors. *)
Definition keyed (l : list ((option Q * Q) * entry)) : Prop :=
  Forall (fun x => fst x = key_of (snd x)) l.

Section WithLibrary.
Context {U : UrlLibrary} {V : MirrorStatusListV3.Validation}.

(** The mappings a handler can hold: what one of the two parsers answered,
    as the sorted view may since have left it. *)
Inductive loaded : mappings -> Prop :=
| loaded_remote (mirrorlist : string) (m : mappings) :
    _parse_remote_mirror_list mirrorlist = Ok m -> loaded m
| loaded_local (mirrorlist : string) (m : mappings) :
    _parse_locale_mirrors mirrorlist = Ok m -> loaded m
| loaded_viewed (w : world) (region : string) (speed_sort : bool)
    (h h' : t) (r : result (list entry)) (m m' : mappings) :
    loaded m ->
    _status_mappings h = Some m ->
    get_status_by_region w region speed_sort h = (r, h') ->
    _status_mappings h' = Some m' ->
    loaded m'.
End WithLibrary.
End Order.

(** The line grammar of the local mirror list, as the specification words
    it, read on the trimmed line: a line starting with the region marker
    opens or selects the region named by the trimmed remainder; a line
    starting with the server marker appends a mirror to the current
    region, or to the region [Local] when none has been opened, with the
    trailing placeholder suffix taken off the url and the scheme given by
    URL parsing; other lines are passed over. *)
Module Grammar.
Import MirrorListHandler.

Definition region_marker : string := "## ".
Definition server_marker : string := "Server = ".
Definition placeholder_suffix : string := "$repo/os/$arch".

(** [pat] occurs somewhere in [s]. *)
Fixpoint occurs (pat s : string) : bool :=
  match s with
  | EmptyString => String.prefix pat EmptyString
  | String _ rest => String.prefix pat s || occurs pat rest
  end.

(** A line that does not repeat the region marker after its beginning. *)
Definition single_marker (line : string) : Prop :=
  startswith (strip line) region_marker = true ->
  occurs region_marker (drop (String.length region_marker) (strip line)) = false.

Section WithLibrary.
Context {U : UrlLibrary}.

Definition read_line (st : mappings * option string) (line : string)
  : result (mappings * option string) :=
  let '(regions, current) := st in
  let line := strip line in
  if startswith line region_marker then
    let name := strip (drop (String.length region_marker) line) in
    Ok (dict_setdefault regions name [], Some name)
  else if startswith line server_marker then
    let region := match current with Some r => r | None => "Local" end in
    let url := drop (String.length server_marker) line in
    let* parsed := urlparse url in
    let* mirror :=
      MirrorStatusEntryV3.new
        (removesuffix url placeholder_suffix) (fst parsed) true region
        "WW" true true true "Locally defined mirror" in
    Ok (dict_append (dict_setdefault regions region []) region mirror,
        Some region)
  else Ok st.

Fixpoint read_lines (st : mappings * option string) (lines : list string)
  : result (mappings * option string) :=
  match lines with
  | [] => Ok st
  | line :: rest =>
      let* st := read_line st line in
      read_lines st rest
  end.

Definition parse (mirrorlist : string) : result mappings :=
  let* st := read_lines ([], None) (splitlines mirrorlist) in
  Ok (fst st).
End WithLibrary.

(** How the state of the loop stands to the state of the grammar: the same
    regions, and the current region empty exactly when none is open. *)
Definition agree (st : mappings * string) (gst : mappings * option string) : Prop :=
  fst st = fst gst
  /\ match snd gst with
     | None => snd st = EmptyString
     | Some r => snd st = r /\ r <> EmptyString /\ dict_mem (fst st) r = true
     end.

Definition agree_results (r : result (mappings * string))
    (g : result (mappings * option string)) : Prop :=
  match r, g with
  | Ok st, Ok gst => agree st gst
  | Raise e, Raise e' => e = e'
  | _, _ => False
  end.

(** Texts to run the parsers on. *)
Definition nl : string := String (ascii_of_nat 10) EmptyString.

Definition two_regions : string :=
  String.concat nl
    ["## RegionA"; "Server = https://a/test/$repo/os/$arch";
     "## RegionB"; "Server = https://b/test/$repo/os/$arch"; ""].

Definition marker_twice : string := String.append "## A ## B" nl.

Definition marker_alone : string :=
  String.concat nl ["## "; "Server = https://a/test/$repo/os/$arch"; ""].

(** A mirror as the local parser builds it. *)
Definition local_mirror (url region hostname : string) : entry :=
  MirrorStatusEntryV3.mk url "https" true region "WW" true true true
    "Locally defined mirror" None None None None None None None None
    (Some hostname) None None.
End Grammar.

(** Flags and their values in an argument list. *)
Module Args.
(** [flag] is directly followed by [value] in [args]. *)
Definition followed_by (flag value : string) (args : list string) : Prop :=
  exists pre post, args = pre ++ flag :: value :: post.
End Args.

(** The outcomes of a download as the retry loop sorts them. *)
Module Probe.
Import MirrorStatusEntryV3.

(** The errors after which the loop tries again. *)
Definition is_transient (d : download) : bool :=
  match d with
  | IncompleteRead | ConnectionResetError => true
  | _ => false
  end.

(** The errors after which it does not. *)
Definition is_permanent (d : download) : bool :=
  match d with
  | URLError | OtherError => true
  | _ => false
  end.

(** The retry budget as the code leaves it: unset on a new entry, and 3
    once the property has been read; nothing else writes the attribute. *)
Definition budget_untouched (e : t) : Prop :=
  _speedtest_retries e = None \/ _speedtest_retries e = Some 3.
End Probe.

(** A handler loaded from the local list of two regions, and the local
    list of one server whose url has no type, with the mirror the parser
    builds from it. *)
Module SampleLocal.
Definition bare_list : string :=
  String.append "Server = mirror.example/$repo/os/$arch" Grammar.nl.

Definition bare : MirrorListHandler.entry :=
  MirrorStatusEntryV3.mk "mirror.example/" "" true "Local" "WW" true true true
    "Locally defined mirror" None None None None None None None None
    (Some "") None None.

(** A machine that is offline and holds that list. *)
Definition bare_world (net : nat -> MirrorStatusEntryV3.download)
  : MirrorListHandler.world :=
  MirrorListHandler.mkWorld (fun _ => Raise OSError) (Ok bare_list) true net.

Definition regions : MirrorListHandler.mappings :=
  [("RegionA", [Grammar.local_mirror "https://a/test/" "RegionA" "a"]);
   ("RegionB", [Grammar.local_mirror "https://b/test/" "RegionB" "b"])].

Definition handler : MirrorListHandler.t :=
  MirrorListHandler.mk (Some regions) 0 0 [].
End SampleLocal.

(** A feed of one good mirror, a validation library that reads it out of
    every text, and a handler that has loaded it. *)
Module SampleFeed.
Definition status : MirrorStatusListV3.t :=
  MirrorStatusListV3.mk 86400 "2025-01-01T00:00:00Z" 100 [Sample.mirror] 3.

Definition validation : MirrorStatusListV3.Validation :=
  Sample.validation (VDict [("version", VInt 3)]) status.

Definition regions : MirrorListHandler.mappings := [("Brazil", [Sample.mirror])].

Definition handler : MirrorListHandler.t :=
  MirrorListHandler.mk (Some regions) 1 0 [].
End SampleFeed.

(** A feed of four mirrors of one country, scored 2, 1, 1 and 1, the
    mapping the remote parse makes of it, and a network on which the
    downloads of a run meet, in turn: 5 bytes in a second, 7 bytes in a
    second, 3 bytes in a second, an incomplete read, and 7 bytes in a
    second from then on. *)
Module SampleOrder.
Definition fed (host : string) (score : Q) : MirrorStatusEntryV3.t :=
  MirrorStatusEntryV3.mk
    (String.append "https://" (String.append host "/")) "https" true
    "Brazil" "BR" true true true ""
    (Some 0) (Some "2025-01-01T00:00:00Z") None None None (Some score)
    None None None None None.

Definition status : MirrorStatusListV3.t :=
  MirrorStatusListV3.mk 86400 "2025-01-01T00:00:00Z" 100
    [fed "a.example" 2; fed "b.example" 1; fed "c.example" 1; fed "d.example" 1]
    3.

Definition validation : MirrorStatusListV3.Validation :=
  Sample.validation (VDict [("version", VInt 3)]) status.

(** A mirror of the feed as the validator leaves it. *)
Definition held (host : string) (score : Q) : MirrorStatusEntryV3.t :=
  MirrorStatusEntryV3.with_hostname (fed host score) (Some host).

Definition regions : MirrorListHandler.mappings :=
  [("Brazil",
    [held "a.example" 2; held "b.example" 1; held "c.example" 1;
     held "d.example" 1])].

Definition handler : MirrorListHandler.t :=
  MirrorListHandler.mk (Some regions) 1 0 [].

Definition network (n : nat) : MirrorStatusEntryV3.download :=
  match n with
  | 0%nat => MirrorStatusEntryV3.Completed 5 (Some 1%Q)
  | 1%nat => MirrorStatusEntryV3.Completed 7 (Some 1%Q)
  | 2%nat => MirrorStatusEntryV3.Completed 3 (Some 1%Q)
  | 3%nat => MirrorStatusEntryV3.IncompleteRead
  | _ => MirrorStatusEntryV3.Completed 7 (Some 1%Q)
  end.

Definition world : MirrorListHandler.world :=
  MirrorListHandler.mkWorld (fun _ => Raise OSError) (Raise OSError) false network.

(** The selection of that one region. *)
Definition selection : MirrorConfiguration.t (R := Sample.repositories) :=
  MirrorConfiguration.mk (R := Sample.repositories)
    [MirrorRegion.mk "Brazil" []] [] [] [] ReflectorConfiguration.default.
End SampleOrder.

(** A validated feed of two mirrors whose scores are the numbers 99.4 and
    99.5 of the feed as [validate_score] rounds them. *)
Module SampleRounding.
Definition rounded (number : Q) : option Q :=
  option_map inject_Z (MirrorStatusEntryV3.validate_score (Some number)).

Definition scored (host : string) (number : Q) : MirrorStatusEntryV3.t :=
  MirrorStatusEntryV3.mk
    (String.append "https://" (String.append host "/")) "https" true
    "Brazil" "BR" true true true ""
    (Some 0) (Some "2025-01-01T00:00:00Z") None None None (rounded number)
    None None (Some host) None None.

Definition status : MirrorStatusListV3.t :=
  MirrorStatusListV3.mk 86400 "2025-01-01T00:00:00Z" 100
    [scored "a.example" (497 # 5); scored "b.example" (199 # 2)] 3.
End SampleRounding.

(** The text of a mirror list as [regions_config] writes it, for the
    statements about writing a list and reading it back. *)
Module Mirrorlist.
(** A text without a line boundary. *)
Fixpoint one_line (s : string) : bool :=
  match s with
  | EmptyString => true
  | String c rest => negb (is_cr c) && negb (is_linebreak c) && one_line rest
  end.

(** A region name that its header line gives back as it is: not empty,
    trimmed, on one line and free of the region marker. *)
Definition plain_name (name : string) : Prop :=
  name <> EmptyString /\ strip name = name /\ one_line name = true
  /\ Grammar.occurs "## " name = false.

(** The line of a server, with its terminator. *)
Definition server_line (url : string) : string :=
  String.append "Server = "
    (String.append (String.append url "$repo/os/$arch") LF).

(** The lines of a region: two line feeds, the header and the servers. *)
Definition block (item : string * list string) : string :=
  String.append LF (String.append LF
    (String.append "## " (String.append (fst item)
       (String.append LF
          (fold_right String.append EmptyString (map server_line (snd item))))))).

(** The lines of a block: two empty ones, the header and the servers. *)
Definition block_lines (item : string * list string) : list string :=
  [EmptyString; EmptyString; String.append "## " (fst item)]
  ++ map (fun url => String.append "Server = "
                       (String.append url "$repo/os/$arch")) (snd item).

(** The text of the regions, each given by its name and its urls. *)
Definition render (items : list (string * list string)) : string :=
  fold_right String.append EmptyString (map block items).

(** The local parser can build a mirror of [region] from the server line
    of [url]: URL parsing and the validator accept what they are given. *)
Definition readable {U : UrlLibrary} (region url : string) : Prop :=
  exists parsed mirror,
    urlparse (String.append url "$repo/os/$arch") = Ok parsed
    /\ MirrorStatusEntryV3.new url (fst parsed) true region "WW" true true true
         "Locally defined mirror" = Ok mirror.
End Mirrorlist.

(** Persisted documents, for the statements about parsing. *)
Module Document.
(** The items of a dict. *)
Definition fields (v : value) : dict value :=
  match v with
  | VDict d => d
  | _ => []
  end.

(** [k] is one of [keys]. *)
Definition among (keys : list string) (k : string) : bool :=
  existsb (String.eqb k) keys.

(** The dict without the items whose key is one of [gone]. *)
Definition without (gone : list string) (v : value) : value :=
  VDict (filter (fun kv => negb (among gone (fst kv))) (fields v)).

(** The keys [MirrorConfiguration.parse_args] reads. *)
Definition mirror_keys : list string :=
  ["mirror_regions"; "custom_servers"; "custom_mirrors";
   "custom_repositories"; "optional_repositories"; "reflector"].
End Document.

(** A terminal library with exactly the three result types the code
    names. *)
Module SampleTui.
Inductive result_type : Type := SkipT | SelectionT | ResetT.

Definition result_type_eqb (a b : result_type) : bool :=
  match a, b with
  | SkipT, SkipT | SelectionT, SelectionT | ResetT, ResetT => true
  | _, _ => false
  end.

Lemma result_type_eqb_eq (a b : result_type) :
  result_type_eqb a b = true <-> a = b.
Proof. destruct a, b; simpl; split; congruence. Qed.

Lemma skip_selection : SkipT <> SelectionT.
Proof. discriminate. Qed.

Lemma skip_reset : SkipT <> ResetT.
Proof. discriminate. Qed.

Lemma selection_reset : SelectionT <> ResetT.
Proof. discriminate. Qed.

#[export] Instance tui : TuiLibrary := {
  ResultType := result_type;
  Skip := SkipT;
  Selection := SelectionT;
  Reset := ResetT;
  ResultType_eqb := result_type_eqb;
  ResultType_eqb_eq := result_type_eqb_eq;
  Skip_Selection := skip_selection;
  Skip_Reset := skip_reset;
  Selection_Reset := selection_reset
}.
End SampleTui.

(* ================================================================== *)
(** * Part II: theorems *)

(** ** General facts about results, text and dicts *)

Lemma bind_ok {A B : Type} (m : result A) (f : A -> result B) (b : B) :
  bind m f = Ok b -> exists a, m = Ok a /\ f a = Ok b.
Proof. destruct m as [a | e]; simpl; intros H; [eauto | discriminate]. Qed.

Lemma mapM_ok_map {A B : Type} (f : A -> result B) (g : A -> B) (l : list A) :
  (forall a, In a l -> f a = Ok (g a)) -> mapM f l = Ok (map g l).
Proof.
  induction l as [| x xs IH]; intros H; simpl; [reflexivity |].
  rewrite (H x (or_introl eq_refl)). simpl.
  rewrite IH by (intros a Ha; apply H; right; exact Ha). reflexivity.
Qed.

Lemma mapM_map {A B C : Type} (f : B -> result C) (g : A -> B) (l : list A) :
  mapM f (map g l) = mapM (fun a => f (g a)) l.
Proof.
  induction l as [| x xs IH]; simpl; [reflexivity |].
  destruct (f (g x)); simpl; [| reflexivity]. rewrite IH. reflexivity.
Qed.

(** ** Reflector arguments *)

Module ReflectorArgs.
Import ReflectorConfiguration Args.

Lemma followed_by_here (flag value : string) (post : list string) :
  followed_by flag value (flag :: value :: post).
Proof. exists [], post. reflexivity. Qed.

Lemma followed_by_cons (flag value x : string) (l : list string) :
  followed_by flag value l -> followed_by flag value (x :: l).
Proof. intros (pre & post & ->). exists (x :: pre), post. reflexivity. Qed.

Lemma followed_by_app_r (flag value : string) (l1 l2 : list string) :
  followed_by flag value l2 -> followed_by flag value (l1 ++ l2).
Proof.
  intros (pre & post & ->). exists (l1 ++ pre), post.
  rewrite app_assoc. reflexivity.
Qed.

Lemma followed_by_app_l (flag value : string) (l1 l2 : list string) :
  followed_by flag value l1 -> followed_by flag value (l1 ++ l2).
Proof.
  intros (pre & post & ->). exists pre, (post ++ l2).
  rewrite <- app_assoc. reflexivity.
Qed.

Ltac find_followed :=
  repeat first [ apply followed_by_here
               | apply followed_by_cons
               | apply followed_by_app_r ].

Lemma py_str_not_flag (z : Z) : String.prefix "--" (py_str z) = false.
Proof.
  unfold py_str. destruct (Z.to_int z) as [d | d]; destruct d; reflexivity.
Qed.

Lemma protocol_names_not_flag (p : ReflectorProtocol) (ps : list ReflectorProtocol) :
  String.prefix "--" (join "," (map ReflectorProtocol_value (p :: ps))) = false.
Proof. destruct p, ps; reflexivity. Qed.

Lemma sort_value_not_flag (s : ReflectorSortOrder) :
  String.prefix "--" (ReflectorSortOrder_value s) = false.
Proof. destruct s; reflexivity. Qed.

Lemma not_flag_neq (f s : string) :
  String.prefix "--" s = false -> String.prefix "--" f = true -> s <> f.
Proof. intros Hs Hf ->. congruence. Qed.

(** An equation between an emitted value and a flag that cannot hold. *)
Ltac value_is_no_flag :=
  match goal with
  | H : py_str ?z = ?f |- _ =>
      exfalso; exact (@not_flag_neq f _ (py_str_not_flag z) eq_refl H)
  | H : ReflectorSortOrder_value ?s = ?f |- _ =>
      exfalso; exact (@not_flag_neq f _ (sort_value_not_flag s) eq_refl H)
  | H : join "," (map ReflectorProtocol_value (?p :: ?ps)) = ?f |- _ =>
      exfalso; exact (@not_flag_neq f _ (protocol_names_not_flag p ps) eq_refl H)
  end.

Ltac split_in H :=
  cbn [In app] in H;
  repeat (destruct H as [H | H]; [try discriminate H; try value_is_no_flag |]);
  try contradiction.

Ltac find_in := cbn [In app]; repeat (first [left; reflexivity | right]).
End ReflectorArgs.

(** C7, the claim as stated does not hold: a country name is emitted as it
    is, so a configuration whose only country is named [--verbose] has
    [--verbose] among its arguments although its [verbose] flag is false
    (and likewise [--protocol] with no protocol chosen). *)
Lemma to_command_args_country_as_flag :
  (In "--verbose" (ReflectorConfiguration.to_command_args Sample.country_verbose)
   /\ ReflectorConfiguration.verbose Sample.country_verbose = false)
  /\ (In "--protocol" (ReflectorConfiguration.to_command_args Sample.country_protocol)
      /\ ReflectorConfiguration.protocols Sample.country_protocol = []).
Proof.
  repeat split; cbn; auto.
Qed.

(** C7, amended: [to_command_args] always includes [--age], [--latest] and
    [--sort], each followed by its value; it includes [--country] if and
    only if the country list is non-empty, then followed by the
    comma-joined list; and, whenever the comma-joined country string is not
    itself the text of the flag in question, it includes [--protocol] if and
    only if the protocol list is non-empty and [--verbose] if and only if
    the verbose flag is true. *)
Theorem to_command_args_flags (c : ReflectorConfiguration.t) :
  let args := ReflectorConfiguration.to_command_args c in
  let country := join "," (ReflectorConfiguration.countries c) in
  let protocol :=
    join "," (map ReflectorProtocol_value (ReflectorConfiguration.protocols c)) in
  (Args.followed_by "--age" (py_str (ReflectorConfiguration.age c)) args
   /\ Args.followed_by "--latest" (py_str (ReflectorConfiguration.latest c)) args
   /\ Args.followed_by "--sort"
        (ReflectorSortOrder_value (ReflectorConfiguration.sort_order c)) args)
  /\ (In "--age" args /\ In "--latest" args /\ In "--sort" args)
  /\ (In "--country" args <-> ReflectorConfiguration.countries c <> [])
  /\ (ReflectorConfiguration.countries c <> [] ->
      Args.followed_by "--country" country args)
  /\ (country <> "--protocol" ->
      (In "--protocol" args <-> ReflectorConfiguration.protocols c <> []))
  /\ (ReflectorConfiguration.protocols c <> [] ->
      Args.followed_by "--protocol" protocol args)
  /\ (country <> "--verbose" ->
      (In "--verbose" args <-> ReflectorConfiguration.verbose c = true)).
Proof.
  intros args country protocol. subst args country protocol.
  destruct c as [en cs ps ag la so vb].
  unfold ReflectorConfiguration.to_command_args.
  cbn [ReflectorConfiguration.countries ReflectorConfiguration.protocols
       ReflectorConfiguration.age ReflectorConfiguration.latest
       ReflectorConfiguration.sort_order ReflectorConfiguration.verbose].
  split; [| split; [| split; [| split; [| split; [| split]]]]].
  - repeat split; apply ReflectorArgs.followed_by_app_r; ReflectorArgs.find_followed.
  - repeat split; apply in_or_app; right; ReflectorArgs.find_in.
  - destruct vb, cs as [| c0 cs], ps as [| p0 ps]; split; intros H;
      try discriminate; try (exfalso; apply H; reflexivity);
      try (ReflectorArgs.find_in; fail);
      ReflectorArgs.split_in H.
  - intros H. destruct cs as [| c0 cs]; [contradiction |].
    apply ReflectorArgs.followed_by_app_l.
    destruct ps as [| p0 ps]; [| apply ReflectorArgs.followed_by_app_l];
      ReflectorArgs.find_followed.
  - intros Hc.
    destruct vb, cs as [| c0 cs], ps as [| p0 ps]; split; intros H;
      try discriminate; try (exfalso; apply H; reflexivity);
      try (ReflectorArgs.find_in; fail);
      ReflectorArgs.split_in H; try (exfalso; apply Hc; exact H).
  - intros H. destruct ps as [| p0 ps]; [contradiction |].
    apply ReflectorArgs.followed_by_app_l. ReflectorArgs.find_followed.
  - intros Hc.
    destruct vb, cs as [| c0 cs], ps as [| p0 ps]; split; intros H;
      try reflexivity; try discriminate;
      try (ReflectorArgs.find_in; fail);
      ReflectorArgs.split_in H; try (exfalso; apply Hc; exact H).
Qed.

(** ** The persisted configuration *)

Lemma dict_get_set {V : Type} (d : dict V) (k k' : string) (v : V) :
  dict_get (dict_set d k v) k' =
  if String.eqb k k' then Some v else dict_get d k'.
Proof.
  induction d as [| [k0 v0] rest IH]; simpl.
  - reflexivity.
  - destruct (String.eqb_spec k0 k) as [-> | Hk]; simpl.
    + destruct (String.eqb k k'); reflexivity.
    + rewrite IH. destruct (String.eqb_spec k0 k') as [-> | Hk'].
      * destruct (String.eqb_spec k k'); [congruence | reflexivity].
      * reflexivity.
Qed.

Lemma dict_set_fresh {V : Type} (d : dict V) (k : string) (v : V) :
  ~ In k (map fst d) -> dict_set d k v = d ++ [(k, v)].
Proof.
  induction d as [| [k0 v0] rest IH]; simpl; intros H; [reflexivity |].
  destruct (String.eqb_spec k0 k) as [-> | Hk]; [exfalso; auto |].
  rewrite IH; [reflexivity |]. intros Hin. apply H. right. exact Hin.
Qed.

Lemma as_str_list_ok (l : list string) :
  as_str_list (VList (map VStr l)) = Ok l.
Proof.
  simpl. rewrite mapM_map. rewrite (mapM_ok_map _ (fun s => s)).
  - rewrite map_id. reflexivity.
  - reflexivity.
Qed.

Lemma SignCheck_roundtrip (s : SignCheck) :
  SignCheck_of (VStr (SignCheck_value s)) = Ok s.
Proof. destruct s; reflexivity. Qed.

Lemma SignOption_roundtrip (s : SignOption) :
  SignOption_of (VStr (SignOption_value s)) = Ok s.
Proof. destruct s; reflexivity. Qed.

Lemma ReflectorSortOrder_roundtrip (s : ReflectorSortOrder) :
  ReflectorSortOrder_of (VStr (ReflectorSortOrder_value s)) = Ok s.
Proof. destruct s; reflexivity. Qed.

Lemma ReflectorProtocol_roundtrip (p : ReflectorProtocol) :
  ReflectorProtocol_of (VStr (ReflectorProtocol_value p)) = Ok p.
Proof. destruct p; reflexivity. Qed.

Lemma ReflectorConfiguration_roundtrip (r : ReflectorConfiguration.t) :
  ReflectorConfiguration.parse_args (ReflectorConfiguration.json r) = Ok r.
Proof.
  destruct r as [en cs ps ag la so vb].
  unfold ReflectorConfiguration.parse_args, ReflectorConfiguration.json.
  cbn [ReflectorConfiguration.enabled ReflectorConfiguration.countries
       ReflectorConfiguration.protocols ReflectorConfiguration.age
       ReflectorConfiguration.latest ReflectorConfiguration.sort_order
       ReflectorConfiguration.verbose].
  change (get _ "enabled" _) with (VBool en).
  change (get _ "countries" _) with (VList (map VStr cs)).
  change (get _ "protocols" _)
    with (VList (map (fun p => VStr (ReflectorProtocol_value p)) ps)).
  change (get _ "age" _) with (VInt ag).
  change (get _ "latest" _) with (VInt la).
  change (get _ "sort_order" _) with (VStr (ReflectorSortOrder_value so)).
  change (get _ "verbose" _) with (VBool vb).
  rewrite as_str_list_ok, ReflectorSortOrder_roundtrip.
  cbn [as_bool as_int bind py_iter].
  rewrite mapM_map, (mapM_ok_map _ (fun p => p)), map_id by
    (intros; apply ReflectorProtocol_roundtrip).
  reflexivity.
Qed.

Lemma CustomRepository_parse_one_json (c : CustomRepository.t) :
  CustomRepository.parse_one (CustomRepository.json c) = Ok c.
Proof.
  destruct c as [n u sc so].
  unfold CustomRepository.parse_one, CustomRepository.json.
  cbn [CustomRepository.name CustomRepository.url CustomRepository.sign_check
       CustomRepository.sign_option].
  change (subscript _ "name") with (@Ok value (VStr n)).
  change (subscript _ "url") with (@Ok value (VStr u)).
  change (subscript _ "sign_check") with (@Ok value (VStr (SignCheck_value sc))).
  change (subscript _ "sign_option") with (@Ok value (VStr (SignOption_value so))).
  cbn [bind]. rewrite SignCheck_roundtrip, SignOption_roundtrip. reflexivity.
Qed.

Lemma CustomRepository_roundtrip (l : list CustomRepository.t) :
  CustomRepository.parse_args (VList (map CustomRepository.json l)) = Ok l.
Proof.
  unfold CustomRepository.parse_args. cbn [py_iter bind].
  rewrite mapM_map, (mapM_ok_map _ (fun c => c)), map_id by
    (intros; apply CustomRepository_parse_one_json).
  reflexivity.
Qed.

(** The dict that [json] gathers the regions into, when no two regions
    share a name: one item per region, in the order of the list. *)
Lemma regions_dict (l : list MirrorRegion.t) (acc : dict value) :
  NoDup (map fst acc ++ map MirrorRegion.name l) ->
  fold_left (fun regions m => dict_update regions (MirrorRegion.json m)) l acc
  = acc ++ map (fun m => (MirrorRegion.name m,
                          VList (map VStr (MirrorRegion.urls m)))) l.
Proof.
  revert acc. induction l as [| m ms IH]; intros acc Hnd; cbn [fold_left map].
  - rewrite app_nil_r. reflexivity.
  - change (dict_update acc (MirrorRegion.json m))
      with (dict_set acc (MirrorRegion.name m)
                     (VList (map VStr (MirrorRegion.urls m)))).
    rewrite dict_set_fresh.
    + rewrite IH.
      * rewrite <- app_assoc. reflexivity.
      * rewrite map_app. simpl. rewrite <- app_assoc. exact Hnd.
    + simpl in Hnd. apply NoDup_remove_2 in Hnd.
      intros Hin. apply Hnd. apply in_or_app. left. exact Hin.
Qed.

Lemma parse_regions_ok (l : list MirrorRegion.t) :
  mapM MirrorConfiguration.parse_region
       (map (fun m => (MirrorRegion.name m,
                       VList (map VStr (MirrorRegion.urls m)))) l) = Ok l.
Proof.
  rewrite mapM_map, (mapM_ok_map _ (fun m => m)), map_id; [reflexivity |].
  intros [n us] _. unfold MirrorConfiguration.parse_region.
  cbn [fst snd MirrorRegion.name MirrorRegion.urls].
  rewrite as_str_list_ok. reflexivity.
Qed.

(** Decides the comparisons of two key literals in the goal. *)
Ltac key_literals :=
  repeat match goal with
  | |- context [String.eqb ?a ?b] =>
      let r := eval vm_compute in (String.eqb a b) in
      match r with
      | true => change (String.eqb a b) with true
      | false => change (String.eqb a b) with false
      end
  end.

Lemma dict_mem_false {V : Type} (d : dict V) (k : string) :
  dict_mem d k = false -> dict_get d k = None.
Proof. unfold dict_mem. destruct (dict_get d k); [discriminate | reflexivity]. Qed.

(** A document that spells the repositories key the legacy way parses like
    the document that spells it the canonical way. *)
Lemma legacy_key_parses_alike {R : RepositoryEnum}
    (args : dict value) (v : value) (bc : list Repository) :
  dict_mem args "custom_mirrors" = false ->
  dict_mem args "custom_repositories" = false ->
  MirrorConfiguration.parse_args (dict_set args "custom_mirrors" v) bc
  = MirrorConfiguration.parse_args (dict_set args "custom_repositories" v) bc.
Proof.
  intros Hm Hr. apply dict_mem_false in Hm, Hr.
  unfold MirrorConfiguration.parse_args, get, dict_mem, dict_item.
  rewrite !dict_get_set. key_literals. cbv iota. rewrite Hm, Hr.
  destruct (let* regions := _ in _) eqn:E; try reflexivity.
  all: revert E.
  all: destruct (if truthy _ then _ else _); cbn [bind]; try (intros; congruence).
  all: destruct (if truthy _ then _ else _); cbn [bind]; try (intros; congruence).
  all: destruct (CustomRepository.parse_args v); cbn [bind]; intros; congruence.
Qed.

(** C1, the claim as stated does not hold for every aggregate.  With a
    custom server, [json] hands the server object over as it is and
    [parse_args] fails on indexing it; with two regions of one name, [json]
    keeps one dict item for both and [parse_args] answers a single
    region. *)
Lemma json_parse_args_not_roundtrip :
  MirrorConfiguration.parse_args (R := Sample.repositories)
    (MirrorConfiguration.json Sample.config_with_server) []
  = Raise TypeError
  /\ MirrorConfiguration.parse_args
       (MirrorConfiguration.json Sample.config_twin_regions) []
     = Ok Sample.config_one_region.
Proof. split; reflexivity. Qed.

(** C1, amended: for every aggregate whose regions have pairwise distinct
    names and whose list of custom servers is empty, [json] followed by
    [parse_args] gives the aggregate back (regions with their urls, optional
    repositories, custom repositories and reflector settings); and a
    document that carries the repositories under the legacy key
    [custom_mirrors] parses to the same result as the document that carries
    them under [custom_repositories]. *)
Theorem json_parse_args_roundtrip {R : RepositoryEnum} (c : MirrorConfiguration.t) :
  NoDup (map MirrorRegion.name (MirrorConfiguration.mirror_regions c)) ->
  MirrorConfiguration.custom_servers c = [] ->
  MirrorConfiguration.parse_args (MirrorConfiguration.json c) [] = Ok c
  /\ (forall (args : dict value) (v : value) (bc : list Repository),
        dict_mem args "custom_mirrors" = false ->
        dict_mem args "custom_repositories" = false ->
        MirrorConfiguration.parse_args (dict_set args "custom_mirrors" v) bc
        = MirrorConfiguration.parse_args (dict_set args "custom_repositories" v) bc).
Proof.
  intros Hnd Hcs. split; [| intros; apply legacy_key_parses_alike; assumption].
  destruct c as [regions servers optional repositories reflector].
  cbn [MirrorConfiguration.mirror_regions MirrorConfiguration.custom_servers] in *.
  subst servers.
  unfold MirrorConfiguration.parse_args, MirrorConfiguration.json.
  cbn [MirrorConfiguration.mirror_regions MirrorConfiguration.custom_servers
       MirrorConfiguration.optional_repositories
       MirrorConfiguration.custom_repositories MirrorConfiguration.reflector].
  rewrite (regions_dict regions []) by exact Hnd.
  cbn [app map].
  set (items := map _ regions).
  change (get _ "mirror_regions" _) with (VDict items).
  change (get _ "custom_servers" _) with (VList []).
  change (dict_mem _ "custom_mirrors") with false.
  change (dict_mem _ "custom_repositories") with true.
  change (dict_mem _ "optional_repositories") with true.
  change (dict_mem _ "reflector") with true.
  change (dict_item _ "custom_repositories")
    with (@Ok value (VList (map CustomRepository.json repositories))).
  change (dict_item _ "optional_repositories")
    with (@Ok value (VList (map (fun r => VStr (Repository_value r)) optional))).
  change (dict_item _ "reflector")
    with (@Ok value (ReflectorConfiguration.json reflector)).
  cbn [truthy bind py_iter].
  rewrite CustomRepository_roundtrip, ReflectorConfiguration_roundtrip.
  rewrite mapM_map, (mapM_ok_map _ (fun r => r)), map_id by
    (intros; apply Repository_of_value).
  cbn [bind].
  assert (Hregions :
    (if match items with [] => false | _ :: _ => true end
     then let* its := py_items (VDict items) in
          let* rs := mapM MirrorConfiguration.parse_region its in Ok rs
     else Ok []) = Ok regions).
  { subst items. destruct regions as [| m ms]; [reflexivity |].
    cbn [map py_items bind]. 
    change (mapM MirrorConfiguration.parse_region
              ((MirrorRegion.name m, VList (map VStr (MirrorRegion.urls m)))
               :: map (fun m0 => (MirrorRegion.name m0,
                                  VList (map VStr (MirrorRegion.urls m0)))) ms))
      with (mapM MirrorConfiguration.parse_region
              (map (fun m0 => (MirrorRegion.name m0,
                               VList (map VStr (MirrorRegion.urls m0)))) (m :: ms))).
    rewrite parse_regions_ok. reflexivity. }
  rewrite Hregions. reflexivity.
Qed.

Lemma json_parse_args_roundtrip_witness :
  MirrorConfiguration.parse_args (MirrorConfiguration.json Sample.config) []
  = Ok Sample.config.
Proof.
  refine (proj1 (@json_parse_args_roundtrip Sample.repositories Sample.config _ _)).
  - simpl. repeat constructor; simpl; intuition discriminate.
  - reflexivity.
Defined.

(** *** Precedence of the canonical key and the merge of the legacy list *)

Section Merge.
Context {R : RepositoryEnum}.

Lemma not_in_spec (r : Repository) (l : list Repository) :
  MirrorConfiguration.not_in r l = true <-> ~ In r l.
Proof.
  unfold MirrorConfiguration.not_in. rewrite negb_true_iff.
  split.
  - intros H Hin.
    assert (existsb (Repository_eqb r) l = true) as E.
    { apply existsb_exists. exists r. split; [exact Hin |].
      apply Repository_eqb_eq. reflexivity. }
    congruence.
  - intros H. destruct (existsb (Repository_eqb r) l) eqn:E; [| reflexivity].
    apply existsb_exists in E. destruct E as (x & Hx & Hrx).
    apply Repository_eqb_eq in Hrx. subst x. contradiction.
Qed.

Lemma not_in_false (r : Repository) (l : list Repository) :
  MirrorConfiguration.not_in r l = false -> In r l.
Proof.
  unfold MirrorConfiguration.not_in. intros E. apply negb_false_iff in E.
  apply existsb_exists in E. destruct E as (x & Hx & Hrx).
  apply Repository_eqb_eq in Hrx. subst x. exact Hx.
Qed.

Lemma Repository_eq_dec (a b : Repository) : a = b \/ a <> b.
Proof.
  destruct (Repository_eqb a b) eqn:E.
  - left. apply Repository_eqb_eq. exact E.
  - right. intros ->.
    assert (Repository_eqb b b = true) by (apply Repository_eqb_eq; reflexivity).
    congruence.
Qed.

(** The loop adds to [base] a duplicate-free list of exactly those elements
    of the legacy list that [base] lacks. *)
Lemma merge_backwards_compatible_spec (bc base : list Repository) :
  exists extra,
    MirrorConfiguration.merge_backwards_compatible base bc = base ++ extra
    /\ NoDup extra
    /\ (forall r, In r extra <-> In r bc /\ ~ In r base).
Proof.
  unfold MirrorConfiguration.merge_backwards_compatible.
  revert base. induction bc as [| r bc IH]; intros base; cbn [fold_left].
  - exists []. rewrite app_nil_r. split; [reflexivity |].
    split; [constructor |]. intros r. simpl. tauto.
  - destruct (MirrorConfiguration.not_in r base) eqn:E.
    + apply not_in_spec in E.
      destruct (IH (base ++ [r])) as (extra & Heq & Hnd & Hin).
      exists (r :: extra). rewrite Heq, <- app_assoc. split; [reflexivity |].
      split.
      * constructor; [| exact Hnd]. intros Hr. apply Hin in Hr.
        destruct Hr as [_ Hr]. apply Hr. apply in_or_app. right. left. reflexivity.
      * intros x. split.
        -- intros [<- | Hx].
           ++ split; [left; reflexivity | exact E].
           ++ apply Hin in Hx. destruct Hx as [Hx Hnx]. split; [right; exact Hx |].
              intros Hb. apply Hnx. apply in_or_app. left. exact Hb.
        -- intros [[<- | Hx] Hnx]; [left; reflexivity |].
           destruct (Repository_eq_dec r x) as [-> | Hne]; [left; reflexivity |].
           right. apply Hin. split; [exact Hx |].
           intros Hb. apply in_app_or in Hb. destruct Hb as [Hb | [Hb | []]];
             [contradiction | congruence].
    + apply not_in_false in E.
      destruct (IH base) as (extra & Heq & Hnd & Hin).
      exists extra. split; [exact Heq |]. split; [exact Hnd |].
      intros x. rewrite Hin. split.
      * intros [Hx Hnx]. split; [right; exact Hx | exact Hnx].
      * intros [[<- | Hx] Hnx]; [contradiction | split; assumption].
Qed.
End Merge.

(** C6, the claim as stated does not hold: with both keys present the
    value of the legacy key is parsed all the same, before the value of the
    canonical key, and what that parse raises leaves [parse_args].  The
    second document carries the same value under [custom_repositories] as
    the first, which parses; its value under [custom_mirrors] holds an item
    without a name, and the parse raises [KeyError]: the canonical value
    does not settle the custom repositories. *)
Lemma legacy_value_parsed_although_overridden :
  MirrorConfiguration.parse_args (R := Sample.repositories)
    SampleDocument.canonical_only []
  = Ok (MirrorConfiguration.mk [] [] [] [SampleDocument.new_repository]
          ReflectorConfiguration.default)
  /\ dict_get SampleDocument.nameless_legacy "custom_repositories"
     = dict_get SampleDocument.canonical_only "custom_repositories"
  /\ dict_mem SampleDocument.nameless_legacy "custom_mirrors" = true
  /\ MirrorConfiguration.parse_args (R := Sample.repositories)
       SampleDocument.nameless_legacy []
     = Raise KeyError.
Proof. repeat split. Qed.

(** C6, amended.  For a document that parses on its own, [parse_args] with
    a backwards-compatible list answers the same configuration with, after
    the optional repositories of the document, a duplicate-free list of
    exactly those elements of the list that the document's optional
    repositories lack.  When the document carries the canonical key
    [custom_repositories], the custom repositories of the result are the
    parse of that key's value, whether the legacy key [custom_mirrors] is
    there or not; putting any value that parses under the legacy key
    changes nothing of the result; and putting a value that does not parse
    under it makes [parse_args] raise what that parse raises. *)
Theorem parse_args_precedence_and_merge {R : RepositoryEnum}
    (args : dict value) (bc : list Repository) (c0 : MirrorConfiguration.t) :
  MirrorConfiguration.parse_args args [] = Ok c0 ->
  (exists extra,
     MirrorConfiguration.parse_args args bc
     = Ok (MirrorConfiguration.mk
             (MirrorConfiguration.mirror_regions c0)
             (MirrorConfiguration.custom_servers c0)
             (MirrorConfiguration.optional_repositories c0 ++ extra)
             (MirrorConfiguration.custom_repositories c0)
             (MirrorConfiguration.reflector c0))
     /\ NoDup extra
     /\ (forall r, In r extra <->
           In r bc /\ ~ In r (MirrorConfiguration.optional_repositories c0)))
  /\ (forall canonical,
        dict_get args "custom_repositories" = Some canonical ->
        CustomRepository.parse_args canonical
        = Ok (MirrorConfiguration.custom_repositories c0)
        /\ (forall legacy old,
              CustomRepository.parse_args legacy = Ok old ->
              MirrorConfiguration.parse_args (dict_set args "custom_mirrors" legacy) bc
              = MirrorConfiguration.parse_args args bc)
        /\ (forall legacy e,
              CustomRepository.parse_args legacy = Raise e ->
              MirrorConfiguration.parse_args (dict_set args "custom_mirrors" legacy) bc
              = Raise e)).
Proof.
  intros H0.
  unfold MirrorConfiguration.parse_args, get, dict_mem, dict_item in H0.
  destruct (if truthy _ then _ else _) as [regions | e] eqn:Eregions in H0;
    cbn [bind] in H0; [| discriminate].
  destruct (if truthy _ then _ else _) as [servers | e] eqn:Eservers in H0;
    cbn [bind] in H0; [| discriminate].
  destruct (if match dict_get args "custom_mirrors" with
               | Some _ => true | None => false end then _ else _)
    as [legacy0 | e] eqn:Elegacy in H0; cbn [bind] in H0; [| discriminate].
  destruct (if match dict_get args "custom_repositories" with
               | Some _ => true | None => false end then _ else _)
    as [repositories | e] eqn:Ecanonical in H0; cbn [bind] in H0; [| discriminate].
  destruct (if match dict_get args "optional_repositories" with
               | Some _ => true | None => false end then _ else _)
    as [optional | e] eqn:Eoptional in H0; cbn [bind] in H0; [| discriminate].
  destruct (if match dict_get args "reflector" with
               | Some _ => true | None => false end then _ else _)
    as [reflector | e] eqn:Ereflector in H0; cbn [bind] in H0; [| discriminate].
  injection H0 as <-.
  cbn [MirrorConfiguration.mirror_regions MirrorConfiguration.custom_servers
       MirrorConfiguration.optional_repositories
       MirrorConfiguration.custom_repositories MirrorConfiguration.reflector].
  assert (Hrun : MirrorConfiguration.parse_args args bc
                 = Ok (MirrorConfiguration.mk regions servers
                         (MirrorConfiguration.merge_backwards_compatible optional bc)
                         repositories reflector)).
  { unfold MirrorConfiguration.parse_args, get, dict_mem, dict_item.
    rewrite Eregions. cbn [bind]. rewrite Eservers. cbn [bind].
    rewrite Elegacy. cbn [bind]. rewrite Ecanonical. cbn [bind].
    rewrite Eoptional. cbn [bind]. rewrite Ereflector. cbn [bind].
    destruct bc; reflexivity. }
  split.
  - destruct (merge_backwards_compatible_spec bc optional)
      as (extra & Heq & Hnd & Hin).
    exists extra. rewrite Hrun, Heq. repeat split; try assumption; apply Hin;
      assumption.
  - intros canonical Hcanonical.
    rewrite Hcanonical in Ecanonical.
    split; [exact Ecanonical |].
    assert (Hset : forall legacy,
              MirrorConfiguration.parse_args (dict_set args "custom_mirrors" legacy) bc
              = let* old := CustomRepository.parse_args legacy in
                MirrorConfiguration.parse_args args bc).
    { intros legacy. rewrite Hrun.
      unfold MirrorConfiguration.parse_args, get, dict_mem, dict_item.
      rewrite !dict_get_set. key_literals. cbv iota.
      rewrite Eregions. cbn [bind]. rewrite Eservers. cbn [bind].
      destruct (CustomRepository.parse_args legacy) as [old | e]; cbn [bind];
        [| reflexivity].
      rewrite Hcanonical. rewrite Ecanonical. cbn [bind].
      rewrite Eoptional. cbn [bind]. rewrite Ereflector. cbn [bind].
      destruct bc; reflexivity. }
    split.
    + intros legacy old Hold. rewrite Hset, Hold. reflexivity.
    + intros legacy e He. rewrite Hset, He. reflexivity.
Qed.

Lemma parse_args_precedence_and_merge_witness :
  exists extra,
    MirrorConfiguration.parse_args (R := Sample.repositories)
      SampleDocument.both_keys [Sample.Testing; Sample.Multilib; Sample.Testing]
    = Ok (MirrorConfiguration.mk (R := Sample.repositories) [] []
            ([Sample.Multilib] ++ extra) [SampleDocument.new_repository]
            ReflectorConfiguration.default)
    /\ NoDup extra
    /\ (In Sample.Testing extra /\ ~ In Sample.Multilib extra)
    /\ CustomRepository.parse_args
         (VList [CustomRepository.json SampleDocument.new_repository])
       = Ok [SampleDocument.new_repository].
Proof.
  pose proof (@parse_args_precedence_and_merge Sample.repositories
                SampleDocument.both_keys
                [Sample.Testing; Sample.Multilib; Sample.Testing]
                SampleDocument.parsed eq_refl)
    as [(extra & Hrun & Hnd & Hin) Hcanonical].
  exists extra. split; [exact Hrun |]. split; [exact Hnd |]. split.
  - split.
    + apply Hin. split; [left; reflexivity |].
      intros [H | []]. discriminate H.
    + intros H. apply Hin in H. destruct H as [_ H]. apply H. left. reflexivity.
  - exact (proj1 (Hcanonical _ eq_refl)).
Defined.

(** ** The speed probe *)

Module SpeedProbe.
Import MirrorStatusEntryV3 Probe.

Section WithLibrary.
Context {U : UrlLibrary}.

Lemma attempt_transient (d : download) (e : t) :
  is_transient d = true -> attempt d e = e.
Proof. destruct d; simpl; intros H; try discriminate; reflexivity. Qed.

Lemma attempt_permanent (d : download) (e : t) :
  is_permanent d = true -> _speed (attempt d e) = Some 0%Q.
Proof. destruct d; simpl; intros H; try discriminate; reflexivity. Qed.

Lemma attempt_retries (d : download) (e : t) :
  _speedtest_retries (attempt d e) = _speedtest_retries e.
Proof.
  destruct d as [size [tm |] | | | |]; simpl; try reflexivity.
  destruct (Qeq_bool tm 0); reflexivity.
Qed.

Lemma attempt_probe_url (d : download) (e : t) :
  probe_url (attempt d e) = probe_url e.
Proof.
  destruct d as [size [tm |] | | | |]; simpl; try reflexivity.
  destruct (Qeq_bool tm 0); reflexivity.
Qed.

(** The loop never makes more downloads than it has turns left, and it
    leaves the budget alone. *)
Lemma speed_loop_bounds (net : nat -> download) (r : nat) (e : t) (n : nat) :
  (n <= snd (speed_loop net r e n) <= n + r)%nat
  /\ _speedtest_retries (snd (fst (speed_loop net r e n))) = _speedtest_retries e.
Proof.
  revert e n. induction r as [| r IH]; intros e n; simpl.
  - split; [lia | reflexivity].
  - destruct (_speed e); simpl; [split; [lia | reflexivity] |].
    destruct (Request (probe_url e)); simpl; [| split; [lia | reflexivity]].
    destruct (IH (attempt (net n) e) (S n)) as [Hb Hr].
    split; [lia |]. rewrite Hr. apply attempt_retries.
Qed.

(** When the request can be built the loop ends without an exception. *)
Lemma speed_loop_ok (net : nat -> download) (r : nat) (e : t) (n : nat) :
  Request (probe_url e) = Ok tt ->
  fst (fst (speed_loop net r e n)) = Ok tt.
Proof.
  revert e n. induction r as [| r IH]; intros e n Hreq; simpl.
  - reflexivity.
  - destruct (_speed e); simpl; [reflexivity |].
    rewrite Hreq. apply IH. rewrite attempt_probe_url. exact Hreq.
Qed.

(** When it cannot, the first turn raises before any download. *)
Lemma speed_loop_raise (net : nat -> download) (r : nat) (e : t) (n : nat)
    (err : exn) :
  Request (probe_url e) = Raise err ->
  _speed e = None ->
  speed_loop net (S r) e n = (Raise err, e, n).
Proof. intros Hreq He. simpl. rewrite He, Hreq. reflexivity. Qed.

(** After [k] transient errors the loop stands where it began, [k]
    downloads later. *)
Lemma speed_loop_transient (net : nat -> download) (k r : nat) (e : t) (n : nat) :
  Request (probe_url e) = Ok tt ->
  _speed e = None ->
  (forall j, (j < k)%nat -> is_transient (net (n + j)%nat) = true) ->
  speed_loop net (k + r) e n = speed_loop net r e (n + k)%nat.
Proof.
  intros Hreq. revert n. induction k as [| k IH]; intros n He Htr; simpl.
  - rewrite Nat.add_0_r. reflexivity.
  - rewrite He, Hreq. rewrite attempt_transient.
    + rewrite IH; [f_equal; lia | exact He |].
      intros j Hj. replace (S n + j)%nat with (n + S j)%nat by lia.
      apply Htr. lia.
    + specialize (Htr 0%nat). rewrite Nat.add_0_r in Htr. apply Htr. lia.
Qed.

(** Once the speed is set the loop stops. *)
Lemma speed_loop_settled (net : nat -> download) (r : nat) (e : t) (n : nat) (v : Q) :
  _speed e = Some v -> speed_loop net r e n = (Ok tt, e, n).
Proof. intros He. destruct r; simpl; [| rewrite He]; reflexivity. Qed.

Lemma speed_memo (net : nat -> download) (e : t) (n : nat) (v : Q) :
  _speed e = Some v -> speed net e n = (Ok v, e, n).
Proof. intros He. unfold speed. rewrite He. reflexivity. Qed.

(** What a read of the property leaves behind when the request can be
    built. *)
Lemma speed_result (net : nat -> download) (e : t) (n : nat) :
  Request (probe_url e) = Ok tt ->
  exists v e' n',
    speed net e n = (Ok v, e', n')
    /\ _speed e' = Some v
    /\ (n <= n' <= n + Z.to_nat (retry_budget (_speedtest_retries e)))%nat.
Proof.
  intros Hreq. unfold speed. destruct (_speed e) as [v |] eqn:He.
  - exists v, e, n. repeat split; [exact He | lia | lia].
  - set (b := retry_budget (_speedtest_retries e)).
    set (e1 := with_speedtest_retries e (Some b)).
    destruct (speed_loop_bounds net (Z.to_nat b) e1 n) as [Hb _].
    pose proof (@speed_loop_ok net (Z.to_nat b) e1 n Hreq) as Hok.
    destruct (speed_loop net (Z.to_nat b) e1 n) as [[r e2] n2]; simpl in *.
    subst r.
    destruct (_speed e2) as [v |] eqn:He2.
    + exists v, e2, n2. repeat split; [exact He2 | lia | lia].
    + exists 0%Q, (with_speed e2 (Some 0%Q)), n2.
      repeat split; [lia | lia].
Qed.

(** What it leaves behind when the request cannot be built: the exception,
    no download, and the speed as unset as before. *)
Lemma speed_raise (net : nat -> download) (e : t) (n : nat) (err : exn) :
  Request (probe_url e) = Raise err ->
  _speed e = None ->
  speed net e n
  = (Raise err,
     with_speedtest_retries e (Some (retry_budget (_speedtest_retries e))), n).
Proof.
  intros Hreq He. unfold speed. rewrite He.
  set (b := retry_budget (_speedtest_retries e)).
  assert (Hb : exists k, Z.to_nat b = S k).
  { exists (Z.to_nat b - 1)%nat. unfold b, retry_budget.
    destruct (_speedtest_retries e) as [r |]; [| lia].
    destruct (r =? 0) eqn:E0; [lia |].
    destruct (r <? 1) eqn:E1; [lia |].
    apply Z.ltb_ge in E1. lia. }
  destruct Hb as [k ->].
  rewrite (@speed_loop_raise net k (with_speedtest_retries e (Some b)) n err Hreq He).
  reflexivity.
Qed.
End WithLibrary.
End SpeedProbe.

(** X1: on an entry whose request can be built and whose retry budget is as
    the code leaves it, a read of [speed] returns, makes at most 3
    downloads and leaves the speed set to the value it returns; any later
    read returns that value without a download; on an entry not yet probed,
    a permanent error after [k < 3] transient ones ends the read after
    [k + 1] downloads with speed 0, so every transient error costs one
    attempt and sets nothing; and three transient errors in a row end the
    read after 3 downloads with speed 0. *)
Theorem speed_retry_policy {U : UrlLibrary}
    (net : nat -> MirrorStatusEntryV3.download) (e : MirrorStatusEntryV3.t) (n : nat) :
  Probe.budget_untouched e ->
  Request (MirrorStatusEntryV3.probe_url e) = Ok tt ->
  exists (v : Q) (e' : MirrorStatusEntryV3.t) (n' : nat),
    MirrorStatusEntryV3.speed net e n = (Ok v, e', n')
    /\ (n <= n' <= n + 3)%nat
    /\ MirrorStatusEntryV3._speed e' = Some v
    /\ Probe.budget_untouched e'
    /\ (forall net2 m, MirrorStatusEntryV3.speed net2 e' m = (Ok v, e', m))
    /\ (MirrorStatusEntryV3._speed e = None ->
        forall k, (k < 3)%nat ->
          (forall j, (j < k)%nat -> Probe.is_transient (net (n + j)%nat) = true) ->
          Probe.is_permanent (net (n + k)%nat) = true ->
          v = 0%Q /\ n' = (n + k + 1)%nat)
    /\ (MirrorStatusEntryV3._speed e = None ->
        (forall j, (j < 3)%nat -> Probe.is_transient (net (n + j)%nat) = true) ->
        v = 0%Q /\ n' = (n + 3)%nat).
Proof.
  intros Hb Hreq.
  assert (Hbudget : MirrorStatusEntryV3.retry_budget
                      (MirrorStatusEntryV3._speedtest_retries e) = 3).
  { destruct Hb as [-> | ->]; reflexivity. }
  destruct (@SpeedProbe.speed_result U net e n Hreq)
    as (v & e' & n' & Hs & Hset & Hn).
  rewrite Hbudget in Hn.
  exists v, e', n'.
  split; [exact Hs |]. split; [lia |]. split; [exact Hset |].
  assert (Hreq1 : Request (MirrorStatusEntryV3.probe_url
                    (MirrorStatusEntryV3.with_speedtest_retries e (Some 3)))
                  = Ok tt) by exact Hreq.
  assert (Hb' : Probe.budget_untouched e').
  { revert Hs. unfold MirrorStatusEntryV3.speed.
    destruct (MirrorStatusEntryV3._speed e) eqn:He.
    - intros H. injection H as <- <- <-. exact Hb.
    - rewrite Hbudget.
      pose proof (SpeedProbe.speed_loop_bounds net (Z.to_nat 3)
                    (MirrorStatusEntryV3.with_speedtest_retries e (Some 3)) n)
        as [_ Hr].
      destruct (MirrorStatusEntryV3.speed_loop net (Z.to_nat 3) _ n)
        as [[r e2] n2].
      cbn [fst snd] in Hr.
      destruct r; [| discriminate].
      destruct (MirrorStatusEntryV3._speed e2); intros H; injection H as <- <- <-;
        right; exact Hr. }
  split; [exact Hb' |].
  split; [intros net2 m; apply SpeedProbe.speed_memo; exact Hset |].
  split.
  - intros He k Hk Htr Hperm. revert Hs. unfold MirrorStatusEntryV3.speed.
    rewrite He, Hbudget.
    set (e1 := MirrorStatusEntryV3.with_speedtest_retries e (Some 3)) in *.
    assert (He1 : MirrorStatusEntryV3._speed e1 = None) by exact He.
    replace (Z.to_nat 3) with (k + S (2 - k))%nat by lia.
    rewrite (@SpeedProbe.speed_loop_transient U net k (S (2 - k)) e1 n Hreq1 He1 Htr).
    cbn [MirrorStatusEntryV3.speed_loop]. rewrite He1, Hreq1.
    pose proof (@SpeedProbe.attempt_permanent (net (n + k)%nat) e1 Hperm) as Hz.
    rewrite (@SpeedProbe.speed_loop_settled U net (2 - k) _ (S (n + k)) _ Hz).
    rewrite Hz. intros H. injection H as <- <- <-. split; [reflexivity | lia].
  - intros He Htr. revert Hs. unfold MirrorStatusEntryV3.speed.
    rewrite He, Hbudget.
    set (e1 := MirrorStatusEntryV3.with_speedtest_retries e (Some 3)) in *.
    assert (He1 : MirrorStatusEntryV3._speed e1 = None) by exact He.
    replace (Z.to_nat 3) with (3 + 0)%nat by lia.
    rewrite (@SpeedProbe.speed_loop_transient U net 3 0 e1 n Hreq1 He1 Htr).
    cbn [MirrorStatusEntryV3.speed_loop]. rewrite He1.
    intros H. injection H as <- <- <-. split; reflexivity.
Qed.

Lemma speed_retry_policy_witness :
  exists v e' n',
    MirrorStatusEntryV3.speed (U := Sample.urllib)
      (fun _ => MirrorStatusEntryV3.ConnectionResetError) Sample.mirror 0%nat
    = (Ok v, e', n')
    /\ MirrorStatusEntryV3._speed e' = Some v.
Proof.
  destruct (@speed_retry_policy Sample.urllib
              (fun _ => MirrorStatusEntryV3.ConnectionResetError)
              Sample.mirror 0%nat (or_introl eq_refl) eq_refl)
    as (v & e' & n' & Hs & _ & Hset & _).
  exists v, e', n'. split; [exact Hs | exact Hset].
Defined.

(** C5, the claim does not hold on an entry whose url has no type, such as
    the local parser builds from the line
    [Server = mirror.example/$repo/os/$arch]: the request is built outside
    the [try] block, so the [ValueError] of its constructor leaves the
    property.  No download is attempted and the speed stays unset, where
    the claim has the malformed url set the speed to 0. *)
Theorem speed_raises_without_url_type (net : nat -> MirrorStatusEntryV3.download) :
  MirrorStatusEntryV3.speed (U := Sample.urllib) net SampleLocal.bare 0%nat
  = (Raise ValueError,
     MirrorStatusEntryV3.with_speedtest_retries SampleLocal.bare (Some 3),
     0%nat)
  /\ MirrorStatusEntryV3._speed
       (MirrorStatusEntryV3.with_speedtest_retries SampleLocal.bare (Some 3))
     = None.
Proof. split; reflexivity. Qed.

(** ** The version check *)

(** C9: the model validator lets a document through only if it is a dict
    whose [version] compares equal to 3, and then unchanged; a document
    whose [version] is anything else, or that has none, makes the
    validator, the validation of the model and the parse of the fetched
    text raise, and the loader then counts the attempt as failed: it logs
    the error, sleeps, and goes on with the attempts left. *)
Theorem check_model_accepts_only_version_3
    {U : UrlLibrary} {V : MirrorStatusListV3.Validation} (data : value) :
  (forall d, MirrorStatusListV3.check_model data = Ok d ->
     d = data
     /\ exists fields v, data = VDict fields
          /\ dict_get fields "version" = Some v /\ eq_int v 3 = true)
  /\ (forall m, MirrorStatusListV3.model_validate data = Ok m ->
      exists fields v, data = VDict fields
        /\ dict_get fields "version" = Some v /\ eq_int v 3 = true)
  /\ ((forall fields v, data = VDict fields ->
         dict_get fields "version" = Some v -> eq_int v 3 = false) ->
      raises (MirrorStatusListV3.check_model data)
      /\ raises (MirrorStatusListV3.model_validate data)
      /\ forall text, MirrorStatusListV3.json_loads text = Ok data ->
           raises (MirrorListHandler._parse_remote_mirror_list text)
           /\ forall w h attempt_nr rest,
                MirrorListHandler.fetch_data_from_url w (MirrorListHandler.fetches h)
                = Ok text ->
                MirrorListHandler.remote_attempts w (attempt_nr :: rest) h
                = MirrorListHandler.remote_attempts w rest
                    (MirrorListHandler.log (MirrorListHandler.Slept (attempt_nr + 1))
                       (MirrorListHandler.log
                          (MirrorListHandler.Debugged "Error while fetching mirror list")
                          (MirrorListHandler.log
                             (MirrorListHandler.Fetched MirrorListHandler.status_url)
                             (MirrorListHandler.mk
                                (MirrorListHandler._status_mappings h)
                                (S (MirrorListHandler.fetches h))
                                (MirrorListHandler.downloads h)
                                (MirrorListHandler.trace h)))))).
Proof.
  assert (Hcheck : forall d, MirrorStatusListV3.check_model data = Ok d ->
     d = data
     /\ exists fields v, data = VDict fields
          /\ dict_get fields "version" = Some v /\ eq_int v 3 = true).
  { intros d. unfold MirrorStatusListV3.check_model.
    destruct data as [| | | | | | fields |]; try discriminate.
    unfold get. destruct (dict_get fields "version") as [v |] eqn:Ev.
    - destruct (eq_int v 3) eqn:E; [| discriminate].
      intros H. injection H as <-. split; [reflexivity |].
      exists fields, v. auto.
    - simpl. discriminate. }
  split; [exact Hcheck |]. split.
  - intros m Hm. unfold MirrorStatusListV3.model_validate in Hm.
    apply bind_ok in Hm. destruct Hm as (d & Hd & _).
    apply Hcheck in Hd. tauto.
  - intros Hbad.
    assert (Hr : raises (MirrorStatusListV3.check_model data)).
    { destruct (MirrorStatusListV3.check_model data) as [d |] eqn:E;
        [| eexists; reflexivity].
      destruct (Hcheck d eq_refl) as (_ & fields & v & -> & Hv & Hv3).
      rewrite (Hbad fields v eq_refl Hv) in Hv3. discriminate. }
    assert (Hm : raises (MirrorStatusListV3.model_validate data)).
    { unfold MirrorStatusListV3.model_validate. destruct Hr as [e ->].
      exists e. reflexivity. }
    split; [exact Hr |]. split; [exact Hm |].
    intros text Htext.
    assert (Hp : raises (MirrorListHandler._parse_remote_mirror_list text)).
    { unfold MirrorListHandler._parse_remote_mirror_list,
        MirrorStatusListV3.model_validate_json.
      rewrite Htext. cbn [bind]. destruct Hm as [e ->]. exists e. reflexivity. }
    split; [exact Hp |].
    intros w h attempt_nr rest Hfetch.
    cbn [MirrorListHandler.remote_attempts]. rewrite Hfetch. cbn [bind].
    destruct Hp as [e ->]. reflexivity.
Qed.

(** ** Unknown regions *)

(** C10: on a loaded handler, asking for a region that is not a key of the
    mapping raises [KeyError]; no list is returned, and nothing is fetched
    or probed. *)
Theorem get_status_by_region_unknown_region
    {U : UrlLibrary} {V : MirrorStatusListV3.Validation}
    (w : MirrorListHandler.world) (region : string) (speed_sort : bool)
    (h : MirrorListHandler.t) (m : MirrorListHandler.mappings) :
  MirrorListHandler._status_mappings h = Some m ->
  dict_get m region = None ->
  MirrorListHandler.get_status_by_region w region speed_sort h = (Raise KeyError, h).
Proof.
  intros Hm Hr.
  unfold MirrorListHandler.get_status_by_region, MirrorListHandler._mappings.
  rewrite Hm. cbv beta iota zeta. rewrite Hm.
  unfold dict_item. rewrite Hr. reflexivity.
Qed.

Lemma get_status_by_region_unknown_region_witness :
  MirrorListHandler.get_status_by_region
    (U := Sample.urllib) (V := SampleWorld.no_validation)
    SampleWorld.dead "Chile" true SampleWorld.loaded
  = (Raise KeyError, SampleWorld.loaded).
Proof.
  exact (@get_status_by_region_unknown_region
           Sample.urllib SampleWorld.no_validation
           SampleWorld.dead "Chile" true SampleWorld.loaded _ eq_refl eq_refl).
Defined.

(** ** Loading: retries, backoff and the local fallback *)

Section Loading.
Context {U : UrlLibrary} {V : MirrorStatusListV3.Validation}.
Import MirrorListHandler Observe.

Lemma trace_log (ev : event) (h : t) : trace (log ev h) = trace h ++ [ev].
Proof. reflexivity. Qed.

(** The loop over the attempt numbers: it answers without raising, after
    [k] failed attempts; it answers [True] when the attempt after them
    succeeded and [False] when no attempt number was left. *)
Lemma remote_attempts_spec (w : world) (nrs : list Z) (h : t) :
  exists (k : nat) (b : bool) (h1 : t),
    remote_attempts w nrs h = (Ok b, h1)
    /\ (k <= List.length nrs)%nat
    /\ trace h1 = trace h ++ flat_map failure_events (firstn k nrs)
                  ++ (if b then [Fetched status_url] else [fallback_event])
    /\ (forall j, (j < k)%nat -> attempt_ok w (fetches h + j) = false)
    /\ (if b then (k < List.length nrs)%nat /\ attempt_ok w (fetches h + k) = true
        else k = List.length nrs)
    /\ fetches h1 = (fetches h + k + (if b then 1 else 0))%nat
    /\ downloads h1 = downloads h.
Proof.
  revert h. induction nrs as [| nr rest IH]; intros h.
  - exists 0%nat, false, (log fallback_event h). cbn [remote_attempts].
    repeat split; try reflexivity; try lia;
      unfold log; cbn [fetches List.length]; lia.
  - cbn [remote_attempts].
    destruct (let* mirrorlist := fetch_data_from_url w (fetches h) in
              _parse_remote_mirror_list mirrorlist) as [m | e] eqn:E.
    + exists 0%nat, true. eexists. split; [reflexivity |].
      cbn [firstn flat_map app List.length set_mappings trace log fetches downloads].
      repeat split; try lia.
      unfold attempt_ok. rewrite Nat.add_0_r, E. reflexivity.
    + set (h' := log (Slept (nr + 1)) _).
      destruct (IH h') as (k & b & h1 & Hrun & Hk & Htr & Hfail & Hb & Hf & Hd).
      exists (S k), b, h1. split; [exact Hrun |].
      assert (Hfh : fetches h' = S (fetches h)) by reflexivity.
      split; [cbn [List.length]; lia |]. split.
      * rewrite Htr. subst h'. rewrite !trace_log. cbn [trace firstn flat_map].
        unfold failure_events at 2. rewrite <- !app_assoc. reflexivity.
      * split.
        -- intros [| j] Hj.
           ++ unfold attempt_ok. rewrite Nat.add_0_r, E. reflexivity.
           ++ replace (fetches h + S j)%nat with (fetches h' + j)%nat by lia.
              apply Hfail. lia.
        -- split.
           ++ destruct b.
              ** destruct Hb as [Hlt Hok]. split; [cbn [List.length]; lia |].
                 replace (fetches h + S k)%nat with (fetches h' + k)%nat by lia.
                 exact Hok.
              ** cbn [List.length]. lia.
           ++ split; [lia | exact Hd].
Qed.
End Loading.

Lemma load_local_mirrors_trace
    {U : UrlLibrary} {V : MirrorStatusListV3.Validation}
    (w : MirrorListHandler.world) (h : MirrorListHandler.t) :
  MirrorListHandler.trace (snd (MirrorListHandler.load_local_mirrors w h))
  = MirrorListHandler.trace h ++ [MirrorListHandler.OpenedLocal].
Proof.
  unfold MirrorListHandler.load_local_mirrors.
  destruct (let* mirrorlist := MirrorListHandler.local_mirrorlist w in
            MirrorListHandler._parse_locale_mirrors mirrorlist); reflexivity.
Qed.

(** C4: when not offline, [load_remote_mirrors] never raises; it makes the
    attempts one after the other and stops at the first that succeeds, so
    at most 3; each of the [k] failed attempts is logged and followed by a
    sleep, the sleeps being 1, 2, 3 seconds in this order; it answers
    [False] exactly when all 3 attempts failed; and [load_mirrors] opens
    the local mirror list once in that case and not at all otherwise. *)
Theorem load_mirrors_retries_then_local
    {U : UrlLibrary} {V : MirrorStatusListV3.Validation}
    (w : MirrorListHandler.world) (h : MirrorListHandler.t) :
  MirrorListHandler.offline w = false ->
  exists (k : nat) (b : bool) (h1 : MirrorListHandler.t) (events : list MirrorListHandler.event),
    MirrorListHandler.load_remote_mirrors w h = (Ok b, h1)
    /\ (k <= 3)%nat
    /\ (forall j, (j < k)%nat ->
          Observe.attempt_ok w (MirrorListHandler.fetches h + j) = false)
    /\ (b = true ->
          (k < 3)%nat
          /\ Observe.attempt_ok w (MirrorListHandler.fetches h + k) = true)
    /\ (b = false <->
          forall j, (j < 3)%nat ->
            Observe.attempt_ok w (MirrorListHandler.fetches h + j) = false)
    /\ MirrorListHandler.trace h1 = MirrorListHandler.trace h ++ events
    /\ events = flat_map Observe.failure_events (firstn k [0; 1; 2])
                ++ (if b then [MirrorListHandler.Fetched MirrorListHandler.status_url]
                    else [Observe.fallback_event])
    /\ Observe.sleeps events = firstn k [1; 2; 3]
    /\ Observe.fetched events = (if b then S k else k)
    /\ MirrorListHandler.load_mirrors w h
       = (if b then (Ok tt, h1) else MirrorListHandler.load_local_mirrors w h1)
    /\ MirrorListHandler.trace (snd (MirrorListHandler.load_mirrors w h))
       = MirrorListHandler.trace h ++ events
         ++ (if b then [] else [MirrorListHandler.OpenedLocal])
    /\ Observe.opened_local
         (events ++ (if b then [] else [MirrorListHandler.OpenedLocal]))
       = (if b then 0 else 1)%nat.
Proof.
  intros Hoff.
  destruct (remote_attempts_spec w (MirrorListHandler.range MirrorListHandler.attempts) h)
    as (k & b & h1 & Hrun & Hk & Htr & Hfail & Hb & _ & _).
  change (MirrorListHandler.range MirrorListHandler.attempts) with [0; 1; 2] in *.
  cbn [List.length] in Hk, Hb.
  exists k, b, h1. eexists.
  split; [exact Hrun |]. split; [exact Hk |]. split; [exact Hfail |].
  split; [intros ->; exact Hb |].
  split.
  { split.
    - intros -> j Hj. apply Hfail. lia.
    - intros Hall. destruct b; [| reflexivity].
      destruct Hb as [Hlt Hok]. rewrite (Hall k Hlt) in Hok. discriminate. }
  split; [exact Htr |]. split; [reflexivity |].
  assert (Hload : MirrorListHandler.load_mirrors w h
       = (if b then (Ok tt, h1) else MirrorListHandler.load_local_mirrors w h1)).
  { unfold MirrorListHandler.load_mirrors. rewrite Hoff.
    change (MirrorListHandler.load_remote_mirrors w h)
      with (MirrorListHandler.remote_attempts w [0; 1; 2] h).
    rewrite Hrun.
    destruct b; reflexivity. }
  assert (Hcases : (k = 0 \/ k = 1 \/ k = 2 \/ k = 3)%nat) by lia.
  split; [| split; [| split; [exact Hload | split]]].
  - destruct Hcases as [-> | [-> | [-> | ->]]]; destruct b; reflexivity.
  - destruct b.
    + destruct Hb as [Hlt _].
      destruct Hcases as [-> | [-> | [-> | ->]]]; try reflexivity; lia.
    + subst k. reflexivity.
  - rewrite Hload. destruct b.
    + cbn [snd]. rewrite Htr, app_nil_r. reflexivity.
    + rewrite load_local_mirrors_trace, Htr, <- app_assoc. reflexivity.
  - destruct Hcases as [-> | [-> | [-> | ->]]]; destruct b; reflexivity.
Qed.

Lemma load_mirrors_retries_then_local_witness :
  exists (k : nat) (b : bool) (h1 : MirrorListHandler.t),
    MirrorListHandler.load_remote_mirrors
      (U := Sample.urllib) (V := SampleWorld.no_validation)
      SampleWorld.dead MirrorListHandler.init = (Ok b, h1)
    /\ (k <= 3)%nat.
Proof.
  destruct (@load_mirrors_retries_then_local
              Sample.urllib SampleWorld.no_validation
              SampleWorld.dead MirrorListHandler.init eq_refl)
    as (k & b & h1 & events & Hrun & Hk & _).
  exists k, b, h1. split; [exact Hrun | exact Hk].
Defined.

(** ** Facts about [sorted] *)

Section SortFacts.
Variables K A : Type.
Variable lt : K -> K -> result bool.

Lemma insert_by_perm (x : K * A) (l r : list (K * A)) :
  insert_by lt x l = Ok r -> Permutation (x :: l) r.
Proof.
  revert r. induction l as [| y ys IH]; intros r; cbn [insert_by].
  - intros H. injection H as <-. apply Permutation_refl.
  - destruct (lt (fst y) (fst x)) as [[|] | e]; cbn [bind]; try discriminate.
    + destruct (insert_by lt x ys) as [r' |] eqn:E; cbn [bind]; [| discriminate].
      intros H. injection H as <-.
      apply perm_trans with (y :: x :: ys); [apply perm_swap |].
      apply perm_skip. apply IH. reflexivity.
    + intros H. injection H as <-. apply Permutation_refl.
Qed.

Lemma sort_by_perm (l r : list (K * A)) :
  sort_by lt l = Ok r -> Permutation l r.
Proof.
  revert r. induction l as [| x xs IH]; intros r; cbn [sort_by].
  - intros H. injection H as <-. apply perm_nil.
  - destruct (sort_by lt xs) as [s |] eqn:E; cbn [bind]; [| discriminate].
    intros H. apply insert_by_perm in H.
    apply perm_trans with (x :: s); [| exact H].
    apply perm_skip. apply IH. reflexivity.
Qed.

(** Where every comparison among the keys at hand answers, so does the
    sort. *)
Lemma insert_by_total (P : K -> Prop) (x : K * A) (l : list (K * A)) :
  (forall a b, P a -> P b -> exists c, lt a b = Ok c) ->
  P (fst x) -> Forall (fun y => P (fst y)) l ->
  exists r, insert_by lt x l = Ok r.
Proof.
  intros Hlt Hx. induction l as [| y ys IH]; intros Hl; cbn [insert_by].
  - eauto.
  - inversion Hl as [| ? ? Hy Hys]; subst.
    destruct (Hlt (fst y) (fst x) Hy Hx) as [c ->]. cbn [bind].
    destruct c; [| eauto].
    destruct (IH Hys) as [r ->]. cbn [bind]. eauto.
Qed.

Lemma sort_by_total (P : K -> Prop) (l : list (K * A)) :
  (forall a b, P a -> P b -> exists c, lt a b = Ok c) ->
  Forall (fun y => P (fst y)) l ->
  exists r, sort_by lt l = Ok r.
Proof.
  intros Hlt. induction l as [| x xs IH]; intros Hl; cbn [sort_by].
  - eauto.
  - inversion Hl as [| ? ? Hx Hxs]; subst.
    destruct (IH Hxs) as [s Hs]. rewrite Hs. cbn [bind].
    apply insert_by_total with (P := P); try assumption.
    exact (Permutation_Forall (sort_by_perm _ Hs) Hxs).
Qed.
End SortFacts.

(** ** Facts about dicts *)

Lemma dict_get_in {V : Type} (d : dict V) (k : string) (v : V) :
  dict_get d k = Some v -> In (k, v) d.
Proof.
  induction d as [| [k0 v0] rest IH]; simpl; [discriminate |].
  destruct (String.eqb_spec k0 k) as [-> | Hk].
  - intros H. injection H as ->. left. reflexivity.
  - intros H. right. apply IH. exact H.
Qed.

Lemma in_dict_get {V : Type} (d : dict V) (k : string) (v : V) :
  NoDup (map fst d) -> In (k, v) d -> dict_get d k = Some v.
Proof.
  induction d as [| [k0 v0] rest IH]; simpl; intros Hnd Hin; [contradiction |].
  inversion Hnd as [| ? ? Hk0 Hrest]; subst.
  destruct Hin as [Heq | Hin].
  - injection Heq as -> ->. rewrite String.eqb_refl. reflexivity.
  - destruct (String.eqb_spec k0 k) as [-> | Hk].
    + exfalso. apply Hk0. apply in_map_iff. exists (k, v). auto.
    + apply IH; assumption.
Qed.

Lemma dict_get_none_keys {V : Type} (d : dict V) (k : string) :
  dict_get d k = None -> ~ In k (map fst d).
Proof.
  induction d as [| [k0 v0] rest IH]; simpl; [tauto |].
  destruct (String.eqb_spec k0 k) as [-> | Hk]; [discriminate |].
  intros H [Heq | Hin]; [congruence | exact (IH H Hin)].
Qed.

(** Two dicts with the same items and no key twice answer alike. *)
Lemma dict_get_perm {V : Type} (a b : dict V) (k : string) :
  Permutation a b -> NoDup (map fst a) -> dict_get a k = dict_get b k.
Proof.
  intros Hp Hnd.
  assert (Hndb : NoDup (map fst b)).
  { apply Permutation_NoDup with (l := map fst a); [| exact Hnd].
    apply Permutation_map. exact Hp. }
  destruct (dict_get a k) as [v |] eqn:Ea.
  - symmetry. apply in_dict_get; [exact Hndb |].
    apply Permutation_in with (l := a); [exact Hp |]. apply dict_get_in. exact Ea.
  - destruct (dict_get b k) as [v |] eqn:Eb; [| reflexivity].
    apply dict_get_in in Eb. apply Permutation_sym in Hp.
    apply (Permutation_in _ Hp) in Eb.
    rewrite (@in_dict_get _ a k v Hnd Eb) in Ea. discriminate.
Qed.

(** A dict built item by item from a list without repeated keys is that
    list. *)
Lemma dict_of_items {V : Type} (l acc : dict V) :
  NoDup (map fst acc ++ map fst l) ->
  fold_left (fun d kv => dict_set d (fst kv) (snd kv)) l acc = acc ++ l.
Proof.
  revert acc. induction l as [| [k v] rest IH]; intros acc Hnd; cbn [fold_left].
  - rewrite app_nil_r. reflexivity.
  - cbn [fst snd]. rewrite dict_set_fresh.
    + rewrite IH.
      * rewrite <- app_assoc. reflexivity.
      * rewrite map_app. cbn [map fst]. rewrite <- app_assoc. exact Hnd.
    + cbn [map fst] in Hnd. apply NoDup_remove_2 in Hnd.
      intros Hin. apply Hnd. apply in_or_app. left. exact Hin.
Qed.

Lemma dict_get_app {V : Type} (d1 d2 : dict V) (k : string) :
  dict_get (d1 ++ d2) k =
  match dict_get d1 k with
  | Some v => Some v
  | None => dict_get d2 k
  end.
Proof.
  induction d1 as [| [k0 v0] rest IH]; simpl; [reflexivity |].
  destruct (String.eqb k0 k); [reflexivity | exact IH].
Qed.

(** ** Rounding a score *)

(** Rounding to the nearest integer, ties to the even one. *)
Lemma py_round_spec (x : Q) :
  let z := MirrorStatusEntryV3.py_round x in
  (inject_Z z - (1 # 2) <= x <= inject_Z z + (1 # 2))%Q
  /\ ((x == inject_Z z - (1 # 2) \/ x == inject_Z z + (1 # 2))%Q ->
      Z.even z = true).
Proof.
  unfold MirrorStatusEntryV3.py_round.
  pose proof (Qfloor_le x) as Hlo. pose proof (Qlt_floor x) as Hhi.
  set (f := Qfloor x) in *.
  assert (Hf1 : inject_Z (f + 1) = (inject_Z f + 1)%Q) by apply inject_Z_plus.
  rewrite Hf1 in Hhi.
  destruct (x - inject_Z f ?= 1 # 2)%Q eqn:Ec; cbv zeta.
  - apply Qeq_alt in Ec.
    destruct (Z.even f) eqn:Ev.
    + split; [split; lra |]. intros _. exact Ev.
    + rewrite Hf1. split; [split; lra |]. intros _.
      rewrite Z.even_add, Ev. reflexivity.
  - apply Qlt_alt in Ec. split; [split; lra |]. intros [H | H]; lra.
  - apply Qgt_alt in Ec. rewrite Hf1. split; [split; lra |].
    intros [H | H]; lra.
Qed.


(** ** The remote feed *)

Section RemoteFeed.
Import MirrorStatusEntryV3 MirrorListHandler Feed.

Lemma dict_get_setdefault {V : Type} (d : dict V) (c k : string) (v : V) :
  dict_get (dict_setdefault d c v) k =
  match dict_get d k with
  | Some y => Some y
  | None => if String.eqb c k then Some v else None
  end.
Proof.
  unfold dict_setdefault, dict_mem.
  destruct (dict_get d c) as [y |] eqn:Ec.
  - destruct (dict_get d k) as [z |] eqn:Ek; [reflexivity |].
    destruct (String.eqb_spec c k) as [-> | Hck]; [congruence | reflexivity].
  - rewrite dict_get_app. simpl. destruct (dict_get d k); reflexivity.
Qed.

Lemma dict_get_dict_append (d : mappings) (c k : string) (x : entry) :
  dict_get (dict_append d c x) k =
  if String.eqb c k then option_map (fun es => es ++ [x]) (dict_get d k)
  else dict_get d k.
Proof.
  induction d as [| [k0 v0] rest IH]; simpl.
  - destruct (String.eqb c k); reflexivity.
  - destruct (String.eqb_spec k0 c) as [-> | Hk0]; simpl.
    + destruct (String.eqb_spec c k) as [-> | Hck]; reflexivity.
    + rewrite IH. destruct (String.eqb_spec k0 k) as [-> | Hk0k].
      * destruct (String.eqb_spec c k) as [-> | Hck]; [congruence | reflexivity].
      * reflexivity.
Qed.

Lemma dict_append_keys (d : mappings) (c : string) (x : entry) :
  map fst (dict_append d c x) = map fst d.
Proof.
  induction d as [| [k0 v0] rest IH]; simpl; [reflexivity |].
  destruct (String.eqb k0 c); simpl; [reflexivity | rewrite IH; reflexivity].
Qed.

Lemma dict_setdefault_nodup {V : Type} (d : dict V) (c : string) (v : V) :
  NoDup (map fst d) -> NoDup (map fst (dict_setdefault d c v)).
Proof.
  intros Hnd. unfold dict_setdefault, dict_mem.
  destruct (dict_get d c) eqn:Ec; [exact Hnd |].
  rewrite map_app. simpl.
  apply NoDup_app_remove_l with (l := []). simpl.
  apply Permutation_NoDup with (l := c :: map fst d).
  - apply Permutation_cons_append.
  - constructor; [apply dict_get_none_keys; exact Ec | exact Hnd].
Qed.

Lemma remote_step_nodup (P : mappings) (e : entry) :
  NoDup (map fst P) -> NoDup (map fst (remote_step P e)).
Proof.
  intros Hnd. unfold remote_step.
  destruct (bad_criteria e); [exact Hnd |].
  destruct (startswith _ "http"); [| exact Hnd].
  rewrite dict_append_keys. apply dict_setdefault_nodup. exact Hnd.
Qed.

Lemma fold_remote_step_nodup (l : list entry) (P : mappings) :
  NoDup (map fst P) -> NoDup (map fst (fold_left remote_step l P)).
Proof.
  revert P. induction l as [| e es IH]; intros P Hnd; simpl; [exact Hnd |].
  apply IH. apply remote_step_nodup. exact Hnd.
Qed.

Lemma placed_url (e : entry) : url (placed e) = url e.
Proof. unfold placed. destruct (String.eqb (country e) ""); reflexivity. Qed.

Lemma below_100 (s : Q) :
  Qle_bool 100 s = negb (match (s ?= 100)%Q with Lt => true | _ => false end).
Proof.
  destruct (s ?= 100)%Q eqn:E; cbn [negb].
  - apply Qeq_alt in E. apply Qle_bool_iff. rewrite E. apply Qle_refl.
  - apply Qlt_alt in E. destruct (Qle_bool 100 s) eqn:El; [| reflexivity].
    apply Qle_bool_iff in El. exfalso. exact (Qlt_not_le _ _ E El).
  - apply Qgt_alt in E. apply Qle_bool_iff. apply Qlt_le_weak. exact E.
Qed.

(** The loop keeps a mirror exactly when the mirror is one to keep: what
    the three criteria handed to [any] and the test on the url let through
    is what [accepted] describes. *)
Lemma accepted_code (e : entry) :
  accepted e = negb (bad_criteria e) && startswith (url e) "http".
Proof.
  unfold accepted, bad_criteria. cbn [existsb].
  destruct (active e), (last_sync e) as [t |], (score e) as [s |];
    cbn [negb andb orb]; try reflexivity.
  rewrite below_100, orb_false_r, negb_involutive. reflexivity.
Qed.

(** What one turn of the loop does to the list of a region. *)
Lemma remote_step_get (P : mappings) (e : entry) (k : string) :
  dict_get (remote_step P e) k =
  if accepted e && String.eqb (country (placed e)) k
  then Some (match dict_get P k with
             | Some es0 => es0 ++ [placed e]
             | None => [placed e]
             end)
  else dict_get P k.
Proof.
  unfold remote_step. rewrite accepted_code.
  destruct (bad_criteria e); cbn [negb andb]; [reflexivity |].
  change (if String.eqb (country e) "" then with_country e "Worldwide" else e)
    with (placed e).
  rewrite placed_url.
  destruct (startswith (url e) "http"); cbn [andb]; [| reflexivity].
  rewrite dict_get_dict_append, dict_get_setdefault.
  destruct (String.eqb (country (placed e)) k); destruct (dict_get P k);
    reflexivity.
Qed.

Lemma region_entries_cons (e : entry) (l : list entry) (k : string) :
  region_entries (e :: l) k =
  (if accepted e && String.eqb (country (placed e)) k then [placed e] else [])
  ++ region_entries l k.
Proof.
  unfold region_entries. cbn [filter].
  destruct (accepted e); cbn [andb map filter]; [| reflexivity].
  destruct (String.eqb (country (placed e)) k); reflexivity.
Qed.

(** What the whole loop leaves under a region name. *)
Lemma fold_remote_step_get (l : list entry) (P : mappings) (k : string) :
  dict_get (fold_left remote_step l P) k =
  match dict_get P k, region_entries l k with
  | None, [] => None
  | None, es => Some es
  | Some es0, es => Some (es0 ++ es)
  end.
Proof.
  revert P. induction l as [| e es IH]; intros P; cbn [fold_left].
  - cbn. destruct (dict_get P k); [rewrite app_nil_r |]; reflexivity.
  - rewrite IH, remote_step_get, region_entries_cons.
    destruct (accepted e && String.eqb (country (placed e)) k); cbn [app].
    + destruct (dict_get P k); [rewrite <- app_assoc |]; reflexivity.
    + reflexivity.
Qed.

(** Ordering the regions changes no region's list and cannot raise. *)
Lemma sort_regions_get (P : mappings) :
  NoDup (map fst P) ->
  exists m, sort_regions P = Ok m
            /\ Permutation P m
            /\ forall k, dict_get m k = dict_get P k.
Proof.
  intros Hnd. unfold sort_regions.
  destruct (@sort_by_total string (string * list entry) str_lt (fun _ => True)
              (map (fun kv => (fst kv, kv)) P)) as [items Hitems].
  { intros a b _ _. eexists. reflexivity. }
  { apply Forall_forall. intros; exact I. }
  rewrite Hitems. cbn [bind].
  assert (Hperm : Permutation P (map snd items)).
  { apply sort_by_perm in Hitems.
    apply (Permutation_map snd) in Hitems.
    rewrite map_map in Hitems. cbn [snd] in Hitems. rewrite map_id in Hitems.
    exact Hitems. }
  assert (Hnd' : NoDup (map fst (map snd items))).
  { apply Permutation_NoDup with (l := map fst P); [| exact Hnd].
    apply Permutation_map. exact Hperm. }
  rewrite dict_of_items by exact Hnd'. cbn [app].
  eexists. split; [reflexivity |]. split; [exact Hperm |].
  intros k. symmetry. apply dict_get_perm; assumption.
Qed.

Lemma placed_facts (e : entry) :
  active (placed e) = active e
  /\ last_sync (placed e) = last_sync e
  /\ score (placed e) = score e
  /\ country (placed e) <> ""
  /\ (country e = "" -> placed e = with_country e "Worldwide")
  /\ (country e <> "" -> placed e = e).
Proof.
  unfold placed. destruct (String.eqb_spec (country e) "") as [He | He].
  - repeat split; try reflexivity; try discriminate. intros H. contradiction.
  - repeat split; try reflexivity; try assumption. intros H. contradiction.
Qed.

Lemma accepted_facts (e : entry) :
  accepted e = true ->
  active e = true
  /\ last_sync e <> None
  /\ (exists s, score e = Some s /\ (s < 100)%Q)
  /\ startswith (url e) "http" = true.
Proof.
  unfold accepted. intros H.
  apply andb_true_iff in H. destruct H as [H Hurl].
  apply andb_true_iff in H. destruct H as [H Hscore].
  apply andb_true_iff in H. destruct H as [Hact Hsync].
  split; [exact Hact |].
  split; [destruct (last_sync e); [discriminate | discriminate] |].
  split; [| exact Hurl].
  destruct (score e) as [s |]; [| discriminate].
  exists s. split; [reflexivity |].
  apply Qlt_alt. destruct (s ?= 100)%Q; [discriminate | reflexivity | discriminate].
Qed.


(** The parse of a validated document answers, and under each region name
    it holds the kept mirrors of that region. *)
Lemma remote_regions_char (mirror_status : MirrorStatusListV3.t) :
  exists m,
    remote_regions mirror_status = Ok m
    /\ forall region,
         dict_get m region =
         match region_entries (MirrorStatusListV3.urls mirror_status) region with
         | [] => None
         | es => Some es
         end.
Proof.
  unfold remote_regions.
  set (P := fold_left remote_step (MirrorStatusListV3.urls mirror_status) []).
  assert (HndP : NoDup (map fst P)).
  { apply fold_remote_step_nodup. constructor. }
  destruct (@sort_regions_get P HndP) as (m & Hm & _ & Hget).
  exists m. split; [exact Hm |].
  intros region. rewrite Hget. unfold P. rewrite fold_remote_step_get.
  cbn [dict_get]. destruct (region_entries _ region); reflexivity.
Qed.

Lemma region_entries_sound (urls : list entry) (region : string) (e : entry) :
  In e (region_entries urls region) ->
  exists e0, In e0 urls /\ accepted e0 = true /\ e = placed e0
             /\ country e = region.
Proof.
  unfold region_entries. intros Hin. apply filter_In in Hin.
  destruct Hin as [Hin Hc]. apply in_map_iff in Hin.
  destruct Hin as (e0 & <- & Hin0). apply filter_In in Hin0.
  destruct Hin0 as [Hin0 Hacc].
  exists e0. repeat split; try assumption. apply String.eqb_eq. exact Hc.
Qed.

Lemma some_region_entries (urls : list entry) (region : string) (es : list entry) :
  match region_entries urls region with
  | [] => None
  | x :: xs => Some (x :: xs)
  end = Some es ->
  es = region_entries urls region.
Proof.
  destruct (region_entries urls region); [discriminate |].
  intros H. injection H as <-. reflexivity.
Qed.

(** Every mirror the remote parse stores has a score. *)
Lemma remote_regions_scored (mirror_status : MirrorStatusListV3.t)
    (m : mappings) (region : string) (es : list entry) (e : entry) :
  remote_regions mirror_status = Ok m ->
  dict_get m region = Some es -> In e es -> score e <> None.
Proof.
  intros Hm Hes Hin.
  destruct (remote_regions_char mirror_status) as (m' & Hm' & Hchar).
  rewrite Hm in Hm'. injection Hm' as <-.
  rewrite Hchar in Hes. apply some_region_entries in Hes. subst es.
  apply region_entries_sound in Hin. destruct Hin as (e0 & _ & Hacc & -> & _).
  destruct (accepted_facts e0 Hacc) as (_ & _ & (s & Hs & _) & _).
  destruct (placed_facts e0) as (_ & _ & Ps & _).
  rewrite Ps, Hs. discriminate.
Qed.
End RemoteFeed.




(** ** The sorted view of a region *)

(** The sort puts the keys in ascending order and keeps the input order of
    equal keys, for every order [le] and equality test [keq] that fit the
    comparison [lt]. *)
Section SortOrder.
Variables K A : Type.
Variable lt : K -> K -> result bool.
Variable le : K -> K -> Prop.
Variable keq : K -> K -> bool.
Hypothesis lt_le : forall a b, lt a b = Ok true -> le a b.
Hypothesis not_lt_le : forall a b, lt a b = Ok false -> le b a.
Hypothesis le_trans : forall a b c, le a b -> le b c -> le a c.
Hypothesis lt_not_eq :
  forall a b k, lt a b = Ok true -> keq a k = true -> keq b k = false.

Let le_fst (x y : K * A) : Prop := le (fst x) (fst y).
Let has_key (k : K) (x : K * A) : bool := keq (fst x) k.

Lemma insert_by_sorted (x : K * A) (l r : list (K * A)) :
  StronglySorted le_fst l -> insert_by lt x l = Ok r -> StronglySorted le_fst r.
Proof.
  revert r. induction l as [| y ys IH]; intros r Hs; cbn [insert_by].
  - intros H. injection H as <-. repeat constructor.
  - inversion Hs as [| ? ? Hys Hall]; subst.
    destruct (lt (fst y) (fst x)) as [[|] | e] eqn:E; cbn [bind]; try discriminate.
    + destruct (insert_by lt x ys) as [r' |] eqn:E'; cbn [bind]; [| discriminate].
      intros H. injection H as <-. constructor; [apply IH; auto |].
      apply (Permutation_Forall (insert_by_perm _ _ _ E')).
      constructor; [apply lt_le; exact E | exact Hall].
    + intros H. injection H as <-. constructor; [exact Hs |].
      constructor; [apply not_lt_le; exact E |].
      apply Forall_impl with (P := le_fst y); [| exact Hall].
      intros z Hz. apply le_trans with (fst y); [| exact Hz].
      apply not_lt_le. exact E.
Qed.

Lemma sort_by_sorted (l r : list (K * A)) :
  sort_by lt l = Ok r -> StronglySorted le_fst r.
Proof.
  revert r. induction l as [| x xs IH]; intros r; cbn [sort_by].
  - intros H. injection H as <-. constructor.
  - destruct (sort_by lt xs) as [s |] eqn:E; cbn [bind]; [| discriminate].
    apply insert_by_sorted. apply IH. reflexivity.
Qed.

Lemma insert_by_stable (k : K) (x : K * A) (l r : list (K * A)) :
  insert_by lt x l = Ok r -> filter (has_key k) r = filter (has_key k) (x :: l).
Proof.
  revert r. induction l as [| y ys IH]; intros r; cbn [insert_by].
  - intros H. injection H as <-. reflexivity.
  - destruct (lt (fst y) (fst x)) as [[|] | e] eqn:E; cbn [bind]; try discriminate.
    + destruct (insert_by lt x ys) as [r' |] eqn:E'; cbn [bind]; [| discriminate].
      intros H. injection H as <-. cbn [filter]. rewrite (IH r' eq_refl).
      cbn [filter].
      change (has_key k y) with (keq (fst y) k).
      change (has_key k x) with (keq (fst x) k).
      destruct (keq (fst y) k) eqn:Ey; [| reflexivity].
      rewrite (lt_not_eq E Ey). reflexivity.
    + intros H. injection H as <-. reflexivity.
Qed.

Lemma sort_by_stable (k : K) (l r : list (K * A)) :
  sort_by lt l = Ok r -> filter (has_key k) r = filter (has_key k) l.
Proof.
  revert r. induction l as [| x xs IH]; intros r; cbn [sort_by].
  - intros H. injection H as <-. reflexivity.
  - destruct (sort_by lt xs) as [s |] eqn:E; cbn [bind]; [| discriminate].
    intros H. rewrite (insert_by_stable k _ _ H). cbn [filter].
    rewrite (IH s eq_refl). reflexivity.
Qed.
End SortOrder.

Section KeyOrder.
Import MirrorListHandler Order.

Lemma key_lt_le (a b : option Q * Q) : key_lt a b = Ok true -> key_le a b.
Proof.
  unfold key_lt, key_le. destruct a as [[x |] sa], b as [[y |] sb]; cbn [fst snd];
    try discriminate.
  - destruct (Qeq_bool x y) eqn:Exy; intros H; injection H as H;
      apply negb_true_iff in H.
    + right. split; [apply Qeq_bool_iff; exact Exy |].
      apply Qlt_le_weak, Qnot_le_lt. intros Hle.
      apply Qle_bool_iff in Hle. congruence.
    + left. apply Qnot_le_lt. intros Hle. apply Qle_bool_iff in Hle. congruence.
  - intros H. injection H as H. apply negb_true_iff in H.
    apply Qlt_le_weak, Qnot_le_lt. intros Hle. apply Qle_bool_iff in Hle. congruence.
Qed.

Lemma key_not_lt_le (a b : option Q * Q) : key_lt a b = Ok false -> key_le b a.
Proof.
  unfold key_lt, key_le. destruct a as [[x |] sa], b as [[y |] sb]; cbn [fst snd];
    try discriminate.
  - destruct (Qeq_bool x y) eqn:Exy; intros H; injection H as H;
      apply negb_false_iff in H; apply Qle_bool_iff in H.
    + right. split; [apply Qeq_sym, Qeq_bool_iff; exact Exy | exact H].
    + left. apply Qle_lt_or_eq in H. destruct H as [H | H]; [exact H |].
      apply Qeq_sym, Qeq_bool_iff in H. congruence.
  - intros H. injection H as H. apply negb_false_iff in H.
    apply Qle_bool_iff. exact H.
Qed.

Lemma key_le_trans (a b c : option Q * Q) : key_le a b -> key_le b c -> key_le a c.
Proof.
  unfold key_le. destruct a as [[x |] sa], b as [[y |] sb], c as [[z |] sc];
    cbn [fst snd]; try tauto.
  - intros [H1 | [H1 H1']] [H2 | [H2 H2']].
    + left. apply Qlt_trans with y; assumption.
    + left. rewrite <- H2. exact H1.
    + left. rewrite H1. exact H2.
    + right. split; [rewrite H1; exact H2 | apply Qle_trans with sb; assumption].
  - apply Qle_trans.
Qed.

Lemma key_lt_not_eq (a b k : option Q * Q) :
  key_lt a b = Ok true -> key_eqb a k = true -> key_eqb b k = false.
Proof.
  intros Hlt Ha. destruct (key_eqb b k) eqn:Hb; [exfalso | reflexivity].
  revert Hlt Ha Hb. unfold key_lt, key_eqb.
  destruct a as [[x |] sa], b as [[y |] sb], k as [[z |] sk]; cbn [fst snd];
    try discriminate.
  - intros Hlt Ha Hb.
    apply andb_true_iff in Ha, Hb. destruct Ha as [Ha Ha'], Hb as [Hb Hb'].
    apply Qeq_bool_iff in Ha, Ha', Hb, Hb'.
    assert (Hxy : Qeq_bool x y = true).
    { apply Qeq_bool_iff. rewrite Ha, Hb. reflexivity. }
    rewrite Hxy in Hlt. injection Hlt as Hlt. apply negb_true_iff in Hlt.
    assert (Hle : Qle_bool sb sa = true).
    { apply Qle_bool_iff. rewrite Ha', Hb'. apply Qle_refl. }
    congruence.
  - intros Hlt Ha Hb. apply Qeq_bool_iff in Ha, Hb.
    injection Hlt as Hlt. apply negb_true_iff in Hlt.
    assert (Hle : Qle_bool sb sa = true).
    { apply Qle_bool_iff. rewrite Ha, Hb. apply Qle_refl. }
    congruence.
Qed.

(** Keys whose scores are all present, or all absent, can be compared. *)
Lemma key_lt_uniform (a b : option Q * Q) :
  (fst a = None <-> fst b = None) -> exists c, key_lt a b = Ok c.
Proof.
  unfold key_lt. destruct a as [[x |] sa], b as [[y |] sb]; cbn [fst snd];
    intros H.
  - destruct (Qeq_bool x y); eauto.
  - exfalso. destruct H as [_ H]. discriminate (H eq_refl).
  - exfalso. destruct H as [H _]. discriminate (H eq_refl).
  - eauto.
Qed.
End KeyOrder.

Section Probing.
Context {U : UrlLibrary}.
Import MirrorStatusEntryV3 MirrorListHandler Order.

Lemma attempt_same (d : download) (e : entry) :
  same_mirror e (attempt d e) /\ score (attempt d e) = score e.
Proof.
  unfold same_mirror.
  destruct d as [size [tm |] | | | |]; cbn [attempt];
    try (destruct (Qeq_bool tm 0)); split; reflexivity.
Qed.

Lemma speed_loop_same (net : nat -> download) (r : nat) (e : entry) (n : nat) :
  same_mirror e (snd (fst (speed_loop net r e n)))
  /\ score (snd (fst (speed_loop net r e n))) = score e.
Proof.
  revert e n. induction r as [| r IH]; intros e n; cbn [speed_loop].
  - split; reflexivity.
  - destruct (_speed e); [split; reflexivity |].
    destruct (Request (probe_url e)); [| split; reflexivity].
    destruct (IH (attempt (net n) e) (S n)) as [Hs Hsc].
    destruct (attempt_same (net n) e) as [Ha Hasc].
    unfold same_mirror in *. split; [| congruence].
    rewrite Ha. exact Hs.
Qed.

(** A read of [speed] changes nothing of a mirror but what is probed,
    whether it returns or raises. *)
Lemma speed_same (net : nat -> download) (e : entry) (n : nat) :
  same_mirror e (snd (fst (speed net e n)))
  /\ score (snd (fst (speed net e n))) = score e.
Proof.
  unfold speed. destruct (_speed e) eqn:He; [split; reflexivity |].
  set (e1 := with_speedtest_retries e _).
  destruct (speed_loop_same net (Z.to_nat (retry_budget (_speedtest_retries e))) e1 n)
    as [Hs Hsc].
  destruct (speed_loop net _ e1 n) as [[r e2] n2]. cbn [fst snd] in *.
  assert (H1 : same_mirror e e1) by reflexivity.
  assert (H2 : score e1 = score e) by reflexivity.
  unfold same_mirror in *.
  destruct r; [| split; [rewrite H1, Hs; reflexivity | cbn; congruence]].
  destruct (_speed e2); cbn [fst snd];
    (split; [rewrite H1, Hs; reflexivity | cbn; congruence]).
Qed.

(** The mirrors as computing the keys leaves them, whether every read
    returned or one raised. *)
Lemma keys_same (net : nat -> download) (l : list entry) (n : nat) :
  Forall2 same_mirror l (snd (fst (keys net l n)))
  /\ map score (snd (fst (keys net l n))) = map score l.
Proof.
  assert (Hrefl : forall l0 : list entry, Forall2 same_mirror l0 l0).
  { induction l0; constructor; [reflexivity | assumption]. }
  revert n. induction l as [| e es IH]; intros n; cbn [keys].
  - split; [constructor | reflexivity].
  - pose proof (speed_same net e n) as Hsame.
    destruct (speed net e n) as [[r e'] n1]. cbn [fst snd] in Hsame.
    destruct Hsame as [Hs Hsc].
    destruct r as [v | err]; cbn [fst snd map].
    + specialize (IH n1). destruct (keys net es n1) as [[rs es'] n2].
      cbn [fst snd map] in *. destruct IH as [Hf2 Hscores].
      split; [constructor; assumption | rewrite Hsc, Hscores; reflexivity].
    + split; [constructor; [exact Hs | apply Hrefl] | rewrite Hsc; reflexivity].
Qed.

(** The keys as [sorted] computes them when every request can be built:
    every mirror is probed in turn and paired with its key. *)
Lemma keys_spec (net : nat -> download) (l : list entry) (n : nat) :
  Forall (fun e => Request (probe_url e) = Ok tt) l ->
  exists dec,
    fst (fst (keys net l n)) = Ok dec
    /\ snd (fst (keys net l n)) = map snd dec
    /\ dec = map (fun e => (key_of e, e)) (map snd dec)
    /\ Forall (fun e => exists v, _speed e = Some v) (map snd dec).
Proof.
  intros Hreq. revert n.
  induction Hreq as [| e es He Hes IH]; intros n; cbn [keys].
  - exists []. cbn. repeat split; constructor.
  - destruct (@SpeedProbe.speed_result U net e n He)
      as (v & e' & n1 & Hs & Hv & _).
    rewrite Hs.
    destruct (IH n1) as (dec & Hok & Hsnd & Hdec & Hall).
    destruct (keys net es n1) as [[rs es'] n2]. cbn [fst snd] in *.
    subst rs es'. cbn [bind fst snd].
    exists (((score e', v), e') :: dec). cbn [map fst snd].
    repeat split.
    + rewrite <- Hdec. unfold key_of. rewrite Hv. reflexivity.
    + constructor; [eauto | assumption].
Qed.

Lemma uniform_scores_map (l l' : list entry) :
  map score l' = map score l -> uniform_scores l -> uniform_scores l'.
Proof.
  intros Hmap [Hnone | Hsome]; [left | right]; intros e He.
  - assert (In (score e) (map score l)) as Hin.
    { rewrite <- Hmap. apply in_map. exact He. }
    apply in_map_iff in Hin. destruct Hin as (e0 & <- & Hin0).
    apply Hnone. exact Hin0.
  - assert (In (score e) (map score l)) as Hin.
    { rewrite <- Hmap. apply in_map. exact He. }
    apply in_map_iff in Hin. destruct Hin as (e0 & Heq & Hin0).
    rewrite <- Heq. apply Hsome. exact Hin0.
Qed.

(** The sort of the keys of a region with uniform scores answers. *)
Lemma sort_keys_total (l : list entry) :
  uniform_scores l ->
  exists s, sort_by key_lt (map (fun e => (key_of e, e)) l) = Ok s.
Proof.
  intros [Hnone | Hsome].
  - apply sort_by_total with (P := fun k : option Q * Q => fst k = None).
    + intros a b Ha Hb. apply key_lt_uniform. rewrite Ha, Hb. tauto.
    + apply Forall_forall. intros x Hx. apply in_map_iff in Hx.
      destruct Hx as (e & <- & He). apply Hnone. exact He.
  - apply sort_by_total with (P := fun k : option Q * Q => fst k <> None).
    + intros a b Ha Hb. apply key_lt_uniform. tauto.
    + apply Forall_forall. intros x Hx. apply in_map_iff in Hx.
      destruct Hx as (e & <- & He). apply Hsome. exact He.
Qed.
End Probing.

(** ** The local mirror list *)

Section TextFacts.

Lemma replace_no_occurrence (old new s : string) :
  Grammar.occurs old s = false -> replace_from old new 0 s = s.
Proof.
  induction s as [| c rest IH]; cbn [Grammar.occurs replace_from]; intros H.
  - reflexivity.
  - apply orb_false_iff in H. destruct H as [Hp Ho].
    rewrite Hp, (IH Ho). reflexivity.
Qed.

Lemma prefix_cons_inv (a : ascii) (p s : string) :
  String.prefix (String a p) s = true ->
  exists rest, s = String a rest /\ String.prefix p rest = true.
Proof.
  destruct s as [| b rest]; cbn [String.prefix]; [discriminate |].
  destruct (ascii_dec a b) as [<- | Hab]; [| discriminate].
  intros H. exists rest. split; [reflexivity | exact H].
Qed.

(** A line that begins with the region marker, taken apart. *)
Lemma region_line_inv (line : string) :
  startswith line "## " = true ->
  exists rest, line = String "#" (String "#" (String " " rest)).
Proof.
  unfold startswith. intros H.
  apply prefix_cons_inv in H. destruct H as (r1 & -> & H).
  apply prefix_cons_inv in H. destruct H as (r2 & -> & H).
  apply prefix_cons_inv in H. destruct H as (r3 & -> & _).
  exists r3. reflexivity.
Qed.

(** On a line that begins with the region marker, removing the marker
    everywhere leaves what removing it everywhere leaves of the remainder. *)
Lemma replace_region_marker (line : string) :
  startswith line "## " = true ->
  replace line "## " "" = replace_from "## " "" 0 (drop 3 line).
Proof.
  intros H. destruct (region_line_inv line H) as (rest & ->).
  unfold replace, startswith in *. cbn [replace_from]. rewrite H. reflexivity.
Qed.

Lemma region_line_is_no_server_line (line : string) :
  startswith line "## " = true -> startswith line "Server = " = false.
Proof.
  intros H. destruct (region_line_inv line H) as (rest & ->). reflexivity.
Qed.

Lemma removeprefix_drop (s p : string) :
  startswith s p = true -> removeprefix s p = drop (String.length p) s.
Proof. unfold startswith, removeprefix. intros ->. reflexivity. Qed.

Lemma rstrip_idempotent (s : string) : rstrip (rstrip s) = rstrip s.
Proof.
  induction s as [| c rest IH]; cbn [rstrip]; [reflexivity |].
  destruct (rstrip rest) as [| d r] eqn:E.
  - destruct (is_space c) eqn:Hc; cbn [rstrip]; [reflexivity |].
    rewrite Hc. reflexivity.
  - cbn [rstrip]. cbn [rstrip] in IH. rewrite IH. reflexivity.
Qed.

Lemma rstrip_tail (c : ascii) (rest : string) :
  rstrip (String c rest) = String c rest ->
  (rest = EmptyString /\ is_space c = false)
  \/ (rest <> EmptyString /\ rstrip rest = rest).
Proof.
  cbn [rstrip]. destruct (rstrip rest) as [| d r] eqn:E.
  - destruct (is_space c) eqn:Hc; [discriminate |].
    intros H. injection H as <-. left. split; reflexivity.
  - intros H. injection H as <-. right. split; [discriminate | reflexivity].
Qed.

Lemma rstrip_lstrip (s : string) : rstrip s = s -> rstrip (lstrip s) = lstrip s.
Proof.
  induction s as [| c rest IH]; intros H; [reflexivity |].
  cbn [lstrip]. destruct (is_space c) eqn:Hc; [| exact H].
  destruct (rstrip_tail H) as [[-> Hn] | [_ Hr]]; [reflexivity | exact (IH Hr)].
Qed.

Lemma rstrip_strip (s : string) : rstrip (strip s) = strip s.
Proof. unfold strip. apply rstrip_lstrip. apply rstrip_idempotent. Qed.

Lemma lstrip_nonempty (s : string) :
  rstrip s = s -> s <> EmptyString -> lstrip s <> EmptyString.
Proof.
  induction s as [| c rest IH]; intros H Hne; [contradiction |].
  cbn [lstrip]. destruct (is_space c) eqn:Hc; [| discriminate].
  destruct (rstrip_tail H) as [[_ Hn] | [Hr Hrr]]; [congruence |].
  exact (IH Hrr Hr).
Qed.

(** The name of an opened region is never empty: a trimmed line that
    begins with the marker goes on after it, and ends on a character that
    trimming keeps. *)
Lemma region_name_nonempty (line : string) :
  startswith (strip line) "## " = true ->
  strip (drop 3 (strip line)) <> EmptyString.
Proof.
  pose proof (rstrip_strip line) as Hr. revert Hr.
  generalize (strip line) as t. intros t Hr Hp.
  destruct (region_line_inv t Hp) as (rest & ->). cbn [drop].
  destruct (rstrip_tail Hr) as [[H _] | [_ Hr1]]; [discriminate |].
  destruct (rstrip_tail Hr1) as [[H _] | [_ Hr2]]; [discriminate |].
  destruct (rstrip_tail Hr2) as [[_ H] | [Hne Hr3]]; [discriminate H |].
  unfold strip. rewrite Hr3. apply lstrip_nonempty; assumption.
Qed.
End TextFacts.

Section LocalList.
Context {U : UrlLibrary}.
Import MirrorStatusEntryV3 MirrorListHandler.

Lemma dict_mem_setdefault {V : Type} (d : dict V) (k : string) (v : V) :
  dict_mem (dict_setdefault d k v) k = true.
Proof.
  unfold dict_mem. rewrite dict_get_setdefault, String.eqb_refl.
  destruct (dict_get d k); reflexivity.
Qed.

Lemma dict_mem_dict_append (d : mappings) (c k : string) (x : entry) :
  dict_mem (dict_append d c x) k = dict_mem d k.
Proof.
  unfold dict_mem. rewrite dict_get_dict_append.
  destruct (String.eqb c k); destruct (dict_get d k); reflexivity.
Qed.

Lemma dict_setdefault_present {V : Type} (d : dict V) (k : string) (v : V) :
  dict_mem d k = true -> dict_setdefault d k v = d.
Proof. unfold dict_setdefault. intros ->. reflexivity. Qed.

Lemma dict_item_present {V : Type} (d : dict V) (k : string) :
  dict_mem d k = true -> exists v, dict_item d k = Ok v.
Proof.
  unfold dict_mem, dict_item. destruct (dict_get d k); [eauto | discriminate].
Qed.

(** One line read by the loop and by the grammar. *)
Lemma locale_step_read_line (st : mappings * string)
    (gst : mappings * option string) (line : string) :
  Grammar.agree st gst -> Grammar.single_marker line ->
  Grammar.agree_results (locale_step st line) (Grammar.read_line gst line).
Proof.
  destruct st as [ml cr], gst as [regions current].
  intros [Hml Hcur] Hsingle. cbn [fst snd] in Hml, Hcur. subst regions.
  unfold locale_step, Grammar.read_line, Grammar.single_marker in *.
  change Grammar.region_marker with "## " in *.
  change Grammar.server_marker with "Server = " in *.
  change Grammar.placeholder_suffix with "$repo/os/$arch".
  change (String.length "## ") with 3%nat in *.
  change (String.length "Server = ") with 9%nat.
  set (t := strip line) in *.
  destruct (startswith t "## ") eqn:Hregion.
  - rewrite (region_line_is_no_server_line t Hregion).
    rewrite (replace_region_marker t Hregion).
    rewrite (replace_no_occurrence "## " "" _ (Hsingle eq_refl)).
    split; [reflexivity |]. cbn [fst snd].
    split; [reflexivity |]. split; [apply region_name_nonempty; exact Hregion |].
    apply dict_mem_setdefault.
  - destruct (startswith t "Server = ") eqn:Hserver.
    + rewrite (removeprefix_drop t "Server = " Hserver).
      change (String.length "Server = ") with 9%nat.
      destruct current as [r |].
      * destruct Hcur as (-> & Hne & Hmem).
        apply String.eqb_neq in Hne. rewrite Hne.
        rewrite (dict_setdefault_present ml r [] Hmem).
        destruct (urlparse (drop 9 t)) as [parsed | e]; cbn [bind];
          [| reflexivity].
        rewrite Hne.
        destruct (MirrorStatusEntryV3.new _ _ _ _ _ _ _ _ _) as [mirror | e];
          cbn [bind]; [| reflexivity].
        destruct (dict_item_present ml r Hmem) as [v ->]. cbn [bind].
        split; [reflexivity |]. cbn [fst snd].
        split; [reflexivity |]. split; [apply String.eqb_neq; exact Hne |].
        rewrite dict_mem_dict_append. exact Hmem.
      * cbn [fst snd] in Hcur. subst cr. cbn [String.eqb].
        destruct (urlparse (drop 9 t)) as [parsed | e]; cbn [bind];
          [| reflexivity].
        change (String.eqb "Local" "") with false. cbv iota.
        destruct (MirrorStatusEntryV3.new _ _ _ _ _ _ _ _ _) as [mirror | e];
          cbn [bind]; [| reflexivity].
        destruct (dict_item_present (dict_setdefault ml "Local" []) "Local"
                    (dict_mem_setdefault ml "Local" [])) as [v ->].
        cbn [bind]. split; [reflexivity |]. cbn [fst snd].
        split; [reflexivity |]. split; [discriminate |].
        rewrite dict_mem_dict_append. apply dict_mem_setdefault.
    + split; [reflexivity | exact Hcur].
Qed.

Lemma locale_loop_read_lines (lines : list string) (st : mappings * string)
    (gst : mappings * option string) :
  Grammar.agree st gst -> Forall Grammar.single_marker lines ->
  Grammar.agree_results (locale_loop st lines) (Grammar.read_lines gst lines).
Proof.
  revert st gst. induction lines as [| line rest IH]; intros st gst Hag Hall.
  - exact Hag.
  - inversion Hall as [| ? ? Hline Hrest]; subst.
    cbn [locale_loop Grammar.read_lines].
    pose proof (@locale_step_read_line st gst line Hag Hline) as Hstep.
    destruct (locale_step st line) as [st' | e],
             (Grammar.read_line gst line) as [gst' | e'];
      cbn [bind Grammar.agree_results] in *; try contradiction.
    + apply IH; assumption.
    + exact Hstep.
Qed.

(** On lines that do not repeat the region marker, the local parser is the
    grammar. *)
Lemma parse_locale_is_grammar (mirrorlist : string) :
  Forall Grammar.single_marker (splitlines mirrorlist) ->
  _parse_locale_mirrors mirrorlist = Grammar.parse mirrorlist.
Proof.
  intros Hall. unfold _parse_locale_mirrors, Grammar.parse.
  pose proof (@locale_loop_read_lines (splitlines mirrorlist) ([], EmptyString)
                ([], None)) as H.
  specialize (H (conj eq_refl eq_refl) Hall).
  destruct (locale_loop _ _) as [[ml cr] | e],
           (Grammar.read_lines _ _) as [[regions current] | e'];
    cbn [bind Grammar.agree_results] in *; try contradiction.
  - destruct H as [H _]. cbn [fst] in *. congruence.
  - congruence.
Qed.
End LocalList.

(** C8, the claim as stated does not hold on every line.  The code removes
    the marker wherever it stands in the line, so the line [## A ## B]
    opens the region [A B], not the region named by its trimmed remainder
    [A ## B]; and it trims the line before it looks for the marker, so a
    line made of the marker alone opens no region and the server line
    after it falls to [Local]. *)
Lemma parse_locale_mirrors_off_grammar :
  MirrorListHandler._parse_locale_mirrors (U := Sample.urllib) Grammar.marker_twice
  = Ok [("A B", [])]
  /\ strip (drop 3 (strip "## A ## B")) = "A ## B"
  /\ MirrorListHandler._parse_locale_mirrors (U := Sample.urllib) Grammar.marker_alone
     = Ok [("Local", [Grammar.local_mirror "https://a/test/" "Local" "a"])].
Proof. repeat split. Qed.

(** C8, amended: every line is trimmed before it is read.  On a text none
    of whose lines repeats the marker [## ] after its beginning, the local
    parser does what the line grammar says: a trimmed line starting with
    [## ] opens or selects the region named by its trimmed remainder; a
    trimmed line starting with [Server = ] appends to the current region,
    or to [Local] when no region has been opened, a mirror whose url is the
    remainder without one trailing [$repo/os/$arch] and whose protocol is
    the scheme URL parsing gives, the parse raising where the mirror does
    not validate; and wherever URL parsing reads the four urls of the
    example as https urls of hosts [a] and [b], the example text gives
    exactly the regions [RegionA] and [RegionB], each with one mirror whose
    url lacks the suffix. *)
Theorem parse_locale_mirrors_grammar {U : UrlLibrary} :
  (forall mirrorlist,
      Forall Grammar.single_marker (splitlines mirrorlist) ->
      MirrorListHandler._parse_locale_mirrors mirrorlist = Grammar.parse mirrorlist)
  /\ (urlparse "https://a/test/$repo/os/$arch" = Ok ("https", "a") ->
      urlparse "https://a/test/" = Ok ("https", "a") ->
      urlparse "https://b/test/$repo/os/$arch" = Ok ("https", "b") ->
      urlparse "https://b/test/" = Ok ("https", "b") ->
      MirrorListHandler._parse_locale_mirrors Grammar.two_regions
      = Ok [("RegionA", [Grammar.local_mirror "https://a/test/" "RegionA" "a"]);
            ("RegionB", [Grammar.local_mirror "https://b/test/" "RegionB" "b"])]).
Proof.
  split; [exact parse_locale_is_grammar |].
  intros Ha Ha' Hb Hb'.
  cbv -[urlparse py_int].
  rewrite Ha. cbv -[urlparse py_int]. rewrite Ha'. cbv -[urlparse py_int].
  rewrite Hb. cbv -[urlparse py_int]. rewrite Hb'. reflexivity.
Qed.

Lemma parse_locale_mirrors_grammar_witness :
  MirrorListHandler._parse_locale_mirrors (U := Sample.urllib) Grammar.two_regions
  = Ok [("RegionA", [Grammar.local_mirror "https://a/test/" "RegionA" "a"]);
        ("RegionB", [Grammar.local_mirror "https://b/test/" "RegionB" "b"])].
Proof.
  exact (proj2 (@parse_locale_mirrors_grammar Sample.urllib)
           eq_refl eq_refl eq_refl eq_refl).
Defined.

(** ** Loaded mappings have uniform scores *)

Section Loaded.
Context {U : UrlLibrary} {V : MirrorStatusListV3.Validation}.
Import MirrorStatusEntryV3 MirrorListHandler Order.

Lemma dict_setdefault_unscored (m : mappings) (k : string) :
  unscored m -> unscored (dict_setdefault m k []).
Proof.
  intros H. unfold dict_setdefault. destruct (dict_mem m k); [exact H |].
  apply Forall_app. split; [exact H |]. repeat constructor.
Qed.

Lemma dict_append_unscored (m : mappings) (k : string) (x : entry) :
  unscored m -> score x = None -> unscored (dict_append m k x).
Proof.
  intros H Hx. induction H as [| [k0 v0] rest Hv Hrest IH]; cbn [dict_append].
  - constructor.
  - destruct (String.eqb k0 k).
    + constructor; [| exact Hrest]. cbn [snd] in *.
      apply Forall_app. split; [exact Hv | repeat constructor; exact Hx].
    + constructor; [exact Hv | exact IH].
Qed.

Lemma new_unscored (u p : string) (a : bool) (c cc : string) (i v4 v6 : bool)
    (d : string) (e : entry) :
  MirrorStatusEntryV3.new u p a c cc i v4 v6 d = Ok e -> score e = None.
Proof.
  unfold MirrorStatusEntryV3.new, debug_output. cbn [url].
  destruct (urlparse u) as [parsed | err]; cbn [bind]; [| discriminate].
  destruct (split_once (snd parsed) ":") as [hostname [port |]].
  - destruct (py_int port) as [z | err]; cbn [bind]; [| discriminate].
    intros H. injection H as <-. reflexivity.
  - cbn [bind]. intros H. injection H as <-. reflexivity.
Qed.

Lemma locale_step_unscored (st st' : mappings * string) (line : string) :
  unscored (fst st) -> locale_step st line = Ok st' -> unscored (fst st').
Proof.
  destruct st as [ml cr]. cbn [fst]. intros Hml. unfold locale_step.
  set (t := strip line).
  set (st1 := if startswith t "## " then _ else _).
  assert (H1 : unscored (fst st1)).
  { subst st1. destruct (startswith t "## "); cbn [fst];
      [apply dict_setdefault_unscored |]; exact Hml. }
  destruct st1 as [ml1 cr1]. cbn [fst] in H1.
  destruct (startswith t "Server = ").
  - set (st2 := if String.eqb cr1 "" then _ else _).
    assert (H2 : unscored (fst st2)).
    { subst st2. destruct (String.eqb cr1 ""); cbn [fst];
        [apply dict_setdefault_unscored |]; exact H1. }
    destruct st2 as [ml2 cr2]. cbn [fst] in H2.
    destruct (urlparse _) as [parsed | e]; cbn [bind]; [| discriminate].
    destruct (MirrorStatusEntryV3.new _ _ _ _ _ _ _ _ _) as [mirror | e] eqn:En;
      cbn [bind]; [| discriminate].
    destruct (dict_item ml2 cr2); cbn [bind]; [| discriminate].
    intros H. injection H as <-. cbn [fst].
    apply dict_append_unscored; [exact H2 |].
    eapply new_unscored. exact En.
  - intros H. injection H as <-. exact H1.
Qed.

Lemma locale_loop_unscored (lines : list string) (st st' : mappings * string) :
  unscored (fst st) -> locale_loop st lines = Ok st' -> unscored (fst st').
Proof.
  revert st. induction lines as [| line rest IH]; intros st Hst;
    cbn [locale_loop].
  - intros H. injection H as <-. exact Hst.
  - destruct (locale_step st line) as [st1 |] eqn:E; cbn [bind]; [| discriminate].
    apply IH. exact (@locale_step_unscored st st1 line Hst E).
Qed.

Lemma unscored_uniform (m : mappings) (region : string) (es : list entry) :
  unscored m -> dict_get m region = Some es -> uniform_scores es.
Proof.
  intros Hm Hes. left. apply dict_get_in in Hes.
  unfold unscored in Hm. rewrite Forall_forall in Hm.
  specialize (Hm _ Hes). cbn [snd] in Hm. rewrite Forall_forall in Hm. exact Hm.
Qed.

(** What the sorted view leaves in the handler. *)
Lemma get_status_by_region_mappings (w : world) (region : string)
    (speed_sort : bool) (h h' : t) (r : result (list entry)) (m : mappings) :
  _status_mappings h = Some m ->
  get_status_by_region w region speed_sort h = (r, h') ->
  _status_mappings h' = Some m
  \/ exists es,
       dict_get m region = Some es
       /\ _status_mappings h'
          = Some (dict_set m region
                    (snd (fst (keys (network w) es (downloads h))))).
Proof.
  intros Hm. unfold get_status_by_region, _mappings. rewrite Hm.
  cbv beta iota zeta. rewrite Hm. unfold dict_item.
  destruct (dict_get m region) as [es |] eqn:Ees.
  - destruct (keys (network w) es (downloads h)) as [[rk es'] n] eqn:Ek.
    destruct rk as [dec | err];
      [destruct (sort_by key_lt dec) |]; intros H; injection H as <- <-;
      right; exists es; rewrite Ek; split; reflexivity.
  - intros H. injection H as <- <-. left. exact Hm.
Qed.

(** In a loaded mapping the scores of a region are all present or all
    absent. *)
Lemma loaded_uniform (m : mappings) :
  loaded m ->
  forall region es, dict_get m region = Some es -> uniform_scores es.
Proof.
  induction 1 as [text m Hparse | text m Hparse
                 | w region0 speed_sort h h' r m m' Hl IH Hm Hview Hm'];
    intros region es Hes.
  - right. intros e He.
    unfold _parse_remote_mirror_list in Hparse. apply bind_ok in Hparse.
    destruct Hparse as (status & _ & Hregions).
    exact (@remote_regions_scored status m region es e Hregions Hes He).
  - unfold _parse_locale_mirrors in Hparse. apply bind_ok in Hparse.
    destruct Hparse as (st & Hloop & Hst). injection Hst as <-.
    apply unscored_uniform with (m := fst st) (region := region); [| exact Hes].
    apply (@locale_loop_unscored (splitlines text) ([], EmptyString) st);
      [constructor | exact Hloop].
  - destruct (@get_status_by_region_mappings w region0 speed_sort h h' r m Hm Hview)
      as [Hsame | (es0 & Hes0 & Hset)].
    + rewrite Hsame in Hm'. injection Hm' as <-. exact (IH region es Hes).
    + rewrite Hset in Hm'. injection Hm' as <-.
      rewrite dict_get_set in Hes.
      destruct (String.eqb region0 region); [| exact (IH region es Hes)].
      injection Hes as <-.
      destruct (keys_same (network w) es0 (downloads h)) as [_ Hsc].
      apply uniform_scores_map with (l := es0); [exact Hsc |].
      exact (IH region0 es0 Hes0).
Qed.
End Loaded.

Section SortedView.
Import MirrorStatusEntryV3 MirrorListHandler Order.

Lemma keyed_map (l : list entry) : keyed (map (fun e => (key_of e, e)) l).
Proof.
  apply Forall_forall. intros x Hx. apply in_map_iff in Hx.
  destruct Hx as (e & <- & _). reflexivity.
Qed.

Lemma keyed_sorted (l : list ((option Q * Q) * entry)) :
  keyed l ->
  StronglySorted (fun x y => key_le (fst x) (fst y)) l ->
  StronglySorted (fun a b => key_le (key_of a) (key_of b)) (map snd l).
Proof.
  intros Hk Hs. induction Hs as [| x xs Hxs IH Hall]; cbn [map].
  - constructor.
  - inversion Hk as [| ? ? Hx Hkxs]; subst.
    constructor; [exact (IH Hkxs) |].
    apply Forall_forall. intros e He. apply in_map_iff in He.
    destruct He as (y & <- & Hy).
    unfold keyed in Hkxs. rewrite Forall_forall in Hkxs, Hall.
    rewrite <- Hx, <- (Hkxs y Hy). exact (Hall y Hy).
Qed.

Lemma keyed_with_key (k : option Q * Q) (l : list ((option Q * Q) * entry)) :
  keyed l ->
  with_key k (map snd l) = map snd (filter (fun x => key_eqb (fst x) k) l).
Proof.
  unfold with_key. induction 1 as [| x xs Hx Hxs IH]; cbn [map filter].
  - reflexivity.
  - rewrite <- Hx. destruct (key_eqb (fst x) k); cbn [map]; rewrite IH; reflexivity.
Qed.
End SortedView.

(** X2: on a loaded handler and a region of its mapping whose mirrors all
    have a url the probe's request can be built from, whatever the value of
    [speed_sort], [get_status_by_region] probes the mirrors of the region
    and returns them, each holding its speed, in ascending order of the
    key (score, speed); mirrors whose keys compare equal keep the order
    they have in the region; and the flag changes nothing. *)
Theorem get_status_by_region_sorted
    {U : UrlLibrary} {V : MirrorStatusListV3.Validation}
    (w : MirrorListHandler.world) (region : string) (speed_sort : bool)
    (h : MirrorListHandler.t) (m : MirrorListHandler.mappings)
    (es : list MirrorListHandler.entry) :
  MirrorListHandler._status_mappings h = Some m ->
  Order.loaded m ->
  dict_get m region = Some es ->
  Forall (fun e => Request (MirrorStatusEntryV3.probe_url e) = Ok tt) es ->
  exists (sorted_list probed : list MirrorListHandler.entry)
         (h' : MirrorListHandler.t),
    MirrorListHandler.get_status_by_region w region speed_sort h
    = (Ok sorted_list, h')
    /\ Forall2 Order.same_mirror es probed
    /\ MirrorListHandler._status_mappings h' = Some (dict_set m region probed)
    /\ Permutation probed sorted_list
    /\ Forall (fun e => exists v, MirrorStatusEntryV3._speed e = Some v) sorted_list
    /\ StronglySorted (fun a b => Order.key_le (Order.key_of a) (Order.key_of b))
         sorted_list
    /\ (forall k, Order.with_key k sorted_list = Order.with_key k probed).
Proof.
  intros Hm Hloaded Hes Hreq.
  destruct (@keys_spec U (MirrorListHandler.network w) es
              (MirrorListHandler.downloads h) Hreq)
    as (dec & Hok & Hsnd & Hdec & Hspeeds).
  destruct (@keys_same U (MirrorListHandler.network w) es
              (MirrorListHandler.downloads h)) as [Hsame Hscores].
  unfold MirrorListHandler.get_status_by_region, MirrorListHandler._mappings.
  rewrite Hm. cbv beta iota zeta. rewrite Hm. unfold dict_item. rewrite Hes.
  destruct (MirrorListHandler.keys (MirrorListHandler.network w) es
              (MirrorListHandler.downloads h)) as [[rk es'] n].
  cbn [fst snd] in Hok, Hsnd, Hsame, Hscores. subst rk es'.
  set (probed := map snd dec) in *.
  assert (Hunif : Order.uniform_scores probed).
  { apply uniform_scores_map with (l := es); [exact Hscores |].
    exact (loaded_uniform Hloaded region Hes). }
  destruct (sort_keys_total Hunif) as [s Hs]. rewrite <- Hdec in Hs.
  rewrite Hs.
  assert (Hperm : Permutation dec s) by (eapply sort_by_perm; exact Hs).
  assert (Hkeyed : Order.keyed s).
  { apply (Permutation_Forall Hperm). rewrite Hdec. apply keyed_map. }
  exists (map snd s), probed. eexists.
  split; [reflexivity |]. split; [exact Hsame |]. split; [reflexivity |].
  split; [apply Permutation_map; exact Hperm |].
  split; [exact (Permutation_Forall (Permutation_map snd Hperm) Hspeeds) |].
  split.
  { apply keyed_sorted; [exact Hkeyed |].
    eapply sort_by_sorted; [exact key_lt_le | exact key_not_lt_le
                           | exact key_le_trans | exact Hs]. }
  intros k. rewrite (keyed_with_key k Hkeyed).
  rewrite (@sort_by_stable _ _ _ _ key_lt_not_eq k dec s Hs).
  subst probed. rewrite keyed_with_key; [reflexivity |].
  rewrite Hdec. apply keyed_map.
Qed.

Lemma get_status_by_region_sorted_witness :
  exists (sorted_list : list MirrorListHandler.entry) (h' : MirrorListHandler.t),
    MirrorListHandler.get_status_by_region
      (U := Sample.urllib) (V := SampleOrder.validation)
      SampleOrder.world "Brazil" true SampleOrder.handler
    = (Ok sorted_list, h')
    /\ map MirrorStatusEntryV3.url sorted_list
       = ["https://c.example/"; "https://b.example/"; "https://d.example/";
          "https://a.example/"]
    /\ map Order.key_of sorted_list
       = [(Some 1, 3 / 1); (Some 1, 7 / 1); (Some 1, 7 / 1); (Some 2, 5 / 1)]%Q
    /\ MirrorListHandler.downloads h' = 5%nat
    /\ StronglySorted (fun a b => Order.key_le (Order.key_of a) (Order.key_of b))
         sorted_list.
Proof.
  assert (Hreq : Forall
            (fun e => @Request Sample.urllib
                        (MirrorStatusEntryV3.probe_url e) = Ok tt)
            [SampleOrder.held "a.example" 2; SampleOrder.held "b.example" 1;
             SampleOrder.held "c.example" 1; SampleOrder.held "d.example" 1]).
  { repeat (constructor; [reflexivity |]). constructor. }
  destruct (@get_status_by_region_sorted
              Sample.urllib SampleOrder.validation
              SampleOrder.world "Brazil" true SampleOrder.handler
              SampleOrder.regions
              [SampleOrder.held "a.example" 2; SampleOrder.held "b.example" 1;
               SampleOrder.held "c.example" 1; SampleOrder.held "d.example" 1]
              eq_refl
              (@Order.loaded_remote Sample.urllib SampleOrder.validation
                 EmptyString SampleOrder.regions eq_refl)
              eq_refl Hreq)
    as (sorted_list & probed & h' & Hrun & _ & _ & _ & _ & Hsorted & _).
  exists sorted_list, h'. split; [exact Hrun |].
  remember (MirrorListHandler.get_status_by_region
              (U := Sample.urllib) (V := SampleOrder.validation)
              SampleOrder.world "Brazil" true SampleOrder.handler) as r eqn:Er.
  vm_compute in Er. subst r. injection Hrun as <- <-.
  split; [reflexivity |]. split; [reflexivity |]. split; [reflexivity |].
  exact Hsorted.
Defined.

(** The flag [speed_sort] is not read: the call does the same for both of
    its values, in every state. *)
Lemma get_status_by_region_ignores_flag
    {U : UrlLibrary} {V : MirrorStatusListV3.Validation}
    (w : MirrorListHandler.world) (region : string) (speed_sort : bool)
    (h : MirrorListHandler.t) :
  MirrorListHandler.get_status_by_region w region (negb speed_sort) h
  = MirrorListHandler.get_status_by_region w region speed_sort h.
Proof. reflexivity. Qed.

(** C3, the claim does not hold on every loaded region.  A machine that is
    offline loads the local list, whose one line
    [Server = mirror.example/$repo/os/$arch] gives the region [Local] a
    mirror whose url has no type; the sort reads the speed of that mirror,
    and the [ValueError] raised where the request is built, outside the
    [try] block of the property, leaves [get_status_by_region]: no sorted
    list is returned. *)
Theorem get_status_by_region_raises_without_url_type
    (net : nat -> MirrorStatusEntryV3.download) (speed_sort : bool) :
  MirrorListHandler.load_mirrors
    (U := Sample.urllib) (V := SampleWorld.no_validation)
    (SampleLocal.bare_world net) MirrorListHandler.init
  = (Ok tt,
     MirrorListHandler.mk (Some [("Local", [SampleLocal.bare])]) 0 0
       [MirrorListHandler.OpenedLocal])
  /\ fst (MirrorListHandler.get_status_by_region
            (U := Sample.urllib) (V := SampleWorld.no_validation)
            (SampleLocal.bare_world net) "Local" speed_sort
            MirrorListHandler.init)
     = Raise ValueError.
Proof. split; reflexivity. Qed.

(* ================================================================== *)
(** * Part III: the rest of the modelled files *)

(** ** More on the two probes and the score validator *)

Lemma retry_budget_positive (r : option Z) :
  1 <= MirrorStatusEntryV3.retry_budget r.
Proof.
  unfold MirrorStatusEntryV3.retry_budget. destruct r as [r |]; [| lia].
  destruct (r =? 0) eqn:E0; [lia |].
  destruct (r <? 1) eqn:E1; [lia |]. apply Z.ltb_ge in E1. exact E1.
Qed.

(** X3: on an entry not yet probed whose request can be built, a read of
    [speed] returns after at least one download and at most as many as the
    retry budget, which is never below 1; with a negative budget it makes
    exactly one; and when the first download completes in a time other
    than zero, that one download settles the speed as size over time. *)
Theorem speed_attempts {U : UrlLibrary}
    (net : nat -> MirrorStatusEntryV3.download) (e : MirrorStatusEntryV3.t) (n : nat) :
  Request (MirrorStatusEntryV3.probe_url e) = Ok tt ->
  MirrorStatusEntryV3._speed e = None ->
  exists (v : Q) (e' : MirrorStatusEntryV3.t) (n' : nat),
    MirrorStatusEntryV3.speed net e n = (Ok v, e', n')
    /\ MirrorStatusEntryV3._speed e' = Some v
    /\ (n < n' <= n + Z.to_nat (MirrorStatusEntryV3.retry_budget
                                  (MirrorStatusEntryV3._speedtest_retries e)))%nat
    /\ (forall r, MirrorStatusEntryV3._speedtest_retries e = Some r -> r < 0 ->
          n' = S n)
    /\ (forall size tm,
          net n = MirrorStatusEntryV3.Completed size (Some tm) ->
          ~ (tm == 0)%Q ->
          v = (inject_Z size / tm)%Q /\ n' = S n)
    /\ (forall size,
          net n = MirrorStatusEntryV3.Completed size None ->
          v = 0%Q /\ n' = S n).
Proof.
  intros Hreq He.
  pose proof (retry_budget_positive (MirrorStatusEntryV3._speedtest_retries e)) as Hpos.
  unfold MirrorStatusEntryV3.speed. rewrite He.
  set (b := MirrorStatusEntryV3.retry_budget (MirrorStatusEntryV3._speedtest_retries e)) in *.
  set (e1 := MirrorStatusEntryV3.with_speedtest_retries e (Some b)).
  assert (He1 : MirrorStatusEntryV3._speed e1 = None) by exact He.
  assert (Hreq1 : Request (MirrorStatusEntryV3.probe_url e1) = Ok tt) by exact Hreq.
  destruct (Z.to_nat b) as [| k] eqn:Ek; [lia |].
  cbn [MirrorStatusEntryV3.speed_loop]. rewrite He1, Hreq1.
  set (e2 := MirrorStatusEntryV3.attempt (net n) e1).
  assert (Hreq2 : Request (MirrorStatusEntryV3.probe_url e2) = Ok tt).
  { unfold e2. rewrite SpeedProbe.attempt_probe_url. exact Hreq1. }
  destruct (SpeedProbe.speed_loop_bounds net k e2 (S n)) as [Hb _].
  pose proof (@SpeedProbe.speed_loop_ok U net k e2 (S n) Hreq2) as Hok.
  assert (Hset : forall v0, MirrorStatusEntryV3._speed e2 = Some v0 ->
            MirrorStatusEntryV3.speed_loop net k e2 (S n) = (Ok tt, e2, S n)).
  { intros v0 Hv0. exact (@SpeedProbe.speed_loop_settled U net k e2 (S n) v0 Hv0). }
  destruct (MirrorStatusEntryV3.speed_loop net k e2 (S n)) as [[r e3] n3] eqn:El.
  cbn [fst snd] in Hb, Hok. subst r.
  assert (Hone : forall r, MirrorStatusEntryV3._speedtest_retries e = Some r ->
            r < 0 -> n3 = S n).
  { intros r Hr Hneg. assert (b = 1).
    { unfold b, MirrorStatusEntryV3.retry_budget. rewrite Hr.
      destruct (r =? 0) eqn:E0; [apply Z.eqb_eq in E0; lia |].
      destruct (r <? 1) eqn:E1; [reflexivity | apply Z.ltb_ge in E1; lia]. }
    lia. }
  assert (Hfirst : forall size tm,
            net n = MirrorStatusEntryV3.Completed size (Some tm) ->
            ~ (tm == 0)%Q ->
            e3 = e2 /\ n3 = S n
            /\ MirrorStatusEntryV3._speed e2 = Some (inject_Z size / tm)%Q).
  { intros size tm Hnet Htm.
    assert (H2 : MirrorStatusEntryV3._speed e2 = Some (inject_Z size / tm)%Q).
    { unfold e2. rewrite Hnet. cbn [MirrorStatusEntryV3.attempt].
      destruct (Qeq_bool tm 0) eqn:Eq; [| reflexivity].
      apply Qeq_bool_iff in Eq. contradiction. }
    specialize (Hset _ H2). injection Hset as <- <-. repeat split. exact H2. }
  assert (Hnone : forall size,
            net n = MirrorStatusEntryV3.Completed size None ->
            e3 = e2 /\ n3 = S n /\ MirrorStatusEntryV3._speed e2 = Some 0%Q).
  { intros size Hnet.
    assert (H2 : MirrorStatusEntryV3._speed e2 = Some 0%Q).
    { unfold e2. rewrite Hnet. reflexivity. }
    specialize (Hset _ H2). injection Hset as <- <-. repeat split. exact H2. }
  destruct (MirrorStatusEntryV3._speed e3) as [v |] eqn:He3.
  - exists v, e3, n3. split; [reflexivity |]. split; [exact He3 |].
    split; [lia |]. split; [exact Hone |]. split.
    + intros size tm Hnet Htm. destruct (Hfirst size tm Hnet Htm) as (-> & -> & H2).
      rewrite H2 in He3. injection He3 as <-. split; reflexivity.
    + intros size Hnet. destruct (Hnone size Hnet) as (-> & -> & H2).
      rewrite H2 in He3. injection He3 as <-. split; reflexivity.
  - exists 0%Q, (MirrorStatusEntryV3.with_speed e3 (Some 0%Q)), n3.
    split; [reflexivity |]. split; [reflexivity |].
    split; [lia |]. split; [exact Hone |]. split.
    + intros size tm Hnet Htm. destruct (Hfirst size tm Hnet Htm) as (-> & -> & H2).
      rewrite H2 in He3. discriminate.
    + intros size Hnet. destruct (Hnone size Hnet) as (-> & -> & H2).
      rewrite H2 in He3. discriminate.
Qed.

Lemma speed_attempts_witness :
  exists v e' n',
    MirrorStatusEntryV3.speed (U := Sample.urllib)
      (fun _ => MirrorStatusEntryV3.Completed 1000 (Some 2%Q)) Sample.mirror 0%nat
    = (Ok v, e', n')
    /\ MirrorStatusEntryV3._speed e' = Some v.
Proof.
  destruct (@speed_attempts Sample.urllib
              (fun _ => MirrorStatusEntryV3.Completed 1000 (Some 2%Q))
              Sample.mirror 0%nat eq_refl eq_refl)
    as (v & e' & n' & Hs & Hset & _).
  exists v, e', n'. split; [exact Hs | exact Hset].
Defined.

(** X4: on an entry as the validator leaves it, with no latency measured
    yet, a read of [latency] pings once, the host being the network
    location of the url up to its first colon, and answers what the ping
    answers; it leaves the speed and the score alone; a number the ping
    returned is stored, and every later read returns it without a ping;
    when the ping raises, the entry is left as it was. *)
Theorem latency_pings_host_once {U : UrlLibrary}
    (ping : nat -> string -> result (option Q))
    (e0 e : MirrorStatusEntryV3.t) (parsed : string * string) (n : nat) :
  MirrorStatusEntryV3._latency e0 = None ->
  urlparse (MirrorStatusEntryV3.url e0) = Ok parsed ->
  MirrorStatusEntryV3.debug_output e0 = Ok e ->
  exists (e' : MirrorStatusEntryV3.t),
    MirrorStatusEntryV3.latency ping e n
    = (ping n (fst (split_once (snd parsed) ":")), e', S n)
    /\ MirrorStatusEntryV3._speed e' = MirrorStatusEntryV3._speed e
    /\ MirrorStatusEntryV3.score e' = MirrorStatusEntryV3.score e
    /\ (forall v, ping n (fst (split_once (snd parsed) ":")) = Ok (Some v) ->
          MirrorStatusEntryV3._latency e' = Some v
          /\ forall ping2 m,
               MirrorStatusEntryV3.latency ping2 e' m = (Ok (Some v), e', m))
    /\ (forall err, ping n (fst (split_once (snd parsed) ":")) = Raise err ->
          e' = e).
Proof.
  intros Hlat Hparse Hbuilt.
  unfold MirrorStatusEntryV3.debug_output in Hbuilt. rewrite Hparse in Hbuilt.
  cbn [bind] in Hbuilt.
  destruct (split_once (snd parsed) ":") as [hostname port] eqn:Esplit.
  cbn [fst].
  assert (He : MirrorStatusEntryV3._hostname e = Some hostname
               /\ MirrorStatusEntryV3._latency e = None).
  { destruct port as [p |].
    - destruct (py_int p) as [z | err]; cbn [bind] in Hbuilt; [| discriminate].
      injection Hbuilt as <-. split; [reflexivity | exact Hlat].
    - cbn [bind] in Hbuilt. injection Hbuilt as <-.
      split; [reflexivity | exact Hlat]. }
  destruct He as [Hhost Hnone].
  unfold MirrorStatusEntryV3.latency. rewrite Hnone, Hhost.
  destruct (ping n hostname) as [v | err] eqn:Eping.
  - exists (MirrorStatusEntryV3.with_latency e v).
    split; [reflexivity |]. split; [reflexivity |]. split; [reflexivity |].
    split; [| discriminate].
    intros v0 Hv0. injection Hv0 as ->. split; [reflexivity |].
    intros ping2 m. reflexivity.
  - exists e. split; [reflexivity |]. split; [reflexivity |].
    split; [reflexivity |]. split; [discriminate | reflexivity].
Qed.

Lemma latency_pings_host_once_witness :
  exists e',
    MirrorStatusEntryV3.latency (fun _ _ => Ok (Some 12%Q)) Sample.mirror 0%nat
    = (Ok (Some 12%Q), e', 1%nat).
Proof.
  destruct (@latency_pings_host_once Sample.urllib
              (fun _ _ => Ok (Some 12%Q)) Sample.mirror Sample.mirror
              ("https", "mirror.example") 0%nat eq_refl eq_refl eq_refl)
    as (e' & Hrun & _).
  exists e'. exact Hrun.
Defined.

(** X5:[validate_score] passes an absent score on and turns a number into
    an integer at most one half away from it, the even one when the number
    lies halfway between two integers; a whole number is kept; and the
    integer is 100 or more exactly when the number is 99.5 or more. *)
Theorem validate_score_rounds (value : Q) :
  MirrorStatusEntryV3.validate_score None = None
  /\ exists z : Z,
       MirrorStatusEntryV3.validate_score (Some value) = Some z
       /\ (inject_Z z - (1 # 2) <= value <= inject_Z z + (1 # 2))%Q
       /\ ((value == inject_Z z - (1 # 2) \/ value == inject_Z z + (1 # 2))%Q ->
           Z.even z = true)
       /\ (forall k : Z, (value == inject_Z k)%Q -> z = k)
       /\ (100 <= z <-> (199 # 2 <= value)%Q).
Proof.
  split; [reflexivity |].
  exists (MirrorStatusEntryV3.py_round value).
  destruct (py_round_spec value) as [[Hlo Hhi] Htie].
  set (z := MirrorStatusEntryV3.py_round value) in *.
  split; [reflexivity |]. split; [split; assumption |]. split; [exact Htie |].
  split.
  - intros k Hk. rewrite Hk in Hlo, Hhi.
    assert (H1 : (inject_Z z < inject_Z (k + 1))%Q)
      by (rewrite inject_Z_plus; change (inject_Z 1) with 1%Q; lra).
    assert (H2 : (inject_Z k < inject_Z (z + 1))%Q)
      by (rewrite inject_Z_plus; change (inject_Z 1) with 1%Q; lra).
    rewrite <- Zlt_Qlt in H1, H2. lia.
  - split.
    + intros Hz. rewrite (Zle_Qle 100 z) in Hz.
      change (inject_Z 100) with (100 # 1)%Q in Hz. lra.
    + intros Hv.
      assert (H99 : (inject_Z 99 <= inject_Z z)%Q).
      { change (inject_Z 99) with (99 # 1)%Q. lra. }
      rewrite <- (Zle_Qle 99 z) in H99.
      destruct (Z.eq_dec z 99) as [E | E]; [| lia].
      exfalso.
      assert (Ht : Z.even z = true).
      { apply Htie. right. rewrite E in *.
        change (inject_Z 99) with (99 # 1)%Q in *. lra. }
      rewrite E in Ht. discriminate.
Qed.

(** ** More on the persisted configuration *)

Lemma ReflectorProtocol_list_roundtrip (ps : list ReflectorProtocol) :
  mapM ReflectorProtocol_of (map (fun p => VStr (ReflectorProtocol_value p)) ps)
  = Ok ps.
Proof.
  rewrite mapM_map. rewrite (mapM_ok_map _ (fun p => p)).
  - rewrite map_id. reflexivity.
  - intros p _. apply ReflectorProtocol_roundtrip.
Qed.

Lemma ReflectorSortOrder_of_other (s : string) :
  ~ In s (map ReflectorSortOrder_value [Age; Rate; Country; Score; Delay]) ->
  ReflectorSortOrder_of (VStr s) = Raise ValueError.
Proof.
  intros Hnot.
  unfold ReflectorSortOrder_of, by_value. cbn [find ReflectorSortOrder_value].
  cbn [map ReflectorSortOrder_value In] in Hnot.
  repeat match goal with
  | |- context [String.eqb ?a s] =>
      destruct (String.eqb_spec a s) as [? | ?]; [exfalso; apply Hnot; tauto |]
  end.
  reflexivity.
Qed.

(** X6: [ReflectorConfiguration.parse_args] gives back every configuration
    from its [json]; when keys are taken out of the document, the fields of
    the keys that are left are kept and each missing one takes its default
    (disabled, no country, https, 12 hours, 20 mirrors, by rate, verbose);
    and when, keys taken out or not, the sort order of the document is
    replaced by a text that is not the value of a member, [parse_args]
    raises [ValueError], as it does on every document that holds such a
    sort order and none of the five keys read before it. *)
Theorem ReflectorConfiguration_parse_args_defaults
    (c : ReflectorConfiguration.t) (gone : list string) :
  ReflectorConfiguration.parse_args (ReflectorConfiguration.json c) = Ok c
  /\ ReflectorConfiguration.parse_args
       (Document.without gone (ReflectorConfiguration.json c))
     = Ok (ReflectorConfiguration.mk
             (if Document.among gone "enabled" then false
              else ReflectorConfiguration.enabled c)
             (if Document.among gone "countries" then []
              else ReflectorConfiguration.countries c)
             (if Document.among gone "protocols" then [HTTPS]
              else ReflectorConfiguration.protocols c)
             (if Document.among gone "age" then 12
              else ReflectorConfiguration.age c)
             (if Document.among gone "latest" then 20
              else ReflectorConfiguration.latest c)
             (if Document.among gone "sort_order" then Rate
              else ReflectorConfiguration.sort_order c)
             (if Document.among gone "verbose" then true
              else ReflectorConfiguration.verbose c))
  /\ (forall s : string,
        ~ In s (map ReflectorSortOrder_value [Age; Rate; Country; Score; Delay]) ->
        ReflectorConfiguration.parse_args
          (VDict (dict_set
                    (Document.fields
                       (Document.without gone (ReflectorConfiguration.json c)))
                    "sort_order" (VStr s)))
        = Raise ValueError)
  /\ (forall (d : dict value) (s : string),
        dict_get d "enabled" = None -> dict_get d "countries" = None ->
        dict_get d "protocols" = None -> dict_get d "age" = None ->
        dict_get d "latest" = None ->
        dict_get d "sort_order" = Some (VStr s) ->
        ~ In s (map ReflectorSortOrder_value [Age; Rate; Country; Score; Delay]) ->
        ReflectorConfiguration.parse_args (VDict d) = Raise ValueError).
Proof.
  split; [apply ReflectorConfiguration_roundtrip |]. split; [| split].
  - destruct c as [en cs ps ag la so vb].
    unfold Document.without, ReflectorConfiguration.json, Document.fields.
    cbn [filter fst ReflectorConfiguration.enabled ReflectorConfiguration.countries
         ReflectorConfiguration.protocols ReflectorConfiguration.age
         ReflectorConfiguration.latest ReflectorConfiguration.sort_order
         ReflectorConfiguration.verbose].
    destruct (Document.among gone "enabled");
    destruct (Document.among gone "countries");
    destruct (Document.among gone "protocols");
    destruct (Document.among gone "age");
    destruct (Document.among gone "latest");
    destruct (Document.among gone "sort_order");
    destruct (Document.among gone "verbose");
    cbn [negb ReflectorConfiguration.parse_args get dict_get String.eqb Ascii.eqb
         Bool.eqb as_bool as_int bind py_iter];
    try rewrite as_str_list_ok;
    try rewrite ReflectorProtocol_list_roundtrip;
    cbn [bind as_int as_bool as_str_list mapM as_str];
    try rewrite ReflectorSortOrder_roundtrip;
    reflexivity.
  - intros s Hnot. apply ReflectorSortOrder_of_other in Hnot.
    destruct c as [en cs ps ag la so vb].
    unfold Document.without, ReflectorConfiguration.json, Document.fields.
    cbn [filter fst ReflectorConfiguration.enabled ReflectorConfiguration.countries
         ReflectorConfiguration.protocols ReflectorConfiguration.age
         ReflectorConfiguration.latest ReflectorConfiguration.sort_order
         ReflectorConfiguration.verbose].
    destruct (Document.among gone "enabled");
    destruct (Document.among gone "countries");
    destruct (Document.among gone "protocols");
    destruct (Document.among gone "age");
    destruct (Document.among gone "latest");
    destruct (Document.among gone "sort_order");
    destruct (Document.among gone "verbose");
    cbn [negb dict_set ReflectorConfiguration.parse_args get dict_get String.eqb
         Ascii.eqb Bool.eqb as_bool as_int bind py_iter];
    try rewrite as_str_list_ok;
    try rewrite ReflectorProtocol_list_roundtrip;
    cbn [bind as_int as_bool as_str_list mapM as_str];
    change (ReflectorProtocol_of (VStr "https"))
      with (Ok (A := ReflectorProtocol) HTTPS);
    cbn [bind];
    rewrite Hnot; reflexivity.
  - intros d s He Hc Hp Ha Hl Hs Hnot.
    unfold ReflectorConfiguration.parse_args, get.
    rewrite He, Hc, Hp, Ha, Hl, Hs. cbn [as_bool as_str_list bind mapM py_iter as_int].
    change (ReflectorProtocol_of (VStr "https")) with (Ok (A := ReflectorProtocol) HTTPS).
    cbn [bind]. rewrite (ReflectorSortOrder_of_other Hnot). reflexivity.
Qed.

Lemma mapM_app {A B : Type} (f : A -> result B) (l1 l2 : list A) :
  mapM f (l1 ++ l2)
  = let* r1 := mapM f l1 in let* r2 := mapM f l2 in Ok (r1 ++ r2).
Proof.
  induction l1 as [| x xs IH]; cbn [mapM app bind].
  - destruct (mapM f l2); reflexivity.
  - destruct (f x) as [y | e]; cbn [bind]; [| reflexivity].
    rewrite IH. destruct (mapM f xs) as [r1 | e]; cbn [bind]; [| reflexivity].
    destruct (mapM f l2); reflexivity.
Qed.

Lemma mapM_length {A B : Type} (f : A -> result B) (l : list A) (r : list B) :
  mapM f l = Ok r -> List.length r = List.length l.
Proof.
  revert r. induction l as [| x xs IH]; cbn [mapM]; intros r H.
  - injection H as <-. reflexivity.
  - apply bind_ok in H. destruct H as (y & _ & H).
    apply bind_ok in H. destruct H as (ys & Hys & H). injection H as <-.
    cbn [List.length]. rewrite (IH ys Hys). reflexivity.
Qed.

Lemma CustomServer_parse_one_json (c : CustomServer.t) :
  CustomServer.parse_one (CustomServer.json c) = Ok c.
Proof. destruct c. reflexivity. Qed.

Lemma CustomServer_map_json (l : list CustomServer.t) :
  mapM CustomServer.parse_one (map CustomServer.json l) = Ok l.
Proof.
  rewrite mapM_map. rewrite (mapM_ok_map _ (fun c => c)).
  - rewrite map_id. reflexivity.
  - intros c _. apply CustomServer_parse_one_json.
Qed.

(** X7: [CustomServer.parse_args] gives back every list of servers from
    the list of their [json]; a parse that succeeds yields one server per
    item; and after items that parse, an item that is a dict without the
    key [url] raises [KeyError], and an item that is a server object
    itself, as [MirrorConfiguration.json] passes it on, raises
    [TypeError]. *)
Theorem CustomServer_parse_args_json (l : list CustomServer.t) :
  CustomServer.parse_args (VList (map CustomServer.json l)) = Ok l
  /\ (forall items r,
        CustomServer.parse_args (VList items) = Ok r ->
        List.length r = List.length items)
  /\ (forall d post,
        dict_get d "url" = None ->
        CustomServer.parse_args
          (VList (map CustomServer.json l ++ VDict d :: post))
        = Raise KeyError)
  /\ (forall u post,
        CustomServer.parse_args
          (VList (map CustomServer.json l ++ VCustomServer u :: post))
        = Raise TypeError).
Proof.
  unfold CustomServer.parse_args. cbn [py_iter bind].
  split; [apply CustomServer_map_json |]. split.
  - intros items r H. exact (mapM_length _ _ H).
  - split.
    + intros d post Hd. rewrite mapM_app, CustomServer_map_json.
      cbn [bind mapM]. unfold CustomServer.parse_one at 1.
      cbn [subscript]. unfold dict_item. rewrite Hd. reflexivity.
    + intros u post. rewrite mapM_app, CustomServer_map_json. reflexivity.
Qed.

Lemma CustomRepository_map_json (l : list CustomRepository.t) :
  mapM CustomRepository.parse_one (map CustomRepository.json l) = Ok l.
Proof.
  rewrite mapM_map. rewrite (mapM_ok_map _ (fun c => c)).
  - rewrite map_id. reflexivity.
  - intros c _. apply CustomRepository_parse_one_json.
Qed.

(** X8: [CustomRepository.parse_args] gives back every list of
    repositories from the list of their [json]; a parse that succeeds
    yields one repository per item; after items that parse, a dict without
    the key [name], [url] or [sign_check] raises [KeyError]; and a dict
    with these keys whose [sign_check] is a text that is not the value of
    a member raises [ValueError], whatever else it holds. *)
Theorem CustomRepository_parse_args_json (l : list CustomRepository.t) :
  CustomRepository.parse_args (VList (map CustomRepository.json l)) = Ok l
  /\ (forall items r,
        CustomRepository.parse_args (VList items) = Ok r ->
        List.length r = List.length items)
  /\ (forall d post,
        dict_get d "name" = None \/ dict_get d "url" = None
        \/ dict_get d "sign_check" = None ->
        CustomRepository.parse_args
          (VList (map CustomRepository.json l ++ VDict d :: post))
        = Raise KeyError)
  /\ (forall d post n u s,
        dict_get d "name" = Some n -> dict_get d "url" = Some u ->
        dict_get d "sign_check" = Some (VStr s) ->
        ~ In s (map SignCheck_value [Never; Optional; Required]) ->
        CustomRepository.parse_args
          (VList (map CustomRepository.json l ++ VDict d :: post))
        = Raise ValueError).
Proof.
  unfold CustomRepository.parse_args. cbn [py_iter bind].
  split; [apply CustomRepository_map_json |]. split.
  - intros items r H. exact (mapM_length _ _ H).
  - split.
    + intros d post Hd. rewrite mapM_app, CustomRepository_map_json.
      cbn [bind mapM]. unfold CustomRepository.parse_one at 1.
      cbn [subscript]. unfold dict_item.
      destruct (dict_get d "name") as [n |]; [| reflexivity]. cbn [bind].
      destruct (dict_get d "url") as [u |]; [| reflexivity]. cbn [bind].
      destruct (dict_get d "sign_check") as [sc |]; [| reflexivity].
      exfalso. destruct Hd as [H | [H | H]]; discriminate.
    + intros d post n u s Hn Hu Hs Hnot.
      rewrite mapM_app, CustomRepository_map_json.
      cbn [bind mapM]. unfold CustomRepository.parse_one at 1.
      cbn [subscript]. unfold dict_item. rewrite Hn, Hu, Hs. cbn [bind].
      assert (Hv : SignCheck_of (VStr s) = Raise ValueError).
      { unfold SignCheck_of, by_value. cbn [find SignCheck_value].
        cbn [map SignCheck_value In] in Hnot.
        repeat match goal with
        | |- context [String.eqb ?a s] =>
            destruct (String.eqb_spec a s) as [? | ?];
              [exfalso; apply Hnot; tauto |]
        end.
        reflexivity. }
      rewrite Hv. reflexivity.
Qed.

(** ** Documents and the keys that are read *)

Lemma dict_mem_get_eq {V : Type} (d d' : dict V) (k : string) :
  dict_get d k = dict_get d' k -> dict_mem d k = dict_mem d' k.
Proof. unfold dict_mem. intros ->. reflexivity. Qed.

(** X9: [MirrorConfiguration.parse_args] reads six keys and nothing else:
    two documents that hold the same values under [mirror_regions],
    [custom_servers], [custom_mirrors], [custom_repositories],
    [optional_repositories] and [reflector] parse alike, whatever other
    keys they hold and in whatever order; so a document with none of the
    six parses to the default configuration. *)
Theorem parse_args_reads_six_keys {R : RepositoryEnum}
    (args args' : dict value) (bc : list Repository) :
  (forall k, In k Document.mirror_keys -> dict_get args k = dict_get args' k) ->
  MirrorConfiguration.parse_args args bc = MirrorConfiguration.parse_args args' bc
  /\ ((forall k, In k Document.mirror_keys -> dict_get args k = None) ->
      MirrorConfiguration.parse_args args [] = Ok MirrorConfiguration.default).
Proof.
  intros Hsame.
  assert (Hk : forall k, In k Document.mirror_keys ->
                 dict_get args k = dict_get args' k) by exact Hsame.
  unfold Document.mirror_keys in Hk. cbn [In] in Hk.
  assert (H1 := Hk "mirror_regions" ltac:(tauto)).
  assert (H2 := Hk "custom_servers" ltac:(tauto)).
  assert (H3 := Hk "custom_mirrors" ltac:(tauto)).
  assert (H4 := Hk "custom_repositories" ltac:(tauto)).
  assert (H5 := Hk "optional_repositories" ltac:(tauto)).
  assert (H6 := Hk "reflector" ltac:(tauto)).
  split.
  - unfold MirrorConfiguration.parse_args, get, dict_item.
    rewrite (dict_mem_get_eq _ _ _ H3), (dict_mem_get_eq _ _ _ H4),
      (dict_mem_get_eq _ _ _ H5), (dict_mem_get_eq _ _ _ H6).
    rewrite H1, H2, H3, H4, H5, H6. reflexivity.
  - intros Hnone.
    unfold Document.mirror_keys in Hnone. cbn [In] in Hnone.
    assert (N1 := Hnone "mirror_regions" ltac:(tauto)).
    assert (N2 := Hnone "custom_servers" ltac:(tauto)).
    assert (N3 := Hnone "custom_mirrors" ltac:(tauto)).
    assert (N4 := Hnone "custom_repositories" ltac:(tauto)).
    assert (N5 := Hnone "optional_repositories" ltac:(tauto)).
    assert (N6 := Hnone "reflector" ltac:(tauto)).
    unfold MirrorConfiguration.parse_args, get, dict_item, dict_mem.
    rewrite N1, N2, N3, N4, N5, N6. reflexivity.
Qed.

Lemma parse_args_reads_six_keys_witness :
  MirrorConfiguration.parse_args (R := Sample.repositories)
    [("version", VInt 1)] []
  = MirrorConfiguration.parse_args [] [].
Proof.
  refine (proj1 (@parse_args_reads_six_keys Sample.repositories
                   [("version", VInt 1)] [] [] _)).
  intros k Hk. cbn [Document.mirror_keys In] in Hk.
  repeat (destruct Hk as [<- | Hk]; [reflexivity |]). contradiction.
Defined.

(** ** Running reflector *)

(** X10: [run_reflector].  A disabled configuration runs nothing and
    answers [False].  An enabled one first looks for reflector with
    [which].  When that does not raise, reflector is run next, with the
    configuration's arguments and the save target.  When it raises, pacman
    is run to install reflector; when pacman does not raise, reflector is
    run after it, and when pacman raises too, nothing more is run and the
    answer is [False].  So reflector is run exactly when one of the two
    did not raise, and pacman exactly when [which] raised.  Where reflector
    is run, the answer is [True] exactly when the command does not raise
    and ends with exit code 0.  [apply_reflector_config] does the same as
    [run_reflector] for every configuration; and with the default target,
    the command run is the one [to_command_string] shows after [sudo]. *)
Theorem run_reflector_outcome {R : RepositoryEnum}
    (sys : Reflector.SysCommand) (local_mirrorlist : string)
    (c : MirrorConfiguration.t) (target_path : option string)
    (ran : Reflector.commands) :
  let cfg := MirrorConfiguration.reflector c in
  let which := ["which"; "reflector"] in
  let install := ["pacman"; "-Sy"; "--noconfirm"; "reflector"] in
  let target :=
    match target_path with Some p => p | None => local_mirrorlist end in
  let cmd := ReflectorConfiguration.to_command_args cfg ++ ["--save"; target] in
  let succeeds (before : Reflector.commands) : bool :=
    match sys before cmd with
    | Ok (Some code) => code =? 0
    | _ => false
    end in
  let r := Reflector.run_reflector sys local_mirrorlist cfg target_path ran in
  MirrorConfigurationOutput.apply_reflector_config
    sys local_mirrorlist c target_path ran = r
  /\ (ReflectorConfiguration.enabled cfg = false -> r = (false, ran))
  /\ (ReflectorConfiguration.enabled cfg = true ->
      (forall x, sys ran which = Ok x ->
         r = (succeeds (ran ++ [which]), ran ++ [which; cmd]))
      /\ (forall y,
            raises (sys ran which) ->
            sys (ran ++ [which]) install = Ok y ->
            r = (succeeds (ran ++ [which; install]), ran ++ [which; install; cmd]))
      /\ (raises (sys ran which) ->
          raises (sys (ran ++ [which]) install) ->
          r = (false, ran ++ [which; install])))
  /\ (fst r = true ->
      ReflectorConfiguration.enabled cfg = true
      /\ exists before,
           snd r = before ++ [cmd] /\ sys before cmd = Ok (Some 0))
  /\ (target = "/etc/pacman.d/mirrorlist" ->
      String.append "sudo " (join " " cmd)
      = ReflectorConfiguration.to_command_string cfg).
Proof.
  cbv zeta.
  set (cfg := MirrorConfiguration.reflector c).
  set (target := match target_path with Some p => p | None => local_mirrorlist end).
  set (cmd := ReflectorConfiguration.to_command_args cfg ++ ["--save"; target]).
  assert (Hcode : forall before code,
            (match code with Some z => z =? 0 | None => false end) = true ->
            sys before cmd = Ok code -> sys before cmd = Ok (Some 0)).
  { intros before [z |] Hz Hsys; [| discriminate].
    apply Z.eqb_eq in Hz. subst z. exact Hsys. }
  assert (Hlast : forall before,
            (match sys before cmd with
             | Ok exit_code =>
                 (match exit_code with Some code => code =? 0 | None => false end,
                  before ++ [cmd])
             | Raise _ => (false, before ++ [cmd])
             end)
            = (match sys before cmd with
               | Ok (Some code) => code =? 0
               | _ => false
               end, before ++ [cmd])).
  { intros before. destruct (sys before cmd) as [[code |] | err]; reflexivity. }
  split.
  { unfold MirrorConfigurationOutput.apply_reflector_config,
      Reflector.run_reflector. fold cfg.
    destruct (ReflectorConfiguration.enabled cfg); reflexivity. }
  unfold Reflector.run_reflector, Reflector._ensure_reflector_installed.
  fold target. fold cmd.
  destruct (ReflectorConfiguration.enabled cfg) eqn:Een; cbn [negb].
  - split; [discriminate |]. split.
    + intros _. split; [| split].
      * intros x Hw. rewrite Hw. cbn [negb]. rewrite Hlast.
        rewrite <- app_assoc. reflexivity.
      * intros y [err Hw] Hi. rewrite Hw, Hi. cbn [negb]. rewrite Hlast.
        rewrite <- !app_assoc. reflexivity.
      * intros [err Hw] [err2 Hi]. rewrite Hw, Hi. cbn [negb].
        rewrite <- app_assoc. reflexivity.
    + split.
      * intros Htrue. split; [reflexivity |].
        destruct (sys ran ["which"; "reflector"]) as [x | err] eqn:Ew.
        -- cbn [negb] in *.
           destruct (sys (ran ++ [["which"; "reflector"]]) cmd) as [code | e] eqn:Ec;
             cbn [fst snd] in *; [| discriminate].
           exists (ran ++ [["which"; "reflector"]]). split; [reflexivity |].
           exact (Hcode _ _ Htrue Ec).
        -- destruct (sys (ran ++ [["which"; "reflector"]])
                         ["pacman"; "-Sy"; "--noconfirm"; "reflector"])
             as [y | err2] eqn:Ei; cbn [negb] in *; [| discriminate].
           destruct (sys ((ran ++ [["which"; "reflector"]])
                          ++ [["pacman"; "-Sy"; "--noconfirm"; "reflector"]]) cmd)
             as [code | e] eqn:Ec; cbn [fst snd] in *; [| discriminate].
           eexists. split; [reflexivity |]. exact (Hcode _ _ Htrue Ec).
      * intros Ht. unfold ReflectorConfiguration.to_command_string, cmd.
        rewrite Ht. reflexivity.
  - split; [reflexivity |]. split; [discriminate |]. split.
    + cbn [fst]. discriminate.
    + intros Ht. unfold ReflectorConfiguration.to_command_string, cmd.
      rewrite Ht. reflexivity.
Qed.

(** ** Loading on demand *)

Section LoadingOnDemand.
Context {U : UrlLibrary} {V : MirrorStatusListV3.Validation}.
Import MirrorListHandler.

(** What the remote attempts leave as the mapping. *)
Lemma remote_attempts_mapping (w : world) (nrs : list Z) (h : t) :
  exists (b : bool) (h1 : t),
    remote_attempts w nrs h = (Ok b, h1)
    /\ downloads h1 = downloads h
    /\ if b
       then exists text m,
              _parse_remote_mirror_list text = Ok m
              /\ _status_mappings h1 = Some m
       else _status_mappings h1 = _status_mappings h
            /\ exists events, trace h1 = trace h ++ events.
Proof.
  revert h. induction nrs as [| nr rest IH]; intros h; cbn [remote_attempts].
  - exists false. eexists. split; [reflexivity |]. split; [reflexivity |].
    split; [reflexivity |]. eexists. reflexivity.
  - destruct (fetch_data_from_url w (fetches h)) as [text | err]; cbn [bind].
    + destruct (_parse_remote_mirror_list text) as [m | err] eqn:Ep.
      * exists true. eexists. split; [reflexivity |]. split; [reflexivity |].
        exists text, m. split; [exact Ep | reflexivity].
      * match goal with |- context [remote_attempts w rest ?h0] =>
          destruct (IH h0) as (b & h1 & Hrun & Hd & Hb) end.
        exists b, h1. split; [exact Hrun |]. split; [exact Hd |].
        destruct b; [exact Hb |]. destruct Hb as [Hm (events & Hev)].
        split; [exact Hm |]. cbn [trace log] in Hev.
        repeat rewrite <- app_assoc in Hev. eexists. exact Hev.
    + match goal with |- context [remote_attempts w rest ?h0] =>
        destruct (IH h0) as (b & h1 & Hrun & Hd & Hb) end.
      exists b, h1. split; [exact Hrun |]. split; [exact Hd |].
      destruct b; [exact Hb |]. destruct Hb as [Hm (events & Hev)].
      split; [exact Hm |]. cbn [trace log] in Hev.
      repeat rewrite <- app_assoc in Hev. eexists. exact Hev.
Qed.

(** What [load_local_mirrors] leaves as the mapping. *)
Lemma load_local_mirrors_mapping (w : world) (h : t) :
  (exists text m,
     local_mirrorlist w = Ok text /\ _parse_locale_mirrors text = Ok m
     /\ load_local_mirrors w h = (Ok tt, set_mappings m (log OpenedLocal h)))
  \/ (exists e, load_local_mirrors w h = (Raise e, log OpenedLocal h)).
Proof.
  unfold load_local_mirrors.
  destruct (local_mirrorlist w) as [text | err]; cbn [bind].
  - destruct (_parse_locale_mirrors text) as [m | err] eqn:Ep.
    + left. exists text, m. repeat split. exact Ep.
    + right. exists err. reflexivity.
  - right. exists err. reflexivity.
Qed.

(** What [load_mirrors] leaves as the mapping. *)
Lemma load_mirrors_mapping (w : world) (h : t) :
  (exists h' m,
     load_mirrors w h = (Ok tt, h') /\ _status_mappings h' = Some m
     /\ Order.loaded m /\ downloads h' = downloads h)
  \/ (exists e h',
        load_mirrors w h = (Raise e, h')
        /\ _status_mappings h' = _status_mappings h
        /\ downloads h' = downloads h).
Proof.
  unfold load_mirrors.
  destruct (offline w).
  - destruct (load_local_mirrors_mapping w h)
      as [(text & m & _ & Hp & ->) | (e & ->)].
    + left. eexists. exists m. split; [reflexivity |]. split; [reflexivity |].
      split; [exact (Order.loaded_local text Hp) | reflexivity].
    + right. exists e. eexists. repeat split.
  - unfold load_remote_mirrors.
    destruct (remote_attempts_mapping w (range attempts) h)
      as (b & h1 & -> & Hd & Hb).
    destruct b.
    + destruct Hb as (text & m & Hp & Hm). left. exists h1, m.
      split; [reflexivity |]. split; [exact Hm |].
      split; [exact (Order.loaded_remote text Hp) | exact Hd].
    + destruct Hb as [Hm _].
      destruct (load_local_mirrors_mapping w h1)
        as [(text & m & _ & Hp & ->) | (e & ->)].
      * left. eexists. exists m. split; [reflexivity |]. split; [reflexivity |].
        split; [exact (Order.loaded_local text Hp) | exact Hd].
      * right. exists e. eexists. split; [reflexivity |].
        split; [exact Hm | exact Hd].
Qed.
End LoadingOnDemand.

(** X11: the mapping is loaded on demand and once.  On a handler that
    holds a mapping, [_mappings] and [get_mirror_regions] answer from it
    and leave the handler as it is: nothing is fetched, opened or probed.
    On a handler that holds none, [_mappings] loads: when it answers, the
    handler holds the mapping it answered, which one of the two parsers
    produced, and every later call answers the same without loading; when
    it raises, it raises what [load_mirrors] raised and the handler still
    holds no mapping, so the next call loads again. *)
Theorem mappings_loaded_on_demand
    {U : UrlLibrary} {V : MirrorStatusListV3.Validation}
    (w : MirrorListHandler.world) (h : MirrorListHandler.t) :
  (forall m, MirrorListHandler._status_mappings h = Some m ->
     MirrorListHandler._mappings w h = (Ok m, h)
     /\ exists regions,
          MirrorListHandler.get_mirror_regions w h = (Ok regions, h)
          /\ map MirrorRegion.name regions = map fst m)
  /\ (forall m h', MirrorListHandler._mappings w h = (Ok m, h') ->
        MirrorListHandler._status_mappings h' = Some m
        /\ (MirrorListHandler._status_mappings h = None -> Order.loaded m)
        /\ forall w', MirrorListHandler._mappings w' h' = (Ok m, h'))
  /\ (forall e h', MirrorListHandler._mappings w h = (Raise e, h') ->
        MirrorListHandler._status_mappings h = None
        /\ MirrorListHandler.load_mirrors w h = (Raise e, h')
        /\ MirrorListHandler._status_mappings h' = None).
Proof.
  assert (Hheld : forall w0 h0 m,
            MirrorListHandler._status_mappings h0 = Some m ->
            MirrorListHandler._mappings w0 h0 = (Ok m, h0)).
  { intros w0 h0 m Hm. unfold MirrorListHandler._mappings. rewrite Hm.
    cbv beta iota zeta. rewrite Hm. reflexivity. }
  split.
  - intros m Hm. split; [exact (Hheld w h m Hm) |].
    unfold MirrorListHandler.get_mirror_regions. rewrite (Hheld w h m Hm).
    eexists. split; [reflexivity |].
    rewrite map_map. cbn [MirrorRegion.name]. reflexivity.
  - destruct (MirrorListHandler._status_mappings h) as [m0 |] eqn:Hm0.
    + rewrite (Hheld w h m0 Hm0). split.
      * intros m h' H. injection H as <- <-.
        split; [exact Hm0 |]. split; [discriminate |].
        intros w'. exact (Hheld w' h m0 Hm0).
      * intros e h' H. discriminate.
    + unfold MirrorListHandler._mappings. rewrite Hm0.
      destruct (load_mirrors_mapping w h)
        as [(h1 & m1 & -> & Hm1 & Hl & _) | (e1 & h1 & -> & Hm1 & _)].
      * rewrite Hm1. split.
        -- intros m h' H. injection H as <- <-.
           split; [exact Hm1 |]. split; [intros _; exact Hl |].
           intros w'. exact (Hheld w' h1 m1 Hm1).
        -- intros e h' H. discriminate.
      * split; [intros m h' H; discriminate |].
        intros e h' H. injection H as <- <-.
        split; [reflexivity |]. split; [reflexivity |].
        rewrite Hm1, Hm0. reflexivity.
Qed.

(** X12: [load_mirrors] either returns, and then the handler holds a
    mapping that one of the two parsers produced, or raises, and then the
    handler holds what it held before; no mirror is probed either way.  In
    offline mode nothing is fetched, the local list is opened once, and
    what is raised is what opening or parsing that list raised. *)
Theorem load_mirrors_outcome
    {U : UrlLibrary} {V : MirrorStatusListV3.Validation}
    (w : MirrorListHandler.world) (h : MirrorListHandler.t) :
  ((exists h' m,
      MirrorListHandler.load_mirrors w h = (Ok tt, h')
      /\ MirrorListHandler._status_mappings h' = Some m
      /\ Order.loaded m
      /\ MirrorListHandler.downloads h' = MirrorListHandler.downloads h)
   \/ (exists e h',
         MirrorListHandler.load_mirrors w h = (Raise e, h')
         /\ MirrorListHandler._status_mappings h'
            = MirrorListHandler._status_mappings h
         /\ MirrorListHandler.downloads h' = MirrorListHandler.downloads h))
  /\ (MirrorListHandler.offline w = true ->
      let h' := snd (MirrorListHandler.load_mirrors w h) in
      MirrorListHandler.fetches h' = MirrorListHandler.fetches h
      /\ MirrorListHandler.trace h'
         = MirrorListHandler.trace h ++ [MirrorListHandler.OpenedLocal]
      /\ fst (MirrorListHandler.load_mirrors w h)
         = (let* mirrorlist := MirrorListHandler.local_mirrorlist w in
            let* m := MirrorListHandler._parse_locale_mirrors mirrorlist in
            Ok tt)).
Proof.
  split; [apply load_mirrors_mapping |].
  intros Hoff. unfold MirrorListHandler.load_mirrors. rewrite Hoff.
  unfold MirrorListHandler.load_local_mirrors.
  destruct (MirrorListHandler.local_mirrorlist w) as [text | err]; cbn [bind].
  - destruct (MirrorListHandler._parse_locale_mirrors text) as [m | err];
      cbn [bind fst snd]; repeat split.
  - cbn [fst snd]. repeat split.
Qed.

Lemma load_mirrors_outcome_witness :
  MirrorListHandler.trace
    (snd (MirrorListHandler.load_mirrors
            (U := Sample.urllib) (V := SampleWorld.no_validation)
            (SampleLocal.bare_world (fun _ => MirrorStatusEntryV3.URLError))
            MirrorListHandler.init))
  = [MirrorListHandler.OpenedLocal].
Proof.
  exact (proj1 (proj2 (proj2
    (@load_mirrors_outcome Sample.urllib SampleWorld.no_validation
       (SampleLocal.bare_world (fun _ => MirrorStatusEntryV3.URLError))
       MirrorListHandler.init) eq_refl))).
Defined.

(** ** The regions on offer after a remote load *)

Section StringOrder.
Lemma ltb_compare (a b : string) :
  String.ltb a b = true <-> String.compare a b = Lt.
Proof. unfold String.ltb. destruct (String.compare a b); split; congruence. Qed.

Lemma ltb_asym (a b : string) : String.ltb a b = true -> String.ltb b a = false.
Proof.
  intros H. apply ltb_compare in H. unfold String.ltb.
  rewrite String.compare_antisym, H. reflexivity.
Qed.

Lemma ltb_trans (a b c : string) :
  String.ltb a b = true -> String.ltb b c = true -> String.ltb a c = true.
Proof.
  rewrite !ltb_compare. intros H1 H2.
  apply OrderedTypeEx.String_as_OT.cmp_lt.
  apply OrderedTypeEx.String_as_OT.lt_trans with b;
    apply OrderedTypeEx.String_as_OT.cmp_lt; assumption.
Qed.

Lemma ltb_connex (a b : string) :
  String.ltb b a = false -> a <> b -> String.ltb a b = true.
Proof.
  intros H Hne. unfold String.ltb in *.
  rewrite String.compare_antisym in H.
  destruct (String.compare a b) eqn:E; cbn in H; try congruence.
  apply String.compare_eq_iff in E. contradiction.
Qed.

(** [b < a] fails along the list: the order of [sorted] on names. *)
Lemma not_ltb_trans (a b c : string) :
  String.ltb b a = false -> String.ltb c b = false -> String.ltb c a = false.
Proof.
  intros H1 H2. destruct (String.ltb c a) eqn:E; [| reflexivity].
  destruct (String.eqb_spec a b) as [-> | Hab]; [congruence |].
  pose proof (ltb_connex H1 Hab) as Hlt.
  assert (Hcb : String.ltb c b = true) by (eapply ltb_trans; eassumption).
  congruence.
Qed.
End StringOrder.

Section RegionsOnOffer.
Context {U : UrlLibrary} {V : MirrorStatusListV3.Validation}.
Import MirrorStatusEntryV3 MirrorListHandler Feed.

(** The regions come out of the remote parse in the order of their names,
    no name twice. *)
Lemma sort_regions_sorted (P m : mappings) :
  NoDup (map fst P) ->
  sort_regions P = Ok m ->
  StronglySorted (fun a b => String.ltb a b = true) (map fst m).
Proof.
  intros Hnd. unfold sort_regions.
  destruct (sort_by str_lt (map (fun kv => (fst kv, kv)) P)) as [items |] eqn:Hitems;
    cbn [bind]; [| discriminate].
  assert (Hperm : Permutation P (map snd items)).
  { apply sort_by_perm in Hitems.
    apply (Permutation_map snd) in Hitems.
    rewrite map_map in Hitems. cbn [snd] in Hitems. rewrite map_id in Hitems.
    exact Hitems. }
  assert (Hnd' : NoDup (map fst (map snd items))).
  { apply Permutation_NoDup with (l := map fst P); [| exact Hnd].
    apply Permutation_map. exact Hperm. }
  rewrite dict_of_items by exact Hnd'. cbn [app].
  intros H. injection H as <-.
  assert (Hkeys : Forall (fun x : string * (string * list entry) =>
                            fst x = fst (snd x)) items).
  { apply (Permutation_Forall (sort_by_perm _ _ Hitems)).
    apply Forall_forall. intros x Hx. apply in_map_iff in Hx.
    destruct Hx as (kv & <- & _). reflexivity. }
  assert (Hsorted : StronglySorted
            (fun x y : string * (string * list entry) =>
               String.ltb (fst y) (fst x) = false) items).
  { apply (@sort_by_sorted string (string * list entry) str_lt
             (fun a b => String.ltb b a = false)) with (l := map (fun kv => (fst kv, kv)) P).
    - intros a b H. injection H as H. apply ltb_asym. exact H.
    - intros a b H. injection H as H. exact H.
    - intros a b c. apply not_ltb_trans.
    - exact Hitems. }
  clear Hitems Hperm. induction Hsorted as [| x xs Hxs IH Hall]; cbn [map].
  - constructor.
  - inversion Hkeys as [| ? ? Hx Hkxs]; subst.
    cbn [map] in Hnd'. inversion Hnd' as [| ? ? Hnotin Hnd'']; subst.
    constructor; [exact (IH Hnd'' Hkxs) |].
    apply Forall_forall. intros k Hk.
    apply in_map_iff in Hk. destruct Hk as (kv & <- & Hkv).
    apply in_map_iff in Hkv. destruct Hkv as (y & <- & Hy).
    rewrite Forall_forall in Hall, Hkxs.
    specialize (Hall y Hy). cbn beta in Hall.
    rewrite <- Hx, <- (Hkxs y Hy).
    apply ltb_connex; [exact Hall |].
    intros Heq. apply Hnotin. rewrite <- Hx, Heq, (Hkxs y Hy).
    apply in_map. apply in_map. exact Hy.
Qed.

Lemma prefix_append (p s t : string) :
  String.prefix p s = true -> String.prefix p (String.append s t) = true.
Proof.
  revert s. induction p as [| a p IH]; intros s;
    [intros _; destruct (String.append s t); reflexivity |].
  destruct s as [| b s]; cbn [String.prefix String.append]; [discriminate |].
  destruct (ascii_dec a b); [apply IH | discriminate].
Qed.
End RegionsOnOffer.

(** X13: after a remote load, [get_mirror_regions] offers the regions in
    strictly ascending order of their names, so no name comes twice; every
    region has at least one url; the urls of a region are the server urls
    of its kept mirrors in feed order; and every one of them begins with
    [http] and ends with [$repo/os/$arch]. *)
Theorem get_mirror_regions_after_remote_load
    {U : UrlLibrary} {V : MirrorStatusListV3.Validation}
    (w : MirrorListHandler.world) (h : MirrorListHandler.t)
    (mirrorlist : string) (mirror_status : MirrorStatusListV3.t)
    (m : MirrorListHandler.mappings) :
  MirrorStatusListV3.model_validate_json mirrorlist = Ok mirror_status ->
  MirrorListHandler._parse_remote_mirror_list mirrorlist = Ok m ->
  MirrorListHandler._status_mappings h = Some m ->
  exists regions,
    MirrorListHandler.get_mirror_regions w h = (Ok regions, h)
    /\ StronglySorted (fun a b => String.ltb a b = true)
         (map MirrorRegion.name regions)
    /\ NoDup (map MirrorRegion.name regions)
    /\ Forall
         (fun region =>
            MirrorRegion.urls region <> []
            /\ MirrorRegion.urls region
               = map MirrorStatusEntryV3.server_url
                   (Feed.region_entries (MirrorStatusListV3.urls mirror_status)
                      (MirrorRegion.name region))
            /\ Forall (fun u =>
                         startswith u "http" = true
                         /\ exists base, u = String.append base "$repo/os/$arch")
                      (MirrorRegion.urls region))
         regions.
Proof.
  intros Hval Hparse Hm.
  unfold MirrorListHandler._parse_remote_mirror_list in Hparse.
  rewrite Hval in Hparse. cbn [bind] in Hparse.
  assert (HndP : NoDup (map fst (fold_left MirrorListHandler.remote_step
                                   (MirrorStatusListV3.urls mirror_status) []))).
  { apply fold_remote_step_nodup. constructor. }
  pose proof (@sort_regions_sorted _ _ HndP Hparse) as Hsorted.
  destruct (remote_regions_char mirror_status) as (m' & Hm' & Hchar).
  rewrite Hparse in Hm'. injection Hm' as <-.
  assert (Hnd : NoDup (map fst m)).
  { clear - Hsorted. induction Hsorted as [| k ks Hks IH Hall]; constructor; auto.
    intros Hin. rewrite Forall_forall in Hall. specialize (Hall k Hin).
    pose proof (ltb_asym _ _ Hall) as Hc. congruence. }
  unfold MirrorListHandler.get_mirror_regions, MirrorListHandler._mappings.
  rewrite Hm. cbv beta iota zeta. rewrite Hm.
  eexists. split; [reflexivity |].
  rewrite map_map. cbn [MirrorRegion.name].
  split; [exact Hsorted |]. split; [exact Hnd |].
  apply Forall_forall. intros region Hin. apply in_map_iff in Hin.
  destruct Hin as ([k es] & <- & Hkv). cbn [MirrorRegion.urls MirrorRegion.name fst snd].
  pose proof (in_dict_get m k es Hnd Hkv) as Hget.
  rewrite Hchar in Hget.
  destruct (Feed.region_entries (MirrorStatusListV3.urls mirror_status) k)
    as [| x xs] eqn:Ere; [discriminate |].
  injection Hget as <-.
  split; [discriminate |]. split; [reflexivity |].
  apply Forall_forall. intros u Hu. apply in_map_iff in Hu.
  destruct Hu as (e & <- & He).
  split; [| eexists; reflexivity].
  rewrite <- Ere in He. apply region_entries_sound in He.
  destruct He as (e0 & _ & Hacc & -> & _).
  destruct (accepted_facts e0 Hacc) as (_ & _ & _ & Hurl).
  unfold startswith, MirrorStatusEntryV3.server_url in *.
  apply prefix_append. rewrite placed_url. exact Hurl.
Qed.

Lemma get_mirror_regions_after_remote_load_witness :
  exists regions,
    MirrorListHandler.get_mirror_regions
      (U := Sample.urllib) (V := SampleFeed.validation)
      SampleWorld.dead SampleFeed.handler
    = (Ok regions, SampleFeed.handler)
    /\ NoDup (map MirrorRegion.name regions).
Proof.
  destruct (@get_mirror_regions_after_remote_load
              Sample.urllib SampleFeed.validation SampleWorld.dead
              SampleFeed.handler "" SampleFeed.status SampleFeed.regions
              eq_refl eq_refl eq_refl)
    as (regions & Hrun & _ & Hnd & _).
  exists regions. split; [exact Hrun | exact Hnd].
Defined.

(** ** What the local parser stores *)

Section LocalEntries.
Context {U : UrlLibrary}.
Import MirrorStatusEntryV3 MirrorListHandler.

(** A mirror as the local parser defines it for the region [k]. *)
Let defined_in (k : string) (e : entry) : Prop :=
  country e = k /\ k <> EmptyString /\ active e = true
  /\ country_code e = "WW" /\ isos e = true /\ ipv4 e = true /\ ipv6 e = true
  /\ details e = "Locally defined mirror"
  /\ score e = None /\ last_sync e = None /\ _speed e = None
  /\ _hostname e <> None.

Let all_defined (m : mappings) : Prop :=
  Forall (fun kv => Forall (defined_in (fst kv)) (snd kv)) m.

Let count (m : mappings) : nat := List.length (List.concat (map snd m)).

Lemma new_fields (u p : string) (a : bool) (c cc : string) (i v4 v6 : bool)
    (d : string) (e : entry) :
  MirrorStatusEntryV3.new u p a c cc i v4 v6 d = Ok e ->
  url e = u /\ protocol e = p /\ active e = a /\ country e = c
  /\ country_code e = cc /\ isos e = i /\ ipv4 e = v4 /\ ipv6 e = v6
  /\ details e = d /\ score e = None /\ last_sync e = None /\ _speed e = None
  /\ _hostname e <> None.
Proof.
  unfold MirrorStatusEntryV3.new, debug_output. cbn [url].
  destruct (urlparse u) as [parsed | err]; cbn [bind]; [| discriminate].
  destruct (split_once (snd parsed) ":") as [hostname [port |]].
  - destruct (py_int port) as [z | err]; cbn [bind]; [| discriminate].
    intros H. injection H as <-. repeat split. discriminate.
  - cbn [bind]. intros H. injection H as <-. repeat split. discriminate.
Qed.

Lemma setdefault_all_defined (m : mappings) (k : string) :
  all_defined m -> all_defined (dict_setdefault m k [])
  /\ count (dict_setdefault m k []) = count m.
Proof.
  intros H. unfold dict_setdefault. destruct (dict_mem m k); [split; auto |].
  split.
  - apply Forall_app. split; [exact H |]. repeat constructor.
  - unfold count. rewrite map_app, concat_app, length_app. cbn. lia.
Qed.

Lemma append_all_defined (m : mappings) (k : string) (x : entry) :
  all_defined m -> defined_in k x -> dict_mem m k = true ->
  all_defined (dict_append m k x) /\ count (dict_append m k x) = S (count m).
Proof.
  intros H Hx. unfold dict_mem.
  induction H as [| [k0 v0] rest Hv Hrest IH]; cbn [dict_append dict_get];
    [discriminate |].
  destruct (String.eqb_spec k0 k) as [-> | Hk].
  - intros _. split.
    + constructor; [| exact Hrest]. cbn [fst snd] in *.
      apply Forall_app. split; [exact Hv | constructor; [exact Hx | constructor]].
    + unfold count. cbn [map List.concat snd]. rewrite !length_app. cbn. lia.
  - intros Hmem. destruct (IH Hmem) as [IH1 IH2]. split.
    + constructor; [exact Hv | exact IH1].
    + unfold count in *. cbn [map List.concat snd]. rewrite !length_app, IH2. lia.
Qed.

Lemma locale_step_entries (st st' : mappings * string) (line : string) :
  NoDup (map fst (fst st)) -> all_defined (fst st) ->
  locale_step st line = Ok st' ->
  NoDup (map fst (fst st')) /\ all_defined (fst st')
  /\ count (fst st')
     = (count (fst st)
        + if startswith (strip line) "Server = " then 1 else 0)%nat.
Proof.
  destruct st as [ml cr]. cbn [fst]. intros Hnd Hml. unfold locale_step.
  set (t := strip line).
  set (st1 := if startswith t "## " then _ else _).
  assert (H1 : NoDup (map fst (fst st1)) /\ all_defined (fst st1)
               /\ count (fst st1) = count ml).
  { subst st1. destruct (startswith t "## "); cbn [fst]; [| auto].
    destruct (setdefault_all_defined (strip (replace t "## " "")) Hml).
    split; [apply dict_setdefault_nodup; exact Hnd | auto]. }
  destruct st1 as [ml1 cr1]. cbn [fst] in H1. destruct H1 as (Hnd1 & Hd1 & Hc1).
  destruct (startswith t "Server = ").
  - set (st2 := if String.eqb cr1 "" then _ else _).
    assert (H2 : NoDup (map fst (fst st2)) /\ all_defined (fst st2)
                 /\ count (fst st2) = count ml /\ snd st2 <> EmptyString).
    { subst st2. destruct (String.eqb_spec cr1 "") as [E | E]; cbn [fst snd].
      - destruct (setdefault_all_defined "Local" Hd1).
        split; [apply dict_setdefault_nodup; exact Hnd1 |].
        split; [assumption |]. split; [congruence | discriminate].
      - auto. }
    destruct st2 as [ml2 cr2]. cbn [fst snd] in H2.
    destruct H2 as (Hnd2 & Hd2 & Hc2 & Hcr2).
    destruct (urlparse _) as [parsed | e]; cbn [bind]; [| discriminate].
    destruct (MirrorStatusEntryV3.new _ _ _ _ _ _ _ _ _) as [mirror | e] eqn:En;
      cbn [bind]; [| discriminate].
    destruct (dict_item ml2 cr2) as [es |] eqn:Ei; cbn [bind]; [| discriminate].
    intros H. injection H as <-. cbn [fst].
    assert (Hmem : dict_mem ml2 cr2 = true).
    { unfold dict_mem. unfold dict_item in Ei.
      destruct (dict_get ml2 cr2); [reflexivity | discriminate]. }
    assert (Hx : defined_in cr2 mirror).
    { apply new_fields in En.
      destruct En as (_ & _ & Ha & Hc & Hcc & Hi & H4 & H6 & Hdt & Hs & Hl & Hsp & Hh).
      destruct (String.eqb_spec cr2 "") as [E | E]; [contradiction |].
      repeat split; assumption. }
    destruct (append_all_defined Hd2 Hx Hmem) as [Ha Hc].
    split; [rewrite dict_append_keys; exact Hnd2 |].
    split; [exact Ha |]. rewrite Hc, Hc2. lia.
  - intros H. injection H as <-. cbn [fst].
    split; [exact Hnd1 |]. split; [exact Hd1 |]. rewrite Hc1. lia.
Qed.

Lemma locale_loop_entries (lines : list string) (st st' : mappings * string) :
  NoDup (map fst (fst st)) -> all_defined (fst st) ->
  locale_loop st lines = Ok st' ->
  NoDup (map fst (fst st')) /\ all_defined (fst st')
  /\ count (fst st')
     = (count (fst st)
        + List.length (filter (fun line => startswith (strip line) "Server = ")
                              lines))%nat.
Proof.
  revert st. induction lines as [| line rest IH]; intros st Hnd Hd;
    cbn [locale_loop filter].
  - intros H. injection H as <-. repeat split; auto.
  - destruct (locale_step st line) as [st1 |] eqn:E; cbn [bind]; [| discriminate].
    destruct (locale_step_entries st line Hnd Hd E) as (Hnd1 & Hd1 & Hc1).
    intros H. destruct (IH st1 Hnd1 Hd1 H) as (Hnd2 & Hd2 & Hc2).
    split; [exact Hnd2 |]. split; [exact Hd2 |]. rewrite Hc2, Hc1.
    destruct (startswith (strip line) "Server = "); cbn [List.length]; lia.
Qed.

(** What a successful local parse holds. *)
Lemma parse_locale_mirrors_holds (mirrorlist : string) (m : mappings) :
  _parse_locale_mirrors mirrorlist = Ok m ->
  NoDup (map fst m)
  /\ (forall region es e, In (region, es) m -> In e es -> defined_in region e)
  /\ List.length (List.concat (map snd m))
     = List.length (filter (fun line => startswith (strip line) "Server = ")
                           (splitlines mirrorlist)).
Proof.
  unfold _parse_locale_mirrors. intros H. apply bind_ok in H.
  destruct H as (st & Hloop & Hst). injection Hst as <-.
  destruct (@locale_loop_entries (splitlines mirrorlist) ([], EmptyString) st)
    as (Hnd & Hd & Hc); [constructor | constructor | exact Hloop |].
  split; [exact Hnd |]. split; [| exact Hc].
  intros region es e Hin He. unfold all_defined in Hd.
  rewrite Forall_forall in Hd. specialize (Hd _ Hin). cbn [fst snd] in Hd.
  rewrite Forall_forall in Hd. exact (Hd e He).
Qed.
End LocalEntries.

(** X14: when the local parse succeeds, no region name comes twice; every
    mirror it stores stands under the region that is its country, a name
    that is not empty, and is active, of country code [WW], with the three
    capabilities, the details [Locally defined mirror], a host name, and
    neither score, last sync nor speed; and over all regions there are as
    many mirrors as the text has lines that, trimmed, start with
    [Server = ]: no server line is dropped and none counts twice. *)
Theorem parse_locale_mirrors_stores {U : UrlLibrary}
    (mirrorlist : string) (m : MirrorListHandler.mappings) :
  MirrorListHandler._parse_locale_mirrors mirrorlist = Ok m ->
  NoDup (map fst m)
  /\ (forall region es e, In (region, es) m -> In e es ->
        MirrorStatusEntryV3.country e = region
        /\ region <> EmptyString
        /\ MirrorStatusEntryV3.active e = true
        /\ MirrorStatusEntryV3.country_code e = "WW"
        /\ MirrorStatusEntryV3.isos e = true
        /\ MirrorStatusEntryV3.ipv4 e = true
        /\ MirrorStatusEntryV3.ipv6 e = true
        /\ MirrorStatusEntryV3.details e = "Locally defined mirror"
        /\ MirrorStatusEntryV3.score e = None
        /\ MirrorStatusEntryV3.last_sync e = None
        /\ MirrorStatusEntryV3._speed e = None
        /\ MirrorStatusEntryV3._hostname e <> None)
  /\ List.length (List.concat (map snd m))
     = List.length (filter (fun line => startswith (strip line) "Server = ")
                           (splitlines mirrorlist)).
Proof. intros H. exact (parse_locale_mirrors_holds mirrorlist H). Qed.

Lemma parse_locale_mirrors_stores_witness :
  List.length (List.concat (map snd SampleLocal.regions)) = 2%nat.
Proof.
  exact (proj2 (proj2
    (@parse_locale_mirrors_stores Sample.urllib Grammar.two_regions
       SampleLocal.regions eq_refl))).
Defined.

(** ** The list managers *)

Section ReplaceByKey.
Variables (A : Type) (key : A -> string).

(** Dropping the elements with the key of [x] and appending [x]. *)
Lemma replace_by_key_nodup (k : string) (x : A) (data : list A) :
  key x = k ->
  NoDup (map key data) ->
  NoDup (map key (filter (fun d => negb (String.eqb (key d) k)) data ++ [x])).
Proof.
  intros Hx Hnd. rewrite map_app. cbn [map].
  apply NoDup_app_remove_l with (l := []). cbn [app].
  apply Permutation_NoDup
    with (l := key x :: map key (filter (fun d => negb (String.eqb (key d) k)) data)).
  - apply Permutation_cons_append.
  - constructor.
    + intros Hin. apply in_map_iff in Hin. destruct Hin as (d & Hd & Hin).
      apply filter_In in Hin. destruct Hin as [_ Hne].
      rewrite Hd, Hx, String.eqb_refl in Hne. discriminate.
    + clear Hx. induction data as [| d ds IH]; cbn [filter map]; [constructor |].
      cbn [map] in Hnd. inversion Hnd as [| ? ? Hnotin Hnd']; subst.
      destruct (negb (String.eqb (key d) k)); cbn [map]; [| exact (IH Hnd')].
      constructor; [| exact (IH Hnd')].
      intros Hin. apply Hnotin. apply in_map_iff in Hin.
      destruct Hin as (d' & Hd' & Hin'). apply filter_In in Hin'.
      apply in_map_iff. exists d'. tauto.
Qed.

End ReplaceByKey.

Lemma CustomRepository_eqb_eq (a b : CustomRepository.t) :
  CustomRepository.eqb a b = true <-> a = b.
Proof.
  destruct a as [n u sc so], b as [n' u' sc' so']. unfold CustomRepository.eqb.
  cbn [CustomRepository.name CustomRepository.url CustomRepository.sign_check
       CustomRepository.sign_option].
  split.
  - intros H. apply andb_true_iff in H. destruct H as [H Hso].
    apply andb_true_iff in H. destruct H as [H Hsc].
    apply andb_true_iff in H. destruct H as [Hn Hu].
    apply String.eqb_eq in Hn, Hu. subst.
    destruct sc, sc'; try discriminate; destruct so, so'; try discriminate;
      reflexivity.
  - intros H. injection H as <- <- <- <-. rewrite !String.eqb_refl.
    destruct sc, so; reflexivity.
Qed.

(** X15: [handle_action] of the list of custom repositories.  Adding what
    the dialog answers puts it last and drops every repository of its
    name, so names that were distinct stay distinct.  Changing an entry
    drops every repository of the name of the entry and puts the answer
    last; when the dialog is skipped at its first prompt the answer is the
    entry itself, which so moves to the end.  Deleting drops exactly the
    repositories equal to the entry, in all four fields, without asking
    anything.  Any other action, and changing or deleting without an
    entry, leaves the list as it is. *)
Theorem repositories_handle_action_effect {T : TuiLibrary}
    (_actions : Tui.actions) (ui : CustomMirrorRepositoriesList.dialog)
    (action : string) (entry : option CustomRepository.t)
    (data : list CustomRepository.t) :
  let run := CustomMirrorRepositoriesList.handle_action _actions ui action entry data in
  (action = Tui.add_action _actions ->
   forall new_repo,
     CustomMirrorRepositoriesList._add_custom_repository ui None = Ok (Some new_repo) ->
     exists kept,
       run = Ok (kept ++ [new_repo])
       /\ (forall d, In d kept <->
             In d data /\ CustomRepository.name d <> CustomRepository.name new_repo)
       /\ (NoDup (map CustomRepository.name data) ->
           NoDup (map CustomRepository.name (kept ++ [new_repo]))))
  /\ (action <> Tui.add_action _actions ->
      action = Tui.change_action _actions ->
      forall e, entry = Some e ->
        (forall new_repo,
           CustomMirrorRepositoriesList._add_custom_repository ui (Some e)
           = Ok (Some new_repo) ->
           exists kept,
             run = Ok (kept ++ [new_repo])
             /\ forall d, In d kept <->
                  In d data /\ CustomRepository.name d <> CustomRepository.name e)
        /\ (Tui.type_ (CustomMirrorRepositoriesList.name_result ui) = Skip ->
            exists kept,
              run = Ok (kept ++ [e])
              /\ forall d, In d kept <->
                   In d data /\ CustomRepository.name d <> CustomRepository.name e))
  /\ (action <> Tui.add_action _actions ->
      action <> Tui.change_action _actions ->
      action = Tui.delete_action _actions ->
      forall e, entry = Some e ->
        exists kept,
          run = Ok kept
          /\ kept = filter (fun d => negb (CustomRepository.eqb d e)) data
          /\ ~ In e kept
          /\ forall d, In d kept <-> In d data /\ d <> e)
  /\ ((action <> Tui.add_action _actions /\ entry = None)
      \/ (action <> Tui.add_action _actions
          /\ action <> Tui.change_action _actions
          /\ action <> Tui.delete_action _actions) ->
      run = Ok data).
Proof.
  cbv zeta. unfold CustomMirrorRepositoriesList.handle_action.
  assert (Hfilter : forall k d,
            In d (filter (fun d0 => negb (String.eqb (CustomRepository.name d0) k)) data)
            <-> In d data /\ CustomRepository.name d <> k).
  { intros k d. rewrite filter_In. split; intros [Hin Hne]; split; try exact Hin.
    - intros E. rewrite E, String.eqb_refl in Hne. discriminate.
    - destruct (String.eqb_spec (CustomRepository.name d) k);
        [contradiction | reflexivity]. }
  split; [| split; [| split]].
  - intros -> new_repo Hnew. rewrite String.eqb_refl, Hnew. cbn [bind].
    eexists. split; [reflexivity |]. split; [apply Hfilter |].
    apply replace_by_key_nodup. reflexivity.
  - intros Hadd -> e -> . apply String.eqb_neq in Hadd. rewrite Hadd.
    rewrite String.eqb_refl. split.
    + intros new_repo Hnew. rewrite Hnew. cbn [bind].
      eexists. split; [reflexivity | apply Hfilter].
    + intros Hskip.
      assert (Hnew : CustomMirrorRepositoriesList._add_custom_repository ui (Some e)
                     = Ok (Some e)).
      { unfold CustomMirrorRepositoriesList._add_custom_repository. rewrite Hskip.
        destruct (ResultType_eqb Skip Selection) eqn:E.
        - apply ResultType_eqb_eq in E. destruct (Skip_Selection E).
        - assert (E2 : ResultType_eqb Skip Skip = true)
            by (apply ResultType_eqb_eq; reflexivity).
          rewrite E2. reflexivity. }
      rewrite Hnew. cbn [bind]. eexists. split; [reflexivity | apply Hfilter].
  - intros Hadd Hchange -> e ->.
    apply String.eqb_neq in Hadd, Hchange. rewrite Hadd, Hchange.
    rewrite String.eqb_refl. eexists. split; [reflexivity |].
    split; [reflexivity |].
    assert (Hin : forall d,
              In d (filter (fun d0 => negb (CustomRepository.eqb d0 e)) data)
              <-> In d data /\ d <> e).
    { intros d. rewrite filter_In. split; intros [Hin Hne]; split; try exact Hin.
      - intros E. subst d.
        assert (Heq : CustomRepository.eqb e e = true)
          by (apply CustomRepository_eqb_eq; reflexivity).
        rewrite Heq in Hne. discriminate.
      - destruct (CustomRepository.eqb d e) eqn:E; [| reflexivity].
        apply CustomRepository_eqb_eq in E. contradiction. }
    split; [| exact Hin]. intros He. apply Hin in He. destruct He as [_ He].
    apply He. reflexivity.
  - intros [[Hadd ->] | (Hadd & Hchange & Hdelete)];
      apply String.eqb_neq in Hadd; rewrite Hadd; [reflexivity |].
    apply String.eqb_neq in Hchange, Hdelete. rewrite Hchange, Hdelete.
    destruct entry; reflexivity.
Qed.

Lemma ResultType_eqb_refl {T : TuiLibrary} (a : ResultType) :
  ResultType_eqb a a = true.
Proof. apply ResultType_eqb_eq. reflexivity. Qed.

Lemma ResultType_eqb_neq {T : TuiLibrary} (a b : ResultType) :
  a <> b -> ResultType_eqb a b = false.
Proof.
  intros H. destruct (ResultType_eqb a b) eqn:E; [| reflexivity].
  apply ResultType_eqb_eq in E. contradiction.
Qed.

(** X16: [handle_action] of the list of custom servers.  Adding or
    changing with a url typed in puts the server of that url last, after
    dropping the servers of that url (adding) or of the url of the entry
    (changing); adding keeps distinct urls distinct.  Skipping the prompt
    leaves the list alone when adding and moves the entry to the end when
    changing.  Deleting drops every server with the url of the entry.  Any
    other action, and changing or deleting without an entry, leaves the
    list as it is. *)
Theorem servers_handle_action_effect {T : TuiLibrary}
    (_actions : Tui.actions) (ui : Tui.menu_result string)
    (action : string) (entry : option CustomServer.t)
    (data : list CustomServer.t) :
  let run := CustomMirrorServersList.handle_action _actions ui action entry data in
  let others (u : string) :=
    filter (fun d => negb (String.eqb (CustomServer.url d) u)) data in
  (action = Tui.add_action _actions ->
   (Tui.type_ ui = Selection ->
    run = others (Tui.item ui) ++ [CustomServer.mk (Tui.item ui)]
    /\ (NoDup (map CustomServer.url data) -> NoDup (map CustomServer.url run)))
   /\ (Tui.type_ ui <> Selection -> run = data))
  /\ (action <> Tui.add_action _actions ->
      action = Tui.change_action _actions ->
      forall e, entry = Some e ->
        (Tui.type_ ui = Selection ->
         run = others (CustomServer.url e) ++ [CustomServer.mk (Tui.item ui)])
        /\ (Tui.type_ ui = Skip -> run = others (CustomServer.url e) ++ [e])
        /\ (Tui.type_ ui <> Selection -> Tui.type_ ui <> Skip -> run = data))
  /\ (action <> Tui.add_action _actions ->
      action <> Tui.change_action _actions ->
      action = Tui.delete_action _actions ->
      forall e, entry = Some e ->
        run = others (CustomServer.url e)
        /\ ~ In (CustomServer.url e) (map CustomServer.url run))
  /\ ((action <> Tui.add_action _actions /\ entry = None)
      \/ (action <> Tui.add_action _actions
          /\ action <> Tui.change_action _actions
          /\ action <> Tui.delete_action _actions) ->
      run = data).
Proof.
  cbv zeta. unfold CustomMirrorServersList.handle_action,
    CustomMirrorServersList._add_custom_server.
  split; [| split; [| split]].
  - intros ->. rewrite String.eqb_refl. split.
    + intros ->. rewrite ResultType_eqb_refl. split; [reflexivity |].
      apply replace_by_key_nodup. reflexivity.
    + intros Hsel. rewrite (ResultType_eqb_neq Hsel).
      destruct (ResultType_eqb (Tui.type_ ui) Skip); reflexivity.
  - intros Hadd -> e ->. apply String.eqb_neq in Hadd. rewrite Hadd.
    rewrite String.eqb_refl. split; [| split].
    + intros ->. rewrite ResultType_eqb_refl. reflexivity.
    + intros ->. rewrite (ResultType_eqb_neq Skip_Selection).
      rewrite ResultType_eqb_refl. reflexivity.
    + intros Hsel Hskip.
      rewrite (ResultType_eqb_neq Hsel), (ResultType_eqb_neq Hskip). reflexivity.
  - intros Hadd Hchange -> e ->.
    apply String.eqb_neq in Hadd, Hchange. rewrite Hadd, Hchange.
    rewrite String.eqb_refl. split; [reflexivity |].
    intros Hin. apply in_map_iff in Hin. destruct Hin as (d & Hd & Hin).
    apply filter_In in Hin. destruct Hin as [_ Hne].
    unfold CustomServer.eqb in Hne. rewrite Hd, String.eqb_refl in Hne.
    discriminate.
  - intros [[Hadd ->] | (Hadd & Hchange & Hdelete)];
      apply String.eqb_neq in Hadd; rewrite Hadd; [reflexivity |].
    apply String.eqb_neq in Hchange, Hdelete. rewrite Hchange, Hdelete.
    destruct entry; reflexivity.
Qed.

(** ** The menus over the handler *)

Section MenusOverHandler.
Context {T : TuiLibrary} {U : UrlLibrary} {V : MirrorStatusListV3.Validation}.
Import MirrorListHandler.

Lemma get_mirror_regions_held (w : world) (h : t) (m : mappings) :
  _status_mappings h = Some m ->
  get_mirror_regions w h
  = (Ok (map (fun item => MirrorRegion.mk (fst item)
                            (map MirrorStatusEntryV3.server_url (snd item))) m),
     h).
Proof.
  intros Hm. unfold get_mirror_regions, _mappings. rewrite Hm.
  cbv beta iota zeta. rewrite Hm. reflexivity.
Qed.

Lemma region_in_names (region : MirrorRegion.t) (preset : list MirrorRegion.t) :
  Menus.region_in region preset = true
  <-> In (MirrorRegion.name region) (map MirrorRegion.name preset).
Proof.
  unfold Menus.region_in. rewrite existsb_exists. split.
  - intros (p & Hp & E). unfold MirrorRegion.eq in E. apply String.eqb_eq in E.
    rewrite <- E. apply in_map. exact Hp.
  - intros Hin. apply in_map_iff in Hin. destruct Hin as (p & E & Hp).
    exists p. split; [exact Hp |]. unfold MirrorRegion.eq. rewrite E.
    apply String.eqb_refl.
Qed.
End MenusOverHandler.

(** X17: [select_mirror_regions] loads the mirrors anew on every call,
    also on a handler that holds a mapping, and raises what that load
    raises.  After the load, with no region to offer it answers the empty
    list without showing a menu; otherwise a skipped menu answers the
    offered regions whose name is the name of a preset region, in the
    order of the offer: a preset region that is no longer on offer is
    dropped, and one that is comes back with the urls of the offer, not
    with its own; a reset answers the empty list and a selection what was
    selected. *)
Theorem select_mirror_regions_outcome
    {T : TuiLibrary} {U : UrlLibrary} {V : MirrorStatusListV3.Validation}
    (w : MirrorListHandler.world)
    (menu : list MirrorRegion.t -> list MirrorRegion.t ->
            Tui.menu_result (list MirrorRegion.t))
    (preset : list MirrorRegion.t) (h : MirrorListHandler.t) :
  let run := Menus.select_mirror_regions w menu preset h in
  (forall e h1, MirrorListHandler.load_mirrors w h = (Raise e, h1) ->
     run = (Raise e, h1))
  /\ (forall h1, MirrorListHandler.load_mirrors w h = (Ok tt, h1) ->
      exists m available,
        MirrorListHandler._status_mappings h1 = Some m
        /\ MirrorListHandler.get_mirror_regions w h1 = (Ok available, h1)
        /\ snd run = h1
        /\ (available = [] -> fst run = Ok [])
        /\ (available <> [] ->
            exists preselected,
              (forall region, In region preselected <->
                 In region available
                 /\ In (MirrorRegion.name region) (map MirrorRegion.name preset))
              /\ (exists keep, preselected = filter keep available)
              /\ (Tui.type_ (menu available preselected) = Skip ->
                  fst run = Ok preselected)
              /\ (Tui.type_ (menu available preselected) = Reset ->
                  fst run = Ok [])
              /\ (Tui.type_ (menu available preselected) = Selection ->
                  fst run = Ok (Tui.item (menu available preselected))))).
Proof.
  cbv zeta. unfold Menus.select_mirror_regions. split.
  - intros e h1 ->. reflexivity.
  - intros h1 Hload. rewrite Hload.
    destruct (load_mirrors_mapping w h)
      as [(h2 & m & Hl & Hm & _) | (e & h2 & Hl & _)];
      rewrite Hload in Hl; [| discriminate].
    injection Hl as <-.
    pose proof (get_mirror_regions_held w h1 Hm) as Hheld.
    remember (map (fun item => MirrorRegion.mk (fst item)
                     (map MirrorStatusEntryV3.server_url (snd item))) m)
      as available eqn:Ea.
    exists m, available. split; [exact Hm |]. split; [exact Hheld |].
    rewrite Hheld. clear Hheld Ea.
    destruct available as [| a rest].
    + split; [reflexivity |]. split; [reflexivity |]. intros H. contradiction.
    + set (available := a :: rest).
      set (preselected := filter (fun region => Menus.region_in region preset) available).
      set (answer := menu available preselected).
      assert (Hsnd : snd (if ResultType_eqb (Tui.type_ answer) Skip
                          then (Ok preselected, h1)
                          else if ResultType_eqb (Tui.type_ answer) Reset
                               then (Ok [], h1)
                               else if ResultType_eqb (Tui.type_ answer) Selection
                                    then (Ok (Tui.item answer), h1)
                                    else (Raise OutOfModel, h1)) = h1).
      { destruct (ResultType_eqb (Tui.type_ answer) Skip); [reflexivity |].
        destruct (ResultType_eqb (Tui.type_ answer) Reset); [reflexivity |].
        destruct (ResultType_eqb (Tui.type_ answer) Selection); reflexivity. }
      split; [exact Hsnd |].
      split; [intros H; discriminate |].
      intros _. exists preselected.
      split.
      { intros region. unfold preselected. rewrite filter_In, region_in_names.
        reflexivity. }
      split; [eexists; reflexivity |].
      fold answer. split; [| split].
      * intros ->. rewrite ResultType_eqb_refl. reflexivity.
      * intros ->. rewrite (ResultType_eqb_neq (not_eq_sym Skip_Reset)).
        rewrite ResultType_eqb_refl. reflexivity.
      * intros ->. rewrite (ResultType_eqb_neq (not_eq_sym Skip_Selection)).
        rewrite (ResultType_eqb_neq Selection_Reset).
        rewrite ResultType_eqb_refl. reflexivity.
Qed.

Section ReflectorDialog.
Context {T : TuiLibrary} {U : UrlLibrary}.
Import Menus.

Lemma int_or_keep_spec (text : string) (old : Z) :
  (forall s e, py_int s = Raise e -> e = ValueError) ->
  exists z, int_or_keep text old = Ok z
            /\ (forall v, py_int text = Ok v -> z = v)
            /\ (raises (py_int text) -> z = old).
Proof.
  intros Hint. unfold int_or_keep.
  destruct (py_int text) as [v | e] eqn:E.
  - exists v. split; [reflexivity |]. split.
    + intros v0 H. injection H as <-. reflexivity.
    + intros [e He]. discriminate.
  - rewrite (Hint text e E). exists old. split; [reflexivity |]. split.
    + intros v H. discriminate.
    + intros _. reflexivity.
Qed.

Lemma only_worldwide (regions : list MirrorRegion.t) :
  (forall region, In region regions -> MirrorRegion.name region = "Worldwide") ->
  filter (fun name => negb (String.eqb name "Worldwide"))
         (map MirrorRegion.name regions) = [].
Proof.
  induction regions as [| r rs IH]; intros Hall; [reflexivity |].
  cbn [map filter]. rewrite (Hall r (or_introl eq_refl)).
  rewrite String.eqb_refl. cbn [negb].
  apply IH. intros region Hin. apply Hall. right. exact Hin.
Qed.

(** What the prompts after the load can change. *)
Lemma reflector_prompts_spec (ui : reflector_dialog)
    (available_regions : list MirrorRegion.t) (preset : ReflectorConfiguration.t) :
  (forall s e, py_int s = Raise e -> e = ValueError) ->
  exists c,
    reflector_prompts ui available_regions preset = Ok c
    /\ ReflectorConfiguration.enabled c = ReflectorConfiguration.enabled preset
    /\ ReflectorConfiguration.verbose c = ReflectorConfiguration.verbose preset
    /\ ((forall region, In region available_regions ->
           MirrorRegion.name region = "Worldwide") ->
        ReflectorConfiguration.countries c = ReflectorConfiguration.countries preset)
    /\ (Tui.type_ (age_result ui) <> Selection
        \/ raises (py_int (Tui.item (age_result ui))) ->
        ReflectorConfiguration.age c = ReflectorConfiguration.age preset)
    /\ (Tui.type_ (age_result ui) = Selection ->
        forall v, py_int (Tui.item (age_result ui)) = Ok v ->
          ReflectorConfiguration.age c = v)
    /\ (Tui.type_ (latest_result ui) <> Selection
        \/ raises (py_int (Tui.item (latest_result ui))) ->
        ReflectorConfiguration.latest c = ReflectorConfiguration.latest preset)
    /\ (Tui.type_ (latest_result ui) = Selection ->
        forall v, py_int (Tui.item (latest_result ui)) = Ok v ->
          ReflectorConfiguration.latest c = v).
Proof.
  intros Hint. unfold reflector_prompts.
  set (countries := filter _ (map MirrorRegion.name available_regions)).
  set (p1 := match countries with [] => preset | _ :: _ => _ end).
  assert (H1 : ReflectorConfiguration.enabled p1 = ReflectorConfiguration.enabled preset
               /\ ReflectorConfiguration.verbose p1 = ReflectorConfiguration.verbose preset
               /\ ReflectorConfiguration.age p1 = ReflectorConfiguration.age preset
               /\ ReflectorConfiguration.latest p1 = ReflectorConfiguration.latest preset
               /\ (countries = [] ->
                   ReflectorConfiguration.countries p1
                   = ReflectorConfiguration.countries preset)).
  { subst p1. destruct countries as [| x xs]; [repeat split |].
    destruct (ResultType_eqb (Tui.type_ (countries_result ui)) Skip);
      [repeat split; discriminate |].
    destruct (ResultType_eqb (Tui.type_ (countries_result ui)) Reset);
      [repeat split; discriminate |].
    destruct (ResultType_eqb (Tui.type_ (countries_result ui)) Selection);
      repeat split; discriminate. }
  clearbody p1. destruct H1 as (He1 & Hv1 & Ha1 & Hl1 & Hc1).
  set (p2 := if ResultType_eqb (Tui.type_ (protocols_result ui)) Skip then p1 else _).
  assert (H2 : ReflectorConfiguration.enabled p2 = ReflectorConfiguration.enabled p1
               /\ ReflectorConfiguration.verbose p2 = ReflectorConfiguration.verbose p1
               /\ ReflectorConfiguration.age p2 = ReflectorConfiguration.age p1
               /\ ReflectorConfiguration.latest p2 = ReflectorConfiguration.latest p1
               /\ ReflectorConfiguration.countries p2
                  = ReflectorConfiguration.countries p1).
  { subst p2.
    destruct (ResultType_eqb (Tui.type_ (protocols_result ui)) Skip);
      [repeat split |].
    destruct (ResultType_eqb (Tui.type_ (protocols_result ui)) Selection);
      repeat split. }
  clearbody p2. destruct H2 as (He2 & Hv2 & Ha2 & Hl2 & Hc2).
  destruct (int_or_keep_spec (Tui.item (age_result ui))
              (ReflectorConfiguration.age p2) Hint) as (za & Hza & Hza1 & Hza2).
  destruct (int_or_keep_spec (Tui.item (latest_result ui))
              (ReflectorConfiguration.latest p2) Hint) as (zl & Hzl & Hzl1 & Hzl2).
  assert (Hcountries :
            (forall region, In region available_regions ->
               MirrorRegion.name region = "Worldwide") -> countries = []).
  { intros Hall. subst countries. apply only_worldwide. exact Hall. }
  assert (H3 : exists p3,
            (if ResultType_eqb (Tui.type_ (age_result ui)) Selection
             then let* age := int_or_keep (Tui.item (age_result ui))
                                (ReflectorConfiguration.age p2) in
                  Ok (with_age p2 age)
             else Ok p2) = Ok p3
            /\ ReflectorConfiguration.enabled p3 = ReflectorConfiguration.enabled p2
            /\ ReflectorConfiguration.verbose p3 = ReflectorConfiguration.verbose p2
            /\ ReflectorConfiguration.countries p3 = ReflectorConfiguration.countries p2
            /\ ReflectorConfiguration.latest p3 = ReflectorConfiguration.latest p2
            /\ (Tui.type_ (age_result ui) <> Selection
                \/ raises (py_int (Tui.item (age_result ui))) ->
                ReflectorConfiguration.age p3 = ReflectorConfiguration.age p2)
            /\ (Tui.type_ (age_result ui) = Selection ->
                forall v, py_int (Tui.item (age_result ui)) = Ok v ->
                  ReflectorConfiguration.age p3 = v)).
  { destruct (ResultType_eqb (Tui.type_ (age_result ui)) Selection) eqn:Eage.
    - rewrite Hza. cbn [bind]. eexists. split; [reflexivity |].
      repeat split.
      + intros [Hne | Hr]; [| exact (Hza2 Hr)].
        apply ResultType_eqb_eq in Eage. contradiction.
      + intros _ v Hv. exact (Hza1 v Hv).
    - exists p2. split; [reflexivity |]. repeat split.
      intros Hsel. rewrite Hsel, ResultType_eqb_refl in Eage. discriminate. }
  destruct H3 as (p3 & -> & He3 & Hv3 & Hc3 & Hl3 & Ha3 & Ha3'). cbn [bind].
  rewrite <- Hl3 in Hzl.
  assert (H4 : exists p4,
            (if ResultType_eqb (Tui.type_ (latest_result ui)) Selection
             then let* latest := int_or_keep (Tui.item (latest_result ui))
                                   (ReflectorConfiguration.latest p3) in
                  Ok (with_latest p3 latest)
             else Ok p3) = Ok p4
            /\ ReflectorConfiguration.enabled p4 = ReflectorConfiguration.enabled p3
            /\ ReflectorConfiguration.verbose p4 = ReflectorConfiguration.verbose p3
            /\ ReflectorConfiguration.countries p4 = ReflectorConfiguration.countries p3
            /\ ReflectorConfiguration.age p4 = ReflectorConfiguration.age p3
            /\ (Tui.type_ (latest_result ui) <> Selection
                \/ raises (py_int (Tui.item (latest_result ui))) ->
                ReflectorConfiguration.latest p4 = ReflectorConfiguration.latest p2)
            /\ (Tui.type_ (latest_result ui) = Selection ->
                forall v, py_int (Tui.item (latest_result ui)) = Ok v ->
                  ReflectorConfiguration.latest p4 = v)).
  { destruct (ResultType_eqb (Tui.type_ (latest_result ui)) Selection) eqn:Elat.
    - rewrite Hzl. cbn [bind]. eexists. split; [reflexivity |].
      repeat split.
      + intros [Hne | Hr]; [| exact (Hzl2 Hr)].
        apply ResultType_eqb_eq in Elat. contradiction.
      + intros _ v Hv. exact (Hzl1 v Hv).
    - exists p3. split; [reflexivity |]. repeat split.
      + intros _. exact Hl3.
      + intros Hsel. rewrite Hsel, ResultType_eqb_refl in Elat. discriminate. }
  destruct H4 as (p4 & -> & He4 & Hv4 & Hc4 & Ha4 & Hl4 & Hl4'). cbn [bind].
  set (p5 := if ResultType_eqb (Tui.type_ (sort_result ui)) Skip then p4 else _).
  assert (H5 : ReflectorConfiguration.enabled p5 = ReflectorConfiguration.enabled p4
               /\ ReflectorConfiguration.verbose p5 = ReflectorConfiguration.verbose p4
               /\ ReflectorConfiguration.age p5 = ReflectorConfiguration.age p4
               /\ ReflectorConfiguration.latest p5 = ReflectorConfiguration.latest p4
               /\ ReflectorConfiguration.countries p5
                  = ReflectorConfiguration.countries p4).
  { subst p5.
    destruct (ResultType_eqb (Tui.type_ (sort_result ui)) Skip);
      [repeat split |].
    destruct (ResultType_eqb (Tui.type_ (sort_result ui)) Selection);
      repeat split. }
  clearbody p5. destruct H5 as (He5 & Hv5 & Ha5 & Hl5 & Hc5).
  exists p5. split; [reflexivity |].
  split; [congruence |]. split; [congruence |].
  split.
  { intros Hall. rewrite Hc5, Hc4, Hc3, Hc2. apply Hc1. apply Hcountries.
    exact Hall. }
  split; [intros H; rewrite Ha5, Ha4, (Ha3 H); congruence |].
  split; [intros Hsel v Hv; rewrite Ha5, Ha4; exact (Ha3' Hsel v Hv) |].
  split; [intros H; rewrite Hl5, (Hl4 H); congruence |].
  intros Hsel v Hv. rewrite Hl5. exact (Hl4' Hsel v Hv).
Qed.
End ReflectorDialog.

(** X18: [configure_reflector].  Skipping the first prompt gives the
    preset back, the default configuration when there is none; an answer
    that leaves reflector disabled gives the preset back with that answer;
    in both cases no mirror list is loaded and no other prompt is read.
    With reflector enabled the mirrors are loaded anew, and what the load
    raises is raised.  After the load, as long as [int] raises nothing but
    [ValueError], the dialog returns a configuration: it is enabled, its
    [verbose] is that of the preset, which no prompt changes; the age is
    the number typed in, and the age of the preset when the prompt is not
    answered or [int] refuses the text; and the countries are those of the
    preset when no region but [Worldwide] is on offer. *)
Theorem configure_reflector_outcome
    {T : TuiLibrary} {U : UrlLibrary} {V : MirrorStatusListV3.Validation}
    (w : MirrorListHandler.world) (ui : Menus.reflector_dialog)
    (preset : option ReflectorConfiguration.t) (h : MirrorListHandler.t) :
  let start :=
    match preset with Some p => p | None => ReflectorConfiguration.default end in
  let answered :=
    if ResultType_eqb (Tui.type_ (Menus.enabled_result ui)) Selection
    then Menus.with_enabled start (Tui.item (Menus.enabled_result ui))
    else start in
  let run := Menus.configure_reflector w ui preset h in
  (Tui.type_ (Menus.enabled_result ui) = Skip -> run = (Ok start, h))
  /\ (Tui.type_ (Menus.enabled_result ui) <> Skip ->
      ReflectorConfiguration.enabled answered = false ->
      run = (Ok answered, h))
  /\ (Tui.type_ (Menus.enabled_result ui) <> Skip ->
      ReflectorConfiguration.enabled answered = true ->
      (forall e h1, MirrorListHandler.load_mirrors w h = (Raise e, h1) ->
         run = (Raise e, h1))
      /\ (forall h1, MirrorListHandler.load_mirrors w h = (Ok tt, h1) ->
          (forall s e, py_int s = Raise e -> e = ValueError) ->
          exists c available,
            run = (Ok c, h1)
            /\ MirrorListHandler.get_mirror_regions w h1 = (Ok available, h1)
            /\ ReflectorConfiguration.enabled c = true
            /\ ReflectorConfiguration.verbose c
               = ReflectorConfiguration.verbose start
            /\ ((forall region, In region available ->
                   MirrorRegion.name region = "Worldwide") ->
                ReflectorConfiguration.countries c
                = ReflectorConfiguration.countries start)
            /\ (Tui.type_ (Menus.age_result ui) <> Selection
                \/ raises (py_int (Tui.item (Menus.age_result ui))) ->
                ReflectorConfiguration.age c = ReflectorConfiguration.age start)
            /\ (Tui.type_ (Menus.age_result ui) = Selection ->
                forall v, py_int (Tui.item (Menus.age_result ui)) = Ok v ->
                  ReflectorConfiguration.age c = v))).
Proof.
  cbv zeta. unfold Menus.configure_reflector.
  set (start := match preset with Some p => p | None => ReflectorConfiguration.default end).
  change (match preset with
          | Some preset0 => preset0
          | None => ReflectorConfiguration.default
          end) with start.
  set (answered := if ResultType_eqb (Tui.type_ (Menus.enabled_result ui)) Selection
                   then _ else start).
  assert (Hans : ReflectorConfiguration.verbose answered
                 = ReflectorConfiguration.verbose start
                 /\ ReflectorConfiguration.countries answered
                    = ReflectorConfiguration.countries start
                 /\ ReflectorConfiguration.age answered
                    = ReflectorConfiguration.age start).
  { subst answered.
    destruct (ResultType_eqb (Tui.type_ (Menus.enabled_result ui)) Selection);
      repeat split. }
  destruct Hans as (Hv0 & Hc0 & Ha0).
  split; [| split].
  - intros ->. rewrite ResultType_eqb_refl. reflexivity.
  - intros Hskip Hdis. rewrite (ResultType_eqb_neq Hskip), Hdis. reflexivity.
  - intros Hskip Hen. rewrite (ResultType_eqb_neq Hskip), Hen. cbn [negb].
    split.
    + intros e h1 ->. reflexivity.
    + intros h1 Hload Hint. rewrite Hload.
      destruct (load_mirrors_mapping w h)
        as [(h2 & m & Hl & Hm & _) | (e & h2 & Hl & _)];
        rewrite Hload in Hl; [| discriminate].
      injection Hl as <-.
      rewrite (get_mirror_regions_held w h1 Hm).
      destruct (@reflector_prompts_spec T U ui
                  (map (fun item => MirrorRegion.mk (fst item)
                          (map MirrorStatusEntryV3.server_url (snd item))) m)
                  answered Hint)
        as (c & Hc & He & Hv & Hcs & Ha & Ha' & _).
      rewrite Hc. exists c. eexists. split; [reflexivity |].
      split; [reflexivity |]. split; [congruence |]. split; [congruence |].
      split; [intros Hall; rewrite (Hcs Hall); exact Hc0 |].
      split; [intros H; rewrite (Ha H); exact Ha0 | exact Ha'].
Qed.

(** ** Writing a mirror list and reading it back *)

Section WrittenText.
Import Mirrorlist.

Lemma append_assoc (a b c : string) :
  String.append (String.append a b) c = String.append a (String.append b c).
Proof. induction a as [| x a IH]; cbn [String.append]; [| rewrite IH]; reflexivity. Qed.

Lemma append_empty_r (a : string) : String.append a EmptyString = a.
Proof. induction a as [| x a IH]; cbn [String.append]; [| rewrite IH]; reflexivity. Qed.

Lemma one_line_append (a b : string) :
  one_line (String.append a b) = one_line a && one_line b.
Proof.
  induction a as [| x a IH]; cbn [String.append one_line]; [reflexivity |].
  rewrite IH, andb_assoc. reflexivity.
Qed.

(** A text on one line, followed by a line feed, is the first line. *)
Lemma splitlines_line (s rest : string) :
  one_line s = true ->
  splitlines (String.append s (String.append LF rest)) = s :: splitlines rest.
Proof.
  induction s as [| c s IH]; cbn [one_line String.append]; intros H.
  - reflexivity.
  - apply andb_true_iff in H. destruct H as [H Hs].
    apply andb_true_iff in H. destruct H as [Hcr Hlb].
    apply negb_true_iff in Hcr, Hlb.
    cbn [splitlines]. rewrite Hcr, Hlb, (IH Hs). reflexivity.
Qed.

(** Trimming leaves alone a text that neither begins nor ends with white
    space. *)
Lemma rstrip_append (a b : string) :
  b <> EmptyString -> rstrip b = b -> rstrip (String.append a b) = String.append a b.
Proof.
  intros Hb Hr. induction a as [| x a IH]; cbn [String.append]; [exact Hr |].
  cbn [rstrip]. rewrite IH.
  destruct (String.append a b) eqn:E; [| reflexivity].
  destruct a; cbn [String.append] in E; [contradiction | discriminate].
Qed.

Lemma removesuffix_append (u x : string) :
  x <> EmptyString -> removesuffix (String.append u x) x = u.
Proof.
  intros Hx. induction u as [| c u IH]; cbn [String.append].
  - destruct x as [| d x]; [contradiction |].
    cbn [removesuffix]. rewrite String.eqb_refl. reflexivity.
  - cbn [removesuffix].
    destruct (String.eqb_spec (String c (String.append u x)) x) as [E | E].
    + exfalso. apply (f_equal String.length) in E. cbn [String.length] in E.
      assert (Hl : forall a b, String.length (String.append a b)
                               = (String.length a + String.length b)%nat).
      { intros a b. induction a as [| y a IHa]; cbn; [| rewrite IHa]; reflexivity. }
      rewrite Hl in E. lia.
    + rewrite IH. reflexivity.
Qed.
End WrittenText.

Section ReadingBack.
Context {U : UrlLibrary}.
Import MirrorStatusEntryV3 MirrorListHandler Mirrorlist.

Lemma prefix_empty (s : string) : String.prefix EmptyString s = true.
Proof. destruct s; reflexivity. Qed.

Lemma plain_name_rstrip (name : string) : strip name = name -> rstrip name = name.
Proof. intros H. pose proof (rstrip_strip name) as Hr. rewrite H in Hr. exact Hr. Qed.

(** An empty line changes nothing. *)
Lemma locale_step_blank (st : mappings * string) :
  locale_step st EmptyString = Ok st.
Proof. destruct st. reflexivity. Qed.

(** The header line of a region that is not there yet opens it. *)
Lemma locale_step_header (ml : mappings) (cr name : string) :
  plain_name name -> dict_mem ml name = false ->
  locale_step (ml, cr) (String.append "## " name) = Ok (ml ++ [(name, [])], name).
Proof.
  intros (Hne & Hstrip & _ & Hocc) Hmem.
  assert (Hline : strip (String.append "## " name) = String.append "## " name).
  { unfold strip. rewrite (@rstrip_append "## " name Hne (plain_name_rstrip Hstrip)).
    reflexivity. }
  unfold locale_step. rewrite Hline.
  assert (Hstart : startswith (String.append "## " name) "## " = true).
  { unfold startswith. cbn [String.append String.prefix].
    repeat (destruct (ascii_dec _ _) as [_ | Hc]; [| contradiction Hc; reflexivity]).
    apply prefix_empty. }
  rewrite Hstart, (region_line_is_no_server_line _ Hstart).
  rewrite (replace_region_marker _ Hstart). cbn [String.append drop].
  rewrite (replace_no_occurrence _ _ _ Hocc), Hstrip.
  unfold dict_setdefault. rewrite Hmem. reflexivity.
Qed.

(** The line of a server in an open region appends the mirror built from
    it. *)
Lemma locale_step_server (ml : mappings) (name url : string)
    (parsed : string * string) (mirror : entry) :
  name <> EmptyString -> dict_mem ml name = true ->
  urlparse (String.append url "$repo/os/$arch") = Ok parsed ->
  MirrorStatusEntryV3.new url (fst parsed) true name "WW" true true true
    "Locally defined mirror" = Ok mirror ->
  locale_step (ml, name)
    (String.append "Server = " (String.append url "$repo/os/$arch"))
  = Ok (dict_append ml name mirror, name).
Proof.
  intros Hne Hmem Hparse Hnew.
  set (line := String.append "Server = " (String.append url "$repo/os/$arch")).
  assert (Hline : strip line = line).
  { unfold strip, line. rewrite <- append_assoc.
    rewrite (@rstrip_append (String.append "Server = " url) "$repo/os/$arch");
      [| discriminate | reflexivity].
    reflexivity. }
  unfold locale_step. rewrite Hline.
  assert (Hmark : startswith line "## " = false) by reflexivity.
  assert (Hstart : startswith line "Server = " = true).
  { unfold startswith, line. cbn [String.append String.prefix].
    repeat (destruct (ascii_dec _ _) as [_ | Hc]; [| contradiction Hc; reflexivity]).
    apply prefix_empty. }
  rewrite Hmark, Hstart.
  destruct (String.eqb_spec name "") as [E | _]; [contradiction |].
  rewrite (removeprefix_drop _ _ Hstart).
  change (drop (String.length "Server = ") line)
    with (String.append url "$repo/os/$arch").
  rewrite Hparse. cbn [bind].
  rewrite removesuffix_append by discriminate.
  destruct (String.eqb_spec name "") as [E | _]; [contradiction |].
  rewrite Hnew. cbn [bind].
  destruct (dict_item_present ml name Hmem) as [es ->]. reflexivity.
Qed.

Lemma dict_append_last (ml : mappings) (name : string) (es : list entry)
    (x : entry) :
  ~ In name (map fst ml) ->
  dict_append (ml ++ [(name, es)]) name x = ml ++ [(name, es ++ [x])].
Proof.
  induction ml as [| [k v] rest IH]; cbn [app dict_append map fst In]; intros H.
  - rewrite String.eqb_refl. reflexivity.
  - destruct (String.eqb_spec k name) as [E | _]; [exfalso; auto |].
    rewrite IH by tauto. reflexivity.
Qed.

Lemma dict_mem_last (ml : mappings) (name : string) (es : list entry) :
  dict_mem (ml ++ [(name, es)]) name = true.
Proof.
  unfold dict_mem. rewrite dict_get_app. destruct (dict_get ml name); [reflexivity |].
  cbn [dict_get]. rewrite String.eqb_refl. reflexivity.
Qed.

Lemma dict_mem_not_in (ml : mappings) (name : string) :
  ~ In name (map fst ml) -> dict_mem ml name = false.
Proof.
  unfold dict_mem. intros H. destruct (dict_get ml name) as [v |] eqn:E; [| reflexivity].
  exfalso. apply H. apply dict_get_in in E.
  apply in_map_iff. exists (name, v). split; [reflexivity | exact E].
Qed.

(** The server lines of one region. *)
Lemma locale_loop_servers (urls : list string) (ml : mappings) (name : string)
    (es0 : list entry) :
  name <> EmptyString -> ~ In name (map fst ml) ->
  Forall (readable name) urls ->
  exists es,
    locale_loop (ml ++ [(name, es0)], name)
      (map (fun url => String.append "Server = "
                         (String.append url "$repo/os/$arch")) urls)
    = Ok (ml ++ [(name, es0 ++ es)], name)
    /\ map MirrorStatusEntryV3.url es = urls.
Proof.
  intros Hne Hfresh Hall. revert es0.
  induction Hall as [| u us (parsed & mirror & Hparse & Hnew) Hus IH]; intros es0.
  - exists []. rewrite app_nil_r. split; reflexivity.
  - cbn [map locale_loop].
    pose proof (@locale_step_server (ml ++ [(name, es0)]) name u parsed mirror
                  Hne (dict_mem_last ml name es0) Hparse Hnew) as Hstep.
    rewrite (@dict_append_last ml name es0 mirror Hfresh) in Hstep.
    destruct (IH (es0 ++ [mirror])) as (es & Hrun & Hurls).
    exists (mirror :: es). split.
    + etransitivity;
        [exact (f_equal (fun r => let* st := r in locale_loop st _) Hstep) |].
      cbn [bind]. rewrite <- app_assoc in Hrun. exact Hrun.
    + cbn [map]. rewrite Hurls.
      destruct (new_fields _ _ _ _ _ _ _ _ _ Hnew) as (-> & _). reflexivity.
Qed.

Lemma locale_loop_app (l1 l2 : list string) (st : mappings * string) :
  locale_loop st (l1 ++ l2)
  = let* st1 := locale_loop st l1 in locale_loop st1 l2.
Proof.
  revert st. induction l1 as [| x l1 IH]; intros st; cbn [app locale_loop bind].
  - reflexivity.
  - destruct (locale_step st x) as [st1 | e]; cbn [bind]; [apply IH | reflexivity].
Qed.

Lemma locale_loop_blocks (items : list (string * list string)) (ml : mappings)
    (cr : string) :
  NoDup (map fst ml ++ map fst items) ->
  Forall (fun item => plain_name (fst item)
                      /\ Forall (readable (fst item)) (snd item)) items ->
  exists ml2 cr',
    locale_loop (ml, cr) (flat_map block_lines items) = Ok (ml ++ ml2, cr')
    /\ map fst ml2 = map fst items
    /\ Forall2 (fun kv item => map MirrorStatusEntryV3.url (snd kv) = snd item)
         ml2 items.
Proof.
  intros Hnd Hall. revert ml cr Hnd.
  induction Hall as [| [name urls] rest [Hname Hurls] Hrest IH]; intros ml cr Hnd.
  - exists [], cr. rewrite app_nil_r. repeat split. constructor.
  - cbn [fst snd] in *. cbn [flat_map]. rewrite locale_loop_app.
    unfold block_lines at 1. cbn [fst snd app locale_loop].
    rewrite !locale_step_blank. cbn [bind].
    assert (Hfresh : ~ In name (map fst ml)).
    { cbn [map fst] in Hnd. apply NoDup_remove_2 in Hnd.
      intros Hin. apply Hnd. apply in_or_app. left. exact Hin. }
    pose proof (@locale_step_header ml cr name Hname
                  (@dict_mem_not_in ml name Hfresh)) as Hhead.
    destruct Hname as (Hne & Hname').
    destruct (@locale_loop_servers urls ml name [] Hne Hfresh Hurls)
      as (es & Hrun & Hes).
    destruct (IH (ml ++ [(name, es)]) name) as (ml2 & cr' & Hrun2 & Hkeys & Hf2).
    { rewrite map_app. cbn [map fst]. rewrite <- app_assoc. exact Hnd. }
    exists ((name, es) :: ml2), cr'.
    split; [| split; [cbn [map fst]; rewrite Hkeys; reflexivity
                     | constructor; [exact Hes | exact Hf2]]].
    etransitivity;
      [exact (f_equal (fun r => let* st1 := (let* st := r in locale_loop st _) in
                                locale_loop st1 _) Hhead) |].
    cbn [bind].
    etransitivity;
      [exact (f_equal (fun r => let* st1 := r in locale_loop st1 _) Hrun) |].
    cbn [bind app]. rewrite <- app_assoc in Hrun2. exact Hrun2.
Qed.

(** The lines of the written text. *)
Lemma splitlines_servers (urls : list string) (rest : string) :
  Forall (fun url => one_line url = true) urls ->
  splitlines (String.append (fold_right String.append EmptyString
                               (map server_line urls)) rest)
  = map (fun url => String.append "Server = "
                      (String.append url "$repo/os/$arch")) urls
    ++ splitlines rest.
Proof.
  induction 1 as [| u us Hu Hus IH]; cbn [map fold_right app]; [reflexivity |].
  unfold server_line at 1. rewrite !append_assoc.
  change (String.append "Server = "
            (String.append u (String.append "$repo/os/$arch" (String.append LF ?x))))
    with (String.append "Server = "
            (String.append u (String.append "$repo/os/$arch" (String.append LF x)))).
  rewrite <- (append_assoc u "$repo/os/$arch").
  rewrite <- (append_assoc "Server = " (String.append u "$repo/os/$arch")).
  rewrite splitlines_line.
  - rewrite IH. reflexivity.
  - rewrite !one_line_append, Hu. reflexivity.
Qed.

Lemma splitlines_render (items : list (string * list string)) :
  Forall (fun item => one_line (fst item) = true
                      /\ Forall (fun url => one_line url = true) (snd item)) items ->
  splitlines (render items) = flat_map block_lines items.
Proof.
  unfold render.
  induction 1 as [| [name urls] rest [Hname Hurls] Hrest IH];
    cbn [map fold_right flat_map]; [reflexivity |].
  cbn [fst snd] in *. unfold block at 1. cbn [fst snd].
  rewrite !append_assoc.
  change (splitlines (String.append LF (String.append LF ?x)))
    with (EmptyString :: EmptyString :: splitlines x).
  rewrite <- (append_assoc "## " name).
  rewrite splitlines_line by (rewrite one_line_append, Hname; reflexivity).
  rewrite (splitlines_servers _ Hurls), IH. reflexivity.
Qed.
End ReadingBack.

(** X20: a text as [regions_config] writes it, for regions of distinct
    plain names with urls on one line that the library accepts, is read by
    the local parser as the same regions in the same order, each with the
    same urls in the same order. *)
Theorem written_list_reads_back {U : UrlLibrary}
    (items : list (string * list string)) :
  NoDup (map fst items) ->
  Forall (fun item =>
            Mirrorlist.plain_name (fst item)
            /\ Forall (fun url => Mirrorlist.one_line url = true
                                  /\ Mirrorlist.readable (fst item) url)
                      (snd item))
         items ->
  exists m,
    MirrorListHandler._parse_locale_mirrors (Mirrorlist.render items) = Ok m
    /\ map fst m = map fst items
    /\ Forall2 (fun kv item => map MirrorStatusEntryV3.url (snd kv) = snd item)
         m items.
Proof.
  intros Hnd Hall.
  assert (Hlines : Forall (fun item =>
                     Mirrorlist.one_line (fst item) = true
                     /\ Forall (fun url => Mirrorlist.one_line url = true) (snd item))
                     items).
  { apply Forall_impl with (2 := Hall). intros item [(_ & _ & Hone & _) Hurls].
    split; [exact Hone |]. apply Forall_impl with (2 := Hurls). tauto. }
  assert (Hread : Forall (fun item =>
                     Mirrorlist.plain_name (fst item)
                     /\ Forall (Mirrorlist.readable (fst item)) (snd item)) items).
  { apply Forall_impl with (2 := Hall). intros item [Hname Hurls].
    split; [exact Hname |]. apply Forall_impl with (2 := Hurls). tauto. }
  unfold MirrorListHandler._parse_locale_mirrors.
  rewrite (splitlines_render Hlines).
  destruct (@locale_loop_blocks U items [] EmptyString Hnd Hread)
    as (ml2 & cr' & Hrun & Hkeys & Hf2).
  exists ml2. split; [| split; [exact Hkeys | exact Hf2]].
  etransitivity;
    [exact (f_equal (fun r => let* st := r in Ok (fst st)) Hrun) |].
  reflexivity.
Qed.

Lemma written_list_reads_back_witness :
  exists m,
    MirrorListHandler._parse_locale_mirrors (U := Sample.urllib)
      (Mirrorlist.render [("RegionA", ["https://a/test/"])]) = Ok m
    /\ map fst m = ["RegionA"].
Proof.
  assert (Hnd : NoDup (map fst [("RegionA", ["https://a/test/"])])).
  { repeat constructor. intros []. }
  assert (Hall : Forall (fun item : string * list string =>
                    Mirrorlist.plain_name (fst item)
                    /\ Forall (fun url => Mirrorlist.one_line url = true
                                 /\ Mirrorlist.readable (U := Sample.urllib)
                                      (fst item) url)
                              (snd item))
                   [("RegionA", ["https://a/test/"])]).
  { constructor; [| constructor]. split.
    - repeat split. discriminate.
    - constructor; [| constructor]. split; [reflexivity |].
      eexists. eexists. split; reflexivity. }
  destruct (@written_list_reads_back Sample.urllib
              [("RegionA", ["https://a/test/"])] Hnd Hall)
    as (m & Hrun & Hkeys & _).
  exists m. split; [exact Hrun | exact Hkeys].
Defined.

(** ** The configuration text of the selected regions *)

Section RegionsConfig.
Context {R : RepositoryEnum} {U : UrlLibrary} {V : MirrorStatusListV3.Validation}.
Import MirrorStatusEntryV3 MirrorListHandler MirrorConfigurationOutput.

Lemma same_mirror_url (a b : entry) : Order.same_mirror a b -> url a = url b.
Proof. unfold Order.same_mirror. intros H. exact (f_equal url H). Qed.

Lemma same_mirror_urls (l l' : list entry) :
  Forall2 Order.same_mirror l l' -> map url l' = map url l.
Proof.
  induction 1 as [| a b l l' Hab Hl IH]; cbn [map]; [reflexivity |].
  rewrite IH, (same_mirror_url Hab). reflexivity.
Qed.

Lemma same_mirrors_refl (l : list entry) : Forall2 Order.same_mirror l l.
Proof. induction l; constructor; [reflexivity | assumption]. Qed.

Lemma same_mirrors_trans (a b c : list entry) :
  Forall2 Order.same_mirror a b -> Forall2 Order.same_mirror b c ->
  Forall2 Order.same_mirror a c.
Proof.
  intros Hab. revert c. induction Hab as [| x y a b Hxy Hab IH]; intros c Hbc.
  - inversion Hbc; subst. constructor.
  - inversion Hbc as [| ? z ? c' Hyz Hbc']; subst.
    constructor; [| apply IH; exact Hbc'].
    unfold Order.same_mirror in *. congruence.
Qed.

(** A mirror that holds its speed. *)
Let has_speed (e : entry) : Prop := exists v, _speed e = Some v.

(** Mirrors that hold their speed are not probed again. *)
Lemma keys_settled (net : nat -> download) (l : list entry) (n : nat) :
  Forall has_speed l -> snd (fst (keys net l n)) = l.
Proof.
  intros H. revert n.
  induction H as [| e es [v Hv] Hes IH]; intros n; cbn [keys]; [reflexivity |].
  rewrite (@SpeedProbe.speed_memo U net e n v Hv).
  specialize (IH n). destruct (keys net es n) as [[rs es'] n2].
  cbn [fst snd] in *. rewrite IH. reflexivity.
Qed.

(** The sorted view of a region that is there and can be probed. *)
Lemma get_status_by_region_returns (w : world) (region : string)
    (speed_sort : bool) (h : t) (m : mappings) (es : list entry) :
  _status_mappings h = Some m ->
  Order.loaded m ->
  dict_get m region = Some es ->
  Forall (fun e => Request (probe_url e) = Ok tt) es ->
  exists (sorted_list probed : list entry),
    get_status_by_region w region speed_sort h
    = (Ok sorted_list,
       mk (Some (dict_set m region probed)) (fetches h)
          (snd (keys (network w) es (downloads h))) (trace h))
    /\ Forall2 Order.same_mirror es probed
    /\ Forall has_speed probed
    /\ (Forall has_speed es -> probed = es)
    /\ Permutation probed sorted_list
    /\ StronglySorted (fun a b => Order.key_le (Order.key_of a) (Order.key_of b))
         sorted_list
    /\ (forall k, Order.with_key k sorted_list = Order.with_key k probed).
Proof.
  intros Hm Hloaded Hes Hreq.
  destruct (@keys_spec U (network w) es (downloads h) Hreq)
    as (dec & Hok & Hsnd & Hdec & Hspeeds).
  destruct (@keys_same U (network w) es (downloads h)) as [Hsame Hscores].
  pose proof (@keys_settled (network w) es (downloads h)) as Hsettled.
  unfold get_status_by_region, _mappings.
  rewrite Hm. cbv beta iota zeta. rewrite Hm. unfold dict_item. rewrite Hes.
  destruct (keys (network w) es (downloads h)) as [[rk es'] n].
  cbn [fst snd] in Hok, Hsnd, Hsame, Hscores, Hsettled |- *. subst rk es'.
  assert (Hunif : Order.uniform_scores (map snd dec)).
  { apply uniform_scores_map with (l := es); [exact Hscores |].
    exact (loaded_uniform Hloaded region Hes). }
  destruct (sort_keys_total Hunif) as [s Hs]. rewrite <- Hdec in Hs.
  rewrite Hs.
  assert (Hperm : Permutation dec s) by (eapply sort_by_perm; exact Hs).
  assert (Hkeyed : Order.keyed s).
  { apply (Permutation_Forall Hperm). rewrite Hdec. apply keyed_map. }
  exists (map snd s), (map snd dec).
  split; [reflexivity |]. split; [exact Hsame |]. split; [exact Hspeeds |].
  split; [exact Hsettled |].
  split; [apply Permutation_map; exact Hperm |].
  split.
  { apply keyed_sorted; [exact Hkeyed |].
    eapply sort_by_sorted; [exact key_lt_le | exact key_not_lt_le
                           | exact key_le_trans | exact Hs]. }
  intros k. rewrite (keyed_with_key k Hkeyed).
  rewrite (@sort_by_stable _ _ _ _ key_lt_not_eq k dec s Hs).
  rewrite keyed_with_key; [reflexivity |].
  rewrite Hdec. apply keyed_map.
Qed.

(** What sorted views leave of a mapping: the same mirrors under the same
    names, and a list whose mirrors all held their speed as it was. *)
Let kept (m m' : mappings) : Prop :=
  forall k,
    match dict_get m k, dict_get m' k with
    | Some a, Some b =>
        Forall2 Order.same_mirror a b /\ (Forall has_speed a -> b = a)
    | None, None => True
    | _, _ => False
    end.

Lemma kept_refl (m : mappings) : kept m m.
Proof.
  intros k. destruct (dict_get m k) as [a |]; [| exact I].
  split; [apply same_mirrors_refl | reflexivity].
Qed.

Lemma kept_trans (m1 m2 m3 : mappings) : kept m1 m2 -> kept m2 m3 -> kept m1 m3.
Proof.
  intros H12 H23 k. specialize (H12 k). specialize (H23 k).
  destruct (dict_get m1 k) as [a |], (dict_get m2 k) as [b |],
    (dict_get m3 k) as [c |]; try contradiction; try exact I.
  destruct H12 as [Hab Ha], H23 as [Hbc Hb].
  split; [exact (same_mirrors_trans Hab Hbc) |].
  intros Hall. specialize (Ha Hall). subst b. exact (Hb Hall).
Qed.

Lemma kept_set (m : mappings) (region : string) (es probed : list entry) :
  dict_get m region = Some es ->
  Forall2 Order.same_mirror es probed ->
  (Forall has_speed es -> probed = es) ->
  kept m (dict_set m region probed).
Proof.
  intros Hes Hsame Hsettled k. rewrite dict_get_set.
  destruct (String.eqb_spec region k) as [<- | _].
  - rewrite Hes. split; assumption.
  - destruct (dict_get m k) as [a |]; [| exact I].
    split; [apply same_mirrors_refl | reflexivity].
Qed.

(** The urls a mapping holds under a name. *)
Let urls_at (m : mappings) (k : string) : option (list string) :=
  option_map (map url) (dict_get m k).

Lemma kept_urls (m m' : mappings) (k : string) :
  kept m m' -> urls_at m' k = urls_at m k.
Proof.
  intros H. specialize (H k). unfold urls_at.
  destruct (dict_get m k) as [a |], (dict_get m' k) as [b |];
    try contradiction; [| reflexivity].
  destruct H as [Hab _]. cbn [option_map]. rewrite (same_mirror_urls Hab).
  reflexivity.
Qed.

(** A region that is there with mirrors the probe can ask. *)
Let askable (m : mappings) (region : MirrorRegion.t) : Prop :=
  exists us, urls_at m (MirrorRegion.name region) = Some us
             /\ Forall (fun u => Request (String.append u "core/os/x86_64/core.db")
                                 = Ok tt) us.

(** The list written for a region, against the mapping before the run and
    the mapping after it: the mirrors of the region as the handler holds
    them in the end, each with its speed, in ascending order of their
    keys, those of equal key in the order of the mapping. *)
Let row (m m' : mappings) (region : MirrorRegion.t) (l : list entry) : Prop :=
  exists es probed,
    dict_get m (MirrorRegion.name region) = Some es
    /\ dict_get m' (MirrorRegion.name region) = Some probed
    /\ Forall2 Order.same_mirror es probed
    /\ Forall has_speed probed
    /\ Permutation probed l
    /\ StronglySorted (fun a b => Order.key_le (Order.key_of a) (Order.key_of b)) l
    /\ (forall k, Order.with_key k l = Order.with_key k probed).

Lemma row_kept_after (m m1 m' : mappings) (region : MirrorRegion.t)
    (l : list entry) :
  kept m1 m' -> row m m1 region l -> row m m' region l.
Proof.
  intros Hk (es & probed & Hes & Hp & Hsame & Hspeed & Hperm & Hsorted & Hstable).
  specialize (Hk (MirrorRegion.name region)). rewrite Hp in Hk.
  destruct (dict_get m' (MirrorRegion.name region)) as [b |] eqn:Hb;
    [| contradiction].
  destruct Hk as [_ Hsettled]. specialize (Hsettled Hspeed). subst b.
  exists es, probed. repeat split; assumption.
Qed.

Lemma row_kept_before (m m1 m' : mappings) (region : MirrorRegion.t)
    (l : list entry) :
  kept m m1 -> row m1 m' region l -> row m m' region l.
Proof.
  intros Hk (es1 & probed & Hes1 & Hp & Hsame & Hspeed & Hperm & Hsorted & Hstable).
  specialize (Hk (MirrorRegion.name region)). rewrite Hes1 in Hk.
  destruct (dict_get m (MirrorRegion.name region)) as [es |] eqn:Hes;
    [| contradiction].
  destruct Hk as [Hsame0 _].
  exists es, probed. split; [exact Hes |]. split; [exact Hp |].
  split; [exact (same_mirrors_trans Hsame0 Hsame) |].
  repeat split; assumption.
Qed.

Lemma server_lines_text (l : list entry) (config : string) :
  server_lines l config
  = String.append config
      (fold_right String.append EmptyString
         (map Mirrorlist.server_line (map url l))).
Proof.
  unfold server_lines. revert config.
  induction l as [| e l IH]; intros config; cbn [fold_left map fold_right].
  - rewrite append_empty_r. reflexivity.
  - rewrite IH, append_assoc. reflexivity.
Qed.

(** The loop over the regions that are there: what it writes and what it
    leaves in the handler. *)
Lemma regions_loop_prefix (w : world) (speed_sort : bool)
    (pre rest : list MirrorRegion.t) (config : string) (h : t) (m : mappings) :
  _status_mappings h = Some m ->
  Order.loaded m ->
  Forall (askable m) pre ->
  exists (lists : list (list entry)) (h' : t) (m' : mappings),
    regions_loop w speed_sort (pre ++ rest) config h
    = regions_loop w speed_sort rest
        (String.append config
           (Mirrorlist.render
              (combine (map MirrorRegion.name pre) (map (map url) lists))))
        h'
    /\ _status_mappings h' = Some m'
    /\ Order.loaded m'
    /\ kept m m'
    /\ fetches h' = fetches h /\ trace h' = trace h
    /\ Forall2 (row m m') pre lists.
Proof.
  intros Hm Hl Hpre. revert config h m Hm Hl Hpre.
  induction pre as [| region pre IH]; intros config h m Hm Hl Hpre.
  - exists [], h, m. cbn [app map combine Mirrorlist.render fold_right].
    rewrite append_empty_r.
    split; [reflexivity |]. split; [exact Hm |]. split; [exact Hl |].
    split; [apply kept_refl |]. split; [reflexivity |]. split; [reflexivity |].
    constructor.
  - inversion Hpre as [| ? ? (us & Hus & Hask) Hpre']; subst.
    unfold urls_at in Hus.
    destruct (dict_get m (MirrorRegion.name region)) as [es |] eqn:Hes;
      [| discriminate].
    cbn [option_map] in Hus. injection Hus as <-.
    assert (Hreq : Forall (fun e => Request (probe_url e) = Ok tt) es).
    { clear - Hask. induction es as [| e es IH]; [constructor |].
      cbn [map] in Hask. inversion Hask; subst.
      constructor; [assumption | apply IH; assumption]. }
    destruct (@get_status_by_region_returns w (MirrorRegion.name region)
                speed_sort h m es Hm Hl Hes Hreq)
      as (sorted_list & probed & Hrun & Hsame & Hspeed & Hsettled & Hperm
          & Hsorted & Hstable).
    cbn [app regions_loop]. rewrite Hrun.
    set (h1 := mk (Some (dict_set m (MirrorRegion.name region) probed)) (fetches h)
                  (snd (keys (network w) es (downloads h))) (trace h)) in *.
    set (m1 := dict_set m (MirrorRegion.name region) probed) in *.
    assert (Hm1 : _status_mappings h1 = Some m1) by reflexivity.
    assert (Hl1 : Order.loaded m1).
    { exact (@Order.loaded_viewed U V w (MirrorRegion.name region) speed_sort
               h h1 (Ok sorted_list) m m1 Hl Hm Hrun Hm1). }
    assert (Hk1 : kept m m1) by (apply kept_set with (es := es); assumption).
    assert (Hpre1 : Forall (askable m1) pre).
    { apply Forall_impl with (2 := Hpre'). intros r (us & Hus & Hu).
      exists us. rewrite (kept_urls _ Hk1). split; assumption. }
    rewrite server_lines_text.
    match goal with
    | |- context [regions_loop w speed_sort (pre ++ rest) ?c h1] =>
        destruct (IH c h1 m1 Hm1 Hl1 Hpre1)
          as (lists & h' & m' & Hloop & Hm' & Hl' & Hk' & Hf & Ht & Hrows)
    end.
    exists (sorted_list :: lists), h', m'.
    split.
    { rewrite Hloop. f_equal.
      unfold Mirrorlist.render, Mirrorlist.block.
      cbn [map combine fold_right fst snd].
      rewrite !append_assoc. reflexivity. }
    split; [exact Hm' |]. split; [exact Hl' |].
    split; [exact (kept_trans Hk1 Hk') |].
    split; [rewrite Hf; reflexivity |]. split; [rewrite Ht; reflexivity |].
    constructor.
    + apply row_kept_after with (m1 := m1); [exact Hk' |].
      exists es, probed. split; [exact Hes |].
      split; [unfold m1; rewrite dict_get_set, String.eqb_refl; reflexivity |].
      repeat split; assumption.
    + apply Forall2_impl with (2 := Hrows).
      intros r l Hrow. exact (row_kept_before Hk1 Hrow).
Qed.

(** The text written when every selected region can be asked, and the
    error raised at the first region that is not there. *)
Lemma regions_config_run (w : world) (c : MirrorConfiguration.t)
    (speed_sort : bool) (h : t) (m : mappings) :
  _status_mappings h = Some m ->
  Order.loaded m ->
  (Forall (askable m) (MirrorConfiguration.mirror_regions c) ->
   exists (lists : list (list entry)) (h' : t) (m' : mappings),
     regions_config w c speed_sort h
     = (Ok (Mirrorlist.render
              (combine (map MirrorRegion.name (MirrorConfiguration.mirror_regions c))
                       (map (map url) lists))),
        h')
     /\ _status_mappings h' = Some m'
     /\ fetches h' = fetches h /\ trace h' = trace h
     /\ Forall2 (row m m') (MirrorConfiguration.mirror_regions c) lists)
  /\ (forall pre region post,
        MirrorConfiguration.mirror_regions c = pre ++ region :: post ->
        Forall (askable m) pre ->
        dict_get m (MirrorRegion.name region) = None ->
        fst (regions_config w c speed_sort h) = Raise KeyError).
Proof.
  intros Hm Hl. unfold regions_config. split.
  - intros Hall.
    destruct (@regions_loop_prefix w speed_sort
                (MirrorConfiguration.mirror_regions c) [] EmptyString h m
                Hm Hl Hall)
      as (lists & h' & m' & Hloop & Hm' & _ & _ & Hf & Ht & Hrows).
    rewrite app_nil_r in Hloop. cbn [regions_loop] in Hloop.
    exists lists, h', m'. repeat split; assumption.
  - intros pre region post Hsel Hpre Hnone. rewrite Hsel.
    destruct (@regions_loop_prefix w speed_sort pre (region :: post)
                EmptyString h m Hm Hl Hpre)
      as (lists & h' & m' & Hloop & Hm' & _ & Hk & _).
    rewrite Hloop. cbn [regions_loop].
    assert (Hnone' : dict_get m' (MirrorRegion.name region) = None).
    { specialize (Hk (MirrorRegion.name region)). rewrite Hnone in Hk.
      destruct (dict_get m' (MirrorRegion.name region));
        [contradiction | reflexivity]. }
    unfold get_status_by_region, _mappings.
    rewrite Hm'. cbv beta iota zeta. rewrite Hm'. unfold dict_item.
    rewrite Hnone'. reflexivity.
Qed.
End RegionsConfig.

(** X19: [regions_config] on a handler that holds a loaded mapping.  When
    every selected region is a region of the mapping whose mirrors the
    probe can ask, the text is, region after region in the order of the
    selection, two line feeds, the header [## name] and one line
    [Server = url$repo/os/$arch] per mirror of the region; nothing is
    fetched or opened.  The mirrors written for a region are the mirrors
    the handler holds for it after the run, which are those of the mapping
    with their speed set; they are written in ascending order of (score,
    speed), the speed being the one the mirror holds, and mirrors of equal
    key in the order of the mapping.  When a selected region is not in the
    mapping, and the ones before it are as above, [KeyError] is raised and
    no text is returned. *)
Theorem regions_config_text
    {R : RepositoryEnum} {U : UrlLibrary} {V : MirrorStatusListV3.Validation}
    (w : MirrorListHandler.world) (c : MirrorConfiguration.t) (speed_sort : bool)
    (h : MirrorListHandler.t) (m : MirrorListHandler.mappings) :
  MirrorListHandler._status_mappings h = Some m ->
  Order.loaded m ->
  let askable (region : MirrorRegion.t) :=
    exists es,
      dict_get m (MirrorRegion.name region) = Some es
      /\ Forall (fun e => Request (MirrorStatusEntryV3.probe_url e) = Ok tt) es in
  let run := MirrorConfigurationOutput.regions_config w c speed_sort h in
  (Forall askable (MirrorConfiguration.mirror_regions c) ->
   exists (lists : list (list MirrorListHandler.entry)) (h' : MirrorListHandler.t)
          (m' : MirrorListHandler.mappings),
     run = (Ok (Mirrorlist.render
                  (combine (map MirrorRegion.name (MirrorConfiguration.mirror_regions c))
                           (map (map MirrorStatusEntryV3.url) lists))),
            h')
     /\ MirrorListHandler._status_mappings h' = Some m'
     /\ MirrorListHandler.fetches h' = MirrorListHandler.fetches h
     /\ MirrorListHandler.trace h' = MirrorListHandler.trace h
     /\ Forall2
          (fun region l =>
             exists es probed,
               dict_get m (MirrorRegion.name region) = Some es
               /\ dict_get m' (MirrorRegion.name region) = Some probed
               /\ Forall2 Order.same_mirror es probed
               /\ Forall (fun e => exists v, MirrorStatusEntryV3._speed e = Some v)
                         probed
               /\ Permutation probed l
               /\ StronglySorted
                    (fun a b => Order.key_le (Order.key_of a) (Order.key_of b)) l
               /\ (forall k, Order.with_key k l = Order.with_key k probed))
          (MirrorConfiguration.mirror_regions c) lists)
  /\ (forall pre region post,
        MirrorConfiguration.mirror_regions c = pre ++ region :: post ->
        Forall askable pre ->
        dict_get m (MirrorRegion.name region) = None ->
        fst run = Raise KeyError).
Proof.
  intros Hm Hl. cbv zeta.
  assert (Hconv : forall l,
            Forall (fun region =>
                      exists es,
                        dict_get m (MirrorRegion.name region) = Some es
                        /\ Forall (fun e => Request (MirrorStatusEntryV3.probe_url e)
                                            = Ok tt) es) l ->
            Forall (fun region =>
                      exists us,
                        option_map (map MirrorStatusEntryV3.url)
                          (dict_get m (MirrorRegion.name region)) = Some us
                        /\ Forall (fun u => Request (String.append u "core/os/x86_64/core.db")
                                            = Ok tt) us) l).
  { intros l Hall. apply Forall_impl with (2 := Hall).
    intros region (es & Hes & Hreq). exists (map MirrorStatusEntryV3.url es).
    rewrite Hes. split; [reflexivity |].
    clear - Hreq. induction Hreq as [| e es He Hes IH]; cbn [map]; constructor;
      assumption. }
  destruct (@regions_config_run R U V w c speed_sort h m Hm Hl) as [Htext Hmissing].
  split.
  - intros Hall. exact (Htext (Hconv _ Hall)).
  - intros pre region post Hsel Hpre Hnone.
    exact (Hmissing pre region post Hsel (Hconv _ Hpre) Hnone).
Qed.

Lemma regions_config_text_witness :
  exists (lists : list (list MirrorListHandler.entry)) (h' : MirrorListHandler.t),
    MirrorConfigurationOutput.regions_config
      (R := Sample.repositories) (U := Sample.urllib)
      (V := SampleOrder.validation)
      SampleOrder.world SampleOrder.selection true SampleOrder.handler
    = (Ok (Mirrorlist.render
             (combine ["Brazil"] (map (map MirrorStatusEntryV3.url) lists))),
       h')
    /\ Forall (StronglySorted
                 (fun a b => Order.key_le (Order.key_of a) (Order.key_of b)))
              lists
    /\ Mirrorlist.render
         (combine ["Brazil"] (map (map MirrorStatusEntryV3.url) lists))
       = Mirrorlist.render
           [("Brazil",
             ["https://c.example/"; "https://b.example/"; "https://d.example/";
              "https://a.example/"])].
Proof.
  assert (Hask : Forall
            (fun region =>
               exists es,
                 dict_get SampleOrder.regions (MirrorRegion.name region) = Some es
                 /\ Forall (fun e => @Request Sample.urllib
                                       (MirrorStatusEntryV3.probe_url e) = Ok tt) es)
            [MirrorRegion.mk "Brazil" []]).
  { constructor; [| constructor]. eexists. split; [reflexivity |].
    repeat (constructor; [reflexivity |]). constructor. }
  destruct (proj1 (@regions_config_text
              Sample.repositories Sample.urllib SampleOrder.validation
              SampleOrder.world SampleOrder.selection true SampleOrder.handler
              SampleOrder.regions eq_refl
              (@Order.loaded_remote Sample.urllib SampleOrder.validation
                 EmptyString SampleOrder.regions eq_refl)) Hask)
    as (lists & h' & m' & Hrun & _ & _ & _ & Hrows).
  exists lists, h'. split; [exact Hrun |]. split.
  - clear - Hrows. induction Hrows as [| region l regions lists Hrow Hrows IH];
      constructor; [| exact IH].
    destruct Hrow as (es & probed & _ & _ & _ & _ & _ & Hsorted & _).
    exact Hsorted.
  - remember (MirrorConfigurationOutput.regions_config
                (R := Sample.repositories) (U := Sample.urllib)
                (V := SampleOrder.validation)
                SampleOrder.world SampleOrder.selection true SampleOrder.handler)
      as r eqn:Er.
    vm_compute in Er. subst r. injection Hrun as Htext _.
    etransitivity; [symmetry; exact Htext |]. reflexivity.
Defined.

(** ** The configuration text of the custom servers *)

Section CustomServersText.

Lemma concat_cons_nonempty (sep x : string) (l : list string) :
  x <> EmptyString -> String.concat sep (x :: l) <> EmptyString.
Proof.
  intros Hx. destruct x as [| c x]; [contradiction |].
  destruct l; cbn [String.concat String.append]; discriminate.
Qed.

Lemma concat_cons_append (a b : string) (rest : list string) :
  String.concat LF (String.append a (String.append LF b) :: rest)
  = String.append a (String.append LF (String.concat LF (b :: rest))).
Proof.
  destruct rest as [| x r]; cbn [String.concat]; [reflexivity |].
  rewrite !append_assoc. reflexivity.
Qed.

Lemma rstrip_space_tail (a b : string) :
  rstrip b = EmptyString -> rstrip (String.append a b) = rstrip a.
Proof.
  intros Hb. induction a as [| c a IH]; cbn [String.append]; [exact Hb |].
  cbn [rstrip]. rewrite IH. reflexivity.
Qed.

(** The lines of the servers, as the loop leaves them: every line ended by
    a line feed. *)
Lemma custom_servers_lines (servers : list CustomServer.t) (head : string) :
  fold_left
    (fun config server =>
       String.append config
         (String.append "Server = " (String.append (CustomServer.url server) LF)))
    servers (String.append head LF)
  = String.append
      (String.concat LF
         (head :: map (fun server => String.append "Server = " (CustomServer.url server))
                      servers))
      LF.
Proof.
  revert head. induction servers as [| s l IH]; intros head; cbn [fold_left map].
  - reflexivity.
  - rewrite <- (append_assoc "Server = " (CustomServer.url s) LF).
    rewrite <- (append_assoc (String.append head LF)).
    rewrite (append_assoc head LF).
    rewrite IH, concat_cons_append. cbn [String.concat].
    destruct (map _ l); reflexivity.
Qed.

Lemma rstrip_lines (head : string) (lines : list string) :
  head <> EmptyString -> rstrip head = head ->
  Forall (fun line => line <> EmptyString /\ rstrip line = line) lines ->
  rstrip (String.concat LF (head :: lines)) = String.concat LF (head :: lines).
Proof.
  intros Hne Hr Hall. revert head Hne Hr.
  induction Hall as [| x l [Hx Hxr] Hl IH]; intros head Hne Hr.
  - exact Hr.
  - change (String.concat LF (head :: x :: l))
      with (String.append head (String.append LF (String.concat LF (x :: l)))).
    rewrite <- append_assoc. apply rstrip_append.
    + apply concat_cons_nonempty. exact Hx.
    + apply IH; assumption.
Qed.
End CustomServersText.

(** X21: [custom_servers_config] answers the empty text when there is no
    custom server.  With servers whose urls are neither empty nor end in
    white space, it answers the header [## Custom Servers] and one line
    [Server = url] per server, in the order of the list, the lines joined
    by line feeds with none after the last. *)
Theorem custom_servers_config_text {R : RepositoryEnum} (c : MirrorConfiguration.t) :
  (MirrorConfiguration.custom_servers c = [] ->
   MirrorConfiguration.custom_servers_config c = EmptyString)
  /\ (MirrorConfiguration.custom_servers c <> [] ->
      Forall (fun server =>
                CustomServer.url server <> EmptyString
                /\ rstrip (CustomServer.url server) = CustomServer.url server)
             (MirrorConfiguration.custom_servers c) ->
      MirrorConfiguration.custom_servers_config c
      = String.concat LF
          ("## Custom Servers"
           :: map (fun server => String.append "Server = " (CustomServer.url server))
                  (MirrorConfiguration.custom_servers c))).
Proof.
  unfold MirrorConfiguration.custom_servers_config. split.
  - intros ->. reflexivity.
  - intros Hne Hall.
    destruct (MirrorConfiguration.custom_servers c) as [| s l];
      [contradiction |].
    etransitivity;
      [apply (f_equal strip);
       exact (custom_servers_lines (s :: l) "## Custom Servers") |].
    set (lines := map (fun server => String.append "Server = " (CustomServer.url server))
                      (s :: l)).
    assert (Hlines : Forall (fun line => line <> EmptyString /\ rstrip line = line)
                            lines).
    { unfold lines. clear - Hall.
      induction Hall as [| x xs [Hx Hxr] Hxs IH]; cbn [map]; constructor;
        [| exact IH].
      split; [discriminate |]. apply rstrip_append; assumption. }
    unfold strip. rewrite rstrip_space_tail by reflexivity.
    rewrite (@rstrip_lines "## Custom Servers" lines); [| discriminate | reflexivity
                                                        | exact Hlines].
    destruct lines; reflexivity.
Qed.

(** ** The validator run on every mirror *)

Lemma mapM_raises {A B : Type} (f : A -> result B) (l : list A) (x : A) :
  In x l -> raises (f x) -> raises (mapM f l).
Proof.
  intros Hin [e He]. induction l as [| y ys IH]; [contradiction |].
  cbn [mapM]. destruct Hin as [-> | Hin].
  - rewrite He. exists e. reflexivity.
  - destruct (f y) as [b | e']; cbn [bind]; [| exists e'; reflexivity].
    destruct (IH Hin) as [e2 ->]. exists e2. reflexivity.
Qed.

(** X22: the validator [debug_output] splits the network location of the
    url at its first colon: what stands before is the host name, and what
    follows, if there is a colon, is read by [int] as the port; nothing
    else of the mirror changes.  When [int] refuses the text after the
    colon the validator raises, and then the validation of every feed
    that holds the mirror raises, so the whole remote parse fails on one
    such url. *)
Theorem debug_output_host_and_port
    {U : UrlLibrary} {V : MirrorStatusListV3.Validation}
    (e : MirrorStatusEntryV3.t) :
  (forall e', MirrorStatusEntryV3.debug_output e = Ok e' ->
     exists parsed,
       urlparse (MirrorStatusEntryV3.url e) = Ok parsed
       /\ MirrorStatusEntryV3._hostname e'
          = Some (fst (split_once (snd parsed) ":"))
       /\ match snd (split_once (snd parsed) ":") with
          | None => MirrorStatusEntryV3._port e' = None
          | Some p => exists z, py_int p = Ok z
                                /\ MirrorStatusEntryV3._port e' = Some z
          end
       /\ MirrorStatusEntryV3.with_port (MirrorStatusEntryV3.with_hostname e' None) None
          = MirrorStatusEntryV3.with_port (MirrorStatusEntryV3.with_hostname e None) None)
  /\ (forall parsed p,
        urlparse (MirrorStatusEntryV3.url e) = Ok parsed ->
        snd (split_once (snd parsed) ":") = Some p ->
        raises (py_int p) ->
        raises (MirrorStatusEntryV3.debug_output e)
        /\ forall data d m text,
             MirrorStatusListV3.check_model data = Ok d ->
             MirrorStatusListV3.validate_fields d = Ok m ->
             In e (MirrorStatusListV3.urls m) ->
             raises (MirrorStatusListV3.model_validate data)
             /\ (MirrorStatusListV3.json_loads text = Ok data ->
                 raises (MirrorListHandler._parse_remote_mirror_list text))).
Proof.
  split.
  - intros e'. unfold MirrorStatusEntryV3.debug_output.
    destruct (urlparse (MirrorStatusEntryV3.url e)) as [parsed | err];
      cbn [bind]; [| discriminate].
    destruct (split_once (snd parsed) ":") as [hostname [p |]] eqn:Es;
      cbn [fst snd].
    + destruct (py_int p) as [z | err] eqn:Ep; cbn [bind]; [| discriminate].
      intros H. injection H as <-. exists parsed. rewrite Es. cbn [fst snd].
      split; [reflexivity |]. split; [reflexivity |].
      split; [exists z; split; [exact Ep | reflexivity] | reflexivity].
    + cbn [bind]. intros H. injection H as <-. exists parsed.
      rewrite Es. cbn [fst snd]. repeat split.
  - intros parsed p Hparse Hsplit [err Hp].
    assert (Hraise : raises (MirrorStatusEntryV3.debug_output e)).
    { unfold MirrorStatusEntryV3.debug_output. rewrite Hparse. cbn [bind].
      destruct (split_once (snd parsed) ":") as [hostname port].
      cbn [snd] in Hsplit. subst port. rewrite Hp. exists err. reflexivity. }
    split; [exact Hraise |].
    intros data d m text Hcheck Hfields Hin.
    assert (Hmodel : raises (MirrorStatusListV3.model_validate data)).
    { unfold MirrorStatusListV3.model_validate. rewrite Hcheck. cbn [bind].
      rewrite Hfields. cbn [bind].
      destruct (mapM_raises MirrorStatusEntryV3.debug_output _ _ Hin Hraise)
        as [e2 ->].
      exists e2. reflexivity. }
    split; [exact Hmodel |].
    intros Hloads. unfold MirrorListHandler._parse_remote_mirror_list,
      MirrorStatusListV3.model_validate_json.
    rewrite Hloads. cbn [bind]. destruct Hmodel as [e2 ->].
    exists e2. reflexivity.
Qed.
